(** * Trading orchestration core: order pipeline, sniper engine, copy-trade engine

  A shallow embedding of the Python services
    - [services/trading_service.py]    (module [TradingService], and
      [Async] for its handlers as coroutines),
    - [services/sniper_service.py]     (modules [SniperService] and
      [SniperEngine]),
    - [services/copy_trade_service.py] (modules [CopyTradeService] and
      [CopyTradeSessions]),
    - [services/market_data_service.py] (module [MarketDataService], on
      the decoded JSON of the price feeds),
    - [utils/solana_manager.py]        (module [SolanaManager], and
      [OnDicts] for the reads the services make of its dicts),
  together with the part of the [base58] package they call.

  Conventions of the embedding.
    - Python [float] values (prices, executed amounts, wall-clock
      timestamps) are exact rationals [Q]; comparisons are the boolean
      comparisons of the source.  Rounding is not represented.  The two
      floats of an order request that the validation compares, amount and
      slippage, are [Py.float]: a rational, an infinity or NaN.
    - A value of a dict or of a JSON document whose type the source does
      not fix is a [SolanaManager.Value].
    - Python [int] values are [Z]; [str] is [string], one [ascii] per code
      point (code points below 256).
    - A [Dict[str, Dict]] registry is a [gmap string _]; a database table is
      the list of its rows in insertion order; the Redis cache is a
      [gmap string _] from key to cached value.
    - [datetime.now()], [uuid.uuid4()] and the answers of the chain client
      are inputs of the operation that reads them.
    - A [try]/[except Exception] block is an [option] or a sum whose failure
      branch is the handler of the source.
    - In the modules of the services a request handler runs from its first
      to its last statement.  For the order pipeline, whose handlers share
      the orders table and the cache, [Async] has the handlers as
      coroutines that give way at each [await] of the table or the cache,
      and the runs of [Lifecycle] are the schedules without interleaving.

  The modules of the services come first, with sample data ([Samples],
  [Cases]) and the vocabulary of the statements ([Views], [Lifecycle],
  [Async], [Measures], [Quotes]), then the properties. *)

From stdpp Require Import gmap strings list fin_maps pretty.
From Stdlib Require Import QArith Qminmax Lqa ZArith Ascii String Sorted.
Close Scope Q_scope.
Local Open Scope string_scope.

(** ** Python numbers *)

Module Py.

(** [x < y], [x <= y], [x > y], [x >= y] on floats, as booleans. *)
Definition lt (x y : Q) : bool := negb (Qle_bool y x).
Definition le (x y : Q) : bool := Qle_bool x y.
Definition gt (x y : Q) : bool := lt y x.
Definition ge (x y : Q) : bool := le y x.

(** A float as a request message carries it: a finite value, taken as the
    exact rational it stands for, an infinity, or NaN. *)
Inductive float := num (q : Q) | inf | neg_inf | nan.

(** [x <= y], [x < y] and [x > y] on such floats: a comparison with NaN on
    either side is [False]. *)
Definition float_le (x y : float) : bool :=
  match x, y with
  | nan, _ | _, nan => false
  | neg_inf, _ | _, inf => true
  | inf, _ | _, neg_inf => false
  | num a, num b => le a b
  end.
Definition float_lt (x y : float) : bool :=
  match x, y with
  | nan, _ | _, nan => false
  | inf, _ | _, neg_inf => false
  | neg_inf, _ | _, inf => true
  | num a, num b => lt a b
  end.
Definition float_gt (x y : float) : bool := float_lt y x.

(** [x / y]: raises [ZeroDivisionError] when [y] is zero. *)
Definition div (x y : Q) : option Q :=
  if Qeq_bool y 0 then None else Some (x / y)%Q.

(** [d.get(key, default)] on a key that may be absent. *)
Definition get {A} (field : option A) (dflt : A) : A :=
  match field with Some v => v | None => dflt end.

(** [str.isspace] on one code point below 256: the characters removed by
    [str.rstrip()] without argument. *)
Definition isspace (c : ascii) : bool :=
  let n := N_of_ascii c in
  ((9 <=? n) && (n <=? 13) || (28 <=? n) && (n <=? 32)
   || (n =? 133) || (n =? 160))%N.

Definition dropwhile {A} (p : A -> bool) : list A -> list A :=
  fix go l := match l with
              | [] => []
              | x :: l' => if p x then go l' else l
              end.

(** [s.rstrip()] and [s.lstrip(c)]. *)
Definition rstrip (v : list ascii) : list ascii :=
  rev (dropwhile isspace (rev v)).
Definition lstrip (c : ascii) (v : list ascii) : list ascii :=
  dropwhile (Ascii.eqb c) v.

End Py.

(** ** The [base58] package: [b58decode] *)

Module Base58.

Definition BITCOIN_ALPHABET : string :=
  "123456789ABCDEFGHJKLMNPQRSTUVWXYZabcdefghijkmnopqrstuvwxyz".

Fixpoint index_from (i : N) (c : ascii) (l : list ascii) : option N :=
  match l with
  | [] => None
  | x :: l' => if Ascii.eqb x c then Some i else index_from (N.succ i) c l'
  end.

(** The decode map: position of a character in the alphabet. *)
Definition decode_map (c : ascii) : option N :=
  index_from 0 c (list_ascii_of_string BITCOIN_ALPHABET).

(** [scrub_input]: [v.encode('ascii')], which raises on a code point
    above 127. *)
Definition scrub_input (v : list ascii) : option (list ascii) :=
  if forallb (fun c => (N_of_ascii c <? 128)%N) v then Some v else None.

(** The loop of [b58decode_int]: [decimal = decimal * base + map[char]],
    [ValueError] on a character outside the alphabet. *)
Fixpoint b58decode_loop (decimal : N) (v : list ascii) : option N :=
  match v with
  | [] => Some decimal
  | char :: v' =>
      match decode_map char with
      | Some d => b58decode_loop (decimal * 58 + d) v'
      | None => None
      end
  end.

Definition b58decode_int (v : list ascii) : option N :=
  match scrub_input (Py.rstrip v) with
  | Some v' => b58decode_loop 0 v'
  | None => None
  end.

(** [acc.to_bytes((acc.bit_length() + 7) // 8, 'big')]. *)
Fixpoint le_bytes (fuel : nat) (n : N) : list N :=
  match fuel with
  | O => []
  | S fuel' =>
      if (n =? 0)%N then [] else (n mod 256)%N :: le_bytes fuel' (n / 256)%N
  end.

Definition to_bytes (acc : N) : list N :=
  rev (le_bytes (N.to_nat (N.size acc)) acc).

(** [b58decode]: [None] stands for the exception it raises. *)
Definition b58decode (s : string) : option (list N) :=
  match scrub_input (Py.rstrip (list_ascii_of_string s)) with
  | None => None
  | Some v =>
      let origlen := List.length v in
      let v' := Py.lstrip "1"%char v in
      let newlen := List.length v' in
      match b58decode_int v' with
      | Some acc => Some (repeat 0%N (origlen - newlen) ++ to_bytes acc)%list
      | None => None
      end
  end.

(** A string that decodes to a 32-byte public key. *)
Definition decodes_to_pubkey (s : string) : bool :=
  match b58decode s with
  | Some bs => (List.length bs =? 32)%nat
  | None => false
  end.

End Base58.

(** ** [services/trading_service.py] *)

Module TradingService.

(** Modelled from the spec: the generated module [proto/trading_pb2] is not
    among the sources.  Its order lifecycle (pending, executed, failed,
    cancelled) and order sides (buy, sell) are the enums below, its messages
    the records with the fields the service reads and writes.  The source
    tests a status against the literal [0] under the comment "Not PENDING"
    and passes the literal [1] for "EXECUTED status": [PENDING] is the
    enum's zero and [EXECUTED] its one. *)
Inductive OrderStatus := PENDING | EXECUTED | FAILED | CANCELLED.
Inductive OrderType := BUY | SELL.

Definition OrderStatus_eqb (a b : OrderStatus) : bool :=
  match a, b with
  | PENDING, PENDING | EXECUTED, EXECUTED
  | FAILED, FAILED | CANCELLED, CANCELLED => true
  | _, _ => false
  end.

Record Order := mkOrder {
  order_id : string;
  token_mint : string;
  amount : Py.float;
  order_type : OrderType;
  slippage : Py.float;
  priority_fee : Z;
  compute_unit_limit : Z;
  cluster : Z;
  wallet_address : string;
  status : OrderStatus;
  timestamp : Z;
  executed_price : Q;
  executed_amount : Q;
  signature : string
}.

Record OrderResponse := mkOrderResponse {
  success : bool;
  message : string;
  resp_order_id : string;
  resp_signature : string;
  compute_units_used : Z;
  total_cost : Q
}.

(** [OrderResponse(success=False, message=m)]: the other fields keep their
    proto defaults. *)
Definition failure (m : string) : OrderResponse :=
  mkOrderResponse false m "" "" 0 0.

(** Field assignments on a request ([request.status = ...]). *)
Definition stamp (o : Order) (id : string) (now : Z) : Order :=
  mkOrder id (token_mint o) (amount o) (order_type o) (slippage o)
          (priority_fee o) (compute_unit_limit o) (cluster o)
          (wallet_address o) PENDING now
          (executed_price o) (executed_amount o) (signature o).

Definition set_status (o : Order) (s : OrderStatus) : Order :=
  mkOrder (order_id o) (token_mint o) (amount o) (order_type o) (slippage o)
          (priority_fee o) (compute_unit_limit o) (cluster o)
          (wallet_address o) s (timestamp o)
          (executed_price o) (executed_amount o) (signature o).

Definition set_execution (o : Order) (sig : string) (price amt : Q) : Order :=
  mkOrder (order_id o) (token_mint o) (amount o) (order_type o) (slippage o)
          (priority_fee o) (compute_unit_limit o) (cluster o)
          (wallet_address o) EXECUTED (timestamp o) price amt sig.

(** *** Address checks *)

Definition _validate_token_mint (token_mint : string) : bool :=
  if negb (String.length token_mint =? 44)%nat then false
  else match Base58.b58decode token_mint with
       | Some _ => true
       | None => false          (* except Exception *)
       end.

Definition _validate_wallet_address (wallet_address : string) : bool :=
  if negb (String.length wallet_address =? 44)%nat then false
  else match Base58.b58decode wallet_address with
       | Some _ => true
       | None => false          (* except Exception *)
       end.

(** *** Persistence: the [orders] table and the Redis mirror

    Modelled from the spec: [utils/database.py] and [utils/redis_client.py]
    are not among the sources.  The persistence capability (insert, update
    and fetch of order rows keyed by order id) is the list of the rows of
    the table, the cache capability ([get], [set] with expiry) a map from
    key to value; both always answer.

    [journal] is ghost state: one entry per status written by an [INSERT]
    or an [UPDATE], with the status the row had before. *)
Inductive StatusEvent :=
| Inserted (id : string) (new : OrderStatus)
| Updated (id : string) (old new : OrderStatus).

Record Store := mkStore {
  orders : list Order;
  redis : gmap string Order;
  journal : list StatusEvent
}.

Definition empty_store : Store := mkStore [] ∅ [].

Definition order_key (order_id : string) : string := "order:" ++ order_id.

Definition _store_order (order : Order) (st : Store) : Store :=
  mkStore (orders st ++ [order])%list
          (<[order_key (order_id order) := order]> (redis st))
          (journal st ++ [Inserted (order_id order) (status order)])%list.

(** [UPDATE orders SET status, executed_price, executed_amount, signature
    WHERE order_id = $5]. *)
Definition update_row (order row : Order) : Order :=
  if String.eqb (order_id row) (order_id order)
  then mkOrder (order_id row) (token_mint row) (amount row) (order_type row)
               (slippage row) (priority_fee row) (compute_unit_limit row)
               (cluster row) (wallet_address row) (status order)
               (timestamp row) (executed_price order)
               (executed_amount order) (signature order)
  else row.

Definition update_events (order : Order) (rows : list Order)
  : list StatusEvent :=
  flat_map (fun row =>
              if String.eqb (order_id row) (order_id order)
              then [Updated (order_id row) (status row) (status order)]
              else []) rows.

Definition _update_order (order : Order) (st : Store) : Store :=
  mkStore (map (update_row order) (orders st))
          (<[order_key (order_id order) := order]> (redis st))
          (journal st ++ update_events order (orders st))%list.

(** [fetch_one("SELECT * FROM orders WHERE order_id = $1")]. *)
Definition fetch_order (id : string) (rows : list Order) : option Order :=
  List.find (fun row => String.eqb (order_id row) id) rows.

(** Redis first, then the table, whose row is then cached. *)
Definition _get_order (id : string) (st : Store) : option Order * Store :=
  match redis st !! order_key id with
  | Some cached => (Some cached, st)
  | None =>
      match fetch_order id (orders st) with
      | Some row =>
          (Some row,
           mkStore (orders st) (<[order_key id := row]> (redis st))
                   (journal st))
      | None => (None, st)
      end
  end.

(** [GetOrder]: the order, or [None] where the source aborts with
    NOT_FOUND. *)
Definition GetOrder (id : string) (st : Store) : option Order * Store :=
  _get_order id st.

(** A cache entry reaching its [expire=3600]. *)
Definition expire (id : string) (st : Store) : Store :=
  mkStore (orders st) (delete (order_key id) (redis st)) (journal st).

(** *** Validation and execution *)

Record Validation := mkValidation { valid : bool; v_message : string }.

Definition _validate_order (order : Order) : Validation :=
  if negb (_validate_token_mint (token_mint order))
  then mkValidation false "Invalid token mint address"
  else if Py.float_le (amount order) (Py.num 0)
  then mkValidation false "Amount must be positive"
  else if Py.float_le (slippage order) (Py.num 0)
          || Py.float_gt (slippage order) (Py.num 0.5)
  then mkValidation false "Slippage must be between 0 and 50%"
  else if negb (_validate_wallet_address (wallet_address order))
  then mkValidation false "Invalid wallet address"
  else mkValidation true "Order is valid".

(** [utils/risk_manager.py] is not among the sources: [check_order_risk]
    is a parameter of the pipeline, with the two keys the pipeline reads. *)
Record RiskCheck := mkRiskCheck { allowed : bool; reason : string }.

(** What the chain client answers to the calls of [_execute_order]
    ([get_priority_fee], [build_transaction], [send_transaction]): the
    success dict or the failure dict of [send_transaction], or an exception
    raised on the way. *)
Inductive TxResult :=
| TxSuccess (sig : string) (price amt : Q) (units : Z) (cost : Q)
| TxFailure (error : string)
| TxRaised (error : string).

Inductive Execution :=
| ExecSuccess (sig : string) (price amt : Q) (units : Z) (cost : Q)
| ExecFailure (error : string).

Definition _execute_order (send_transaction : Order -> TxResult)
           (order : Order) : Execution :=
  match send_transaction order with
  | TxSuccess sig price amt units cost =>
      ExecSuccess sig price amt units cost
  | TxFailure error => ExecFailure error
  | TxRaised error => ExecFailure error      (* except Exception *)
  end.

Record Collaborators := mkCollaborators {
  check_order_risk : Order -> RiskCheck;
  send_transaction : Order -> TxResult
}.

(** *** PlaceOrder

    [uuid] is the value of [uuid.uuid4()], [now] the value of
    [int(datetime.now().timestamp())]. *)
Definition PlaceOrder (env : Collaborators) (request : Order)
           (uuid : string) (now : Z) (st : Store) : OrderResponse * Store :=
  let request := stamp request uuid now in
  let validation_result := _validate_order request in
  if negb (valid validation_result)
  then (failure (v_message validation_result), st)
  else
    let risk_check := check_order_risk env request in
    if negb (allowed risk_check)
    then (failure ("Risk limit exceeded: " ++ reason risk_check), st)
    else
      let st := _store_order request st in
      match _execute_order (send_transaction env) request with
      | ExecSuccess sig price amt units cost =>
          let request := set_execution request sig price amt in
          (mkOrderResponse true "Order executed successfully" uuid sig
                           units cost,
           _update_order request st)
      | ExecFailure error =>
          let request := set_status request FAILED in
          (failure ("Order execution failed: " ++ error),
           _update_order request st)
      end.

(** *** CancelOrder *)

Inductive Cancellation := CancelSuccess | CancelFailure (error : string).

(** The source returns [{"success": True}] unconditionally. *)
Definition _cancel_order_on_solana (order : Order) : Cancellation :=
  CancelSuccess.

Definition CancelOrder (id : string) (st : Store) : OrderResponse * Store :=
  match _get_order id st with
  | (None, st) => (failure "Order not found", st)
  | (Some order, st) =>
      if negb (OrderStatus_eqb (status order) PENDING)
      then (failure "Order cannot be cancelled", st)
      else
        match _cancel_order_on_solana order with
        | CancelSuccess =>
            let order := set_status order CANCELLED in
            (mkOrderResponse true "Order cancelled successfully" "" "" 0 0,
             _update_order order st)
        | CancelFailure error =>
            (failure ("Failed to cancel order: " ++ error), st)
        end
  end.

(** *** GetOrders

    [_get_orders] assembles a parameterised SQL text and hands it to
    [db_manager.fetch_all].  The text is kept as the list of its clauses,
    each with the number [i] of its placeholder [$i]. *)
Inductive Param :=
| PText (s : string)
| PInt (n : Z)
| PStatus (s : OrderStatus).

Inductive Clause :=
| SELECT_WHERE_wallet_address (i : nat)
| AND_status (i : nat)
| AND_timestamp_ge (i : nat)
| AND_timestamp_le (i : nat)
| ORDER_BY_timestamp_DESC
| LIMIT (i : nat)
| OFFSET (i : nat).

(** The value bound to [$i]. *)
Definition placeholder (params : list Param) (i : nat) : option Param :=
  nth_error params (i - 1).

(** A condition of the [WHERE] part on one row; a placeholder bound to a
    value of the wrong type selects nothing. *)
Definition clause_holds (params : list Param) (row : Order) (c : Clause)
  : bool :=
  match c with
  | SELECT_WHERE_wallet_address i =>
      match placeholder params i with
      | Some (PText w) => String.eqb (wallet_address row) w
      | _ => false
      end
  | AND_status i =>
      match placeholder params i with
      | Some (PStatus s) => OrderStatus_eqb (status row) s
      | _ => false
      end
  | AND_timestamp_ge i =>
      match placeholder params i with
      | Some (PInt t) => (t <=? timestamp row)%Z
      | _ => false
      end
  | AND_timestamp_le i =>
      match placeholder params i with
      | Some (PInt t) => (timestamp row <=? t)%Z
      | _ => false
      end
  | ORDER_BY_timestamp_DESC | LIMIT _ | OFFSET _ => true
  end.

(** [ORDER BY timestamp DESC].  SQL fixes the order of two rows only when
    their timestamps differ; among rows of equal timestamp the model keeps
    one order of its own (the row inserted later first).  The statements
    about the order of an answer are made for every ordering that is
    newest first. *)
Fixpoint insert_desc (o : Order) (l : list Order) : list Order :=
  match l with
  | [] => [o]
  | x :: l' =>
      if (timestamp x <? timestamp o)%Z then o :: l
      else x :: insert_desc o l'
  end.

Definition order_by_timestamp_desc (rows : list Order) : list Order :=
  fold_right insert_desc [] rows.

Definition is_order_by (c : Clause) : bool :=
  match c with ORDER_BY_timestamp_DESC => true | _ => false end.

Definition apply_offset (params : list Param) (rows : list Order)
           (c : Clause) : list Order :=
  match c with
  | OFFSET i =>
      match placeholder params i with
      | Some (PInt n) => skipn (Z.to_nat n) rows
      | _ => []
      end
  | _ => rows
  end.

Definition apply_limit (params : list Param) (rows : list Order)
           (c : Clause) : list Order :=
  match c with
  | LIMIT i =>
      match placeholder params i with
      | Some (PInt n) => firstn (Z.to_nat n) rows
      | _ => []
      end
  | _ => rows
  end.

(** Modelled from the spec: [db_manager.fetch_all] ([utils/database.py])
    is not among the sources.  It is the reading of this fragment of SQL
    over the rows of the table: the rows meeting every condition, ordered,
    then [OFFSET] and [LIMIT]. *)
Definition fetch_all (query : list Clause) (params : list Param)
           (table : list Order) : list Order :=
  let rows :=
    List.filter (fun row => forallb (clause_holds params row) query) table in
  let rows :=
    if existsb is_order_by query then order_by_timestamp_desc rows
    else rows in
  let rows := fold_left (apply_offset params) query rows in
  fold_left (apply_limit params) query rows.

(** [status != 0], on the enum. *)
Definition status_nonzero (s : OrderStatus) : bool :=
  negb (OrderStatus_eqb s PENDING).

(** The query text and parameter list assembled by [_get_orders]. *)
Definition build_query (wallet_address : string) (status : OrderStatus)
           (start_time end_time limit offset : Z)
  : list Clause * list Param :=
  let query := [SELECT_WHERE_wallet_address 1] in
  let params := [PText wallet_address] in
  let '(query, params) :=
    if status_nonzero status
    then (query ++ [AND_status 2], params ++ [PStatus status])%list
    else (query, params) in
  let '(query, params) :=
    if (start_time >? 0)%Z
    then (query ++ [AND_timestamp_ge (List.length params + 1)],
          params ++ [PInt start_time])%list
    else (query, params) in
  let '(query, params) :=
    if (end_time >? 0)%Z
    then (query ++ [AND_timestamp_le (List.length params + 1)],
          params ++ [PInt end_time])%list
    else (query, params) in
  let query := (query ++ [ORDER_BY_timestamp_DESC])%list in
  let '(query, params) :=
    if (limit >? 0)%Z
    then (query ++ [LIMIT (List.length params + 1)],
          params ++ [PInt limit])%list
    else (query, params) in
  let '(query, params) :=
    if (offset >? 0)%Z
    then (query ++ [OFFSET (List.length params + 1)],
          params ++ [PInt offset])%list
    else (query, params) in
  (query, params).

Definition _get_orders (st : Store) (wallet_address : string)
           (status : OrderStatus) (start_time end_time limit offset : Z)
  : list Order :=
  let '(query, params) :=
    build_query wallet_address status start_time end_time limit offset in
  fetch_all query params (orders st).

Record OrdersRequest := mkOrdersRequest {
  req_wallet_address : string;
  req_status : OrderStatus;
  req_start_time : Z;
  req_end_time : Z;
  req_limit : Z;
  req_offset : Z
}.

Record OrdersResponse := mkOrdersResponse {
  resp_orders : list Order;
  total_count : nat
}.

Definition GetOrders (request : OrdersRequest) (st : Store)
  : OrdersResponse :=
  let orders :=
    _get_orders st (req_wallet_address request) (req_status request)
                (req_start_time request) (req_end_time request)
                (req_limit request) (req_offset request) in
  mkOrdersResponse orders (List.length orders).

(** *** Profit and loss *)

Record ProfitInfo := mkProfitInfo {
  total_profit : Q;
  total_profit_percentage : Q
}.

(** One turn of the loop over the orders, on
    [(total_profit, total_invested)]. *)
Definition profit_step (acc : Q * Q) (order : Order) : Q * Q :=
  let '(total_profit, total_invested) := acc in
  match order_type order with
  | BUY =>
      (total_profit,
       total_invested + executed_amount order * executed_price order)%Q
  | SELL =>
      ((total_profit
        + (executed_amount order * executed_price order - total_invested))%Q,
       total_invested)
  end.

Definition profit_totals (orders : list Order) : Q * Q :=
  fold_left profit_step orders (0, 0)%Q.

(** The body of the [try]: [None] when an exception leaves it. *)
Definition profit_loss_body (orders : list Order) : option ProfitInfo :=
  let '(total_profit, total_invested) := profit_totals orders in
  let total_profit_percentage :=
    if Py.gt total_invested 0
    then match Py.div total_profit total_invested with
         | Some q => Some (q * 100)%Q
         | None => None                     (* ZeroDivisionError *)
         end
    else Some 0%Q in
  match total_profit_percentage with
  | Some pct => Some (mkProfitInfo total_profit pct)
  | None => None
  end.

Definition _calculate_profit_loss (st : Store) (wallet_address : string)
  : ProfitInfo :=
  let orders := _get_orders st wallet_address EXECUTED 0 0 0 0 in
  match profit_loss_body orders with
  | Some info => info
  | None => mkProfitInfo 0 0               (* except Exception *)
  end.

End TradingService.

(** ** [services/sniper_service.py] *)

Module SniperService.

Definition _validate_wallet_address (wallet_address : string) : bool :=
  if negb (String.length wallet_address =? 44)%nat then false
  else match Base58.b58decode wallet_address with
       | Some _ => true
       | None => false          (* except Exception *)
       end.

Definition _validate_token_mint (token_mint : string) : bool :=
  if negb (String.length token_mint =? 44)%nat then false
  else match Base58.b58decode token_mint with
       | Some _ => true
       | None => false          (* except Exception *)
       end.

(** The dict returned by [get_token_info]; a key may be missing, and the
    predicate reads each one with [.get(key, default)]. *)
Record TokenInfo := mkTokenInfo {
  price : option Q;
  liquidity : option Q;
  is_verified : option bool;
  is_honeypot : option bool
}.

Definition _is_good_opportunity (token_info : TokenInfo) : bool :=
  if Py.lt (Py.get (liquidity token_info) 0%Q) 1000 then false
  else if negb (Py.get (is_verified token_info) false) then false
  else if Py.get (is_honeypot token_info) false then false
  else true.

Record SniperConfig := mkSniperConfig {
  sniper_id : string;
  wallet_address : string;
  private_key : string;
  target_tokens : list string;
  buy_amount : Q;
  max_slippage : Q;
  profit_target : Q;
  stop_loss : Q;
  auto_sell : bool;
  compute_unit_limit : Z;
  cluster : Z;
  rpc_url : string;
  start_time : Q;
  is_running : bool;
  successful_snipes : Z;
  failed_snipes : Z;
  total_profit : Q
}.

Definition set_target_tokens (c : SniperConfig) (l : list string)
  : SniperConfig :=
  mkSniperConfig (sniper_id c) (wallet_address c) (private_key c) l
                 (buy_amount c) (max_slippage c) (profit_target c)
                 (stop_loss c) (auto_sell c) (compute_unit_limit c)
                 (cluster c) (rpc_url c) (start_time c) (is_running c)
                 (successful_snipes c) (failed_snipes c) (total_profit c).

(** The request message [SniperConfig] of the proto. *)
Record SniperRequestConfig := mkSniperRequestConfig {
  rq_wallet_address : string;
  rq_private_key : string;
  rq_target_tokens : list string;
  rq_buy_amount : Q;
  rq_max_slippage : Q;
  rq_profit_target : Q;
  rq_stop_loss : Q;
  rq_auto_sell : bool;
  rq_compute_unit_limit : Z;
  rq_cluster : Z;
  rq_rpc_url : string
}.

Record SniperResponse := mkSniperResponse {
  success : bool;
  message : string;
  resp_sniper_id : string
}.

(** [active_snipers] and the rows of the [snipers] table. *)
Record State := mkState {
  active_snipers : gmap string SniperConfig;
  snipers : list SniperConfig
}.

Definition StartSniper (request : SniperRequestConfig) (uuid : string)
           (now : Q) (st : State) : SniperResponse * State :=
  if negb (_validate_wallet_address (rq_wallet_address request))
  then (mkSniperResponse false "Invalid wallet address" "", st)
  else
    let sniper_config :=
      mkSniperConfig uuid (rq_wallet_address request)
                     (rq_private_key request) (rq_target_tokens request)
                     (rq_buy_amount request) (rq_max_slippage request)
                     (rq_profit_target request) (rq_stop_loss request)
                     (rq_auto_sell request) (rq_compute_unit_limit request)
                     (rq_cluster request) (rq_rpc_url request) now true
                     0 0 0 in
    (mkSniperResponse true "Sniper started successfully" uuid,
     mkState (<[uuid := sniper_config]> (active_snipers st))
             (snipers st ++ [sniper_config])%list).

Definition StopSniper (id : string) (st : State) : SniperResponse * State :=
  match active_snipers st !! id with
  | None => (mkSniperResponse false "Sniper not found" "", st)
  | Some _ =>
      (mkSniperResponse true "Sniper stopped successfully" "",
       mkState (delete id (active_snipers st)) (snipers st))
  end.

(** [target_tokens.append(token_mint)]. *)
Definition AddTargetToken (id token_mint : string) (st : State)
  : SniperResponse * State :=
  match active_snipers st !! id with
  | None => (mkSniperResponse false "Sniper not found" "", st)
  | Some cfg =>
      if negb (_validate_token_mint token_mint)
      then (mkSniperResponse false "Invalid token mint address" "", st)
      else
        (mkSniperResponse true "Target token added successfully" "",
         mkState
           (<[id := set_target_tokens cfg
                      (target_tokens cfg ++ [token_mint])%list]>
              (active_snipers st))
           (snipers st))
  end.

(** [list.remove(x)]: the first occurrence goes. *)
Fixpoint list_remove (x : string) (l : list string) : list string :=
  match l with
  | [] => []
  | y :: l' => if String.eqb y x then l' else y :: list_remove x l'
  end.

Definition list_contains (x : string) (l : list string) : bool :=
  existsb (String.eqb x) l.

Definition RemoveTargetToken (id token_mint : string) (st : State)
  : SniperResponse * State :=
  match active_snipers st !! id with
  | None => (mkSniperResponse false "Sniper not found" "", st)
  | Some cfg =>
      let st :=
        if list_contains token_mint (target_tokens cfg)
        then mkState
               (<[id := set_target_tokens cfg
                          (list_remove token_mint (target_tokens cfg))]>
                  (active_snipers st))
               (snipers st)
        else st in
      (mkSniperResponse true "Target token removed successfully" "", st)
  end.

(** The three requests that create or edit a target list. *)
Inductive Request :=
| ReqStart (request : SniperRequestConfig) (uuid : string) (now : Q)
| ReqAdd (id token_mint : string)
| ReqRemove (id token_mint : string).

Definition handle (r : Request) (st : State) : State :=
  match r with
  | ReqStart request uuid now => snd (StartSniper request uuid now st)
  | ReqAdd id token_mint => snd (AddTargetToken id token_mint st)
  | ReqRemove id token_mint => snd (RemoveTargetToken id token_mint st)
  end.

Definition run (rs : list Request) (st : State) : State :=
  fold_left (fun st r => handle r st) rs st.

Definition empty_state : State := mkState ∅ [].

End SniperService.

(** ** [services/copy_trade_service.py] *)

Module CopyTradeService.

Definition _validate_wallet_address (wallet_address : string) : bool :=
  if negb (String.length wallet_address =? 44)%nat then false
  else match Base58.b58decode wallet_address with
       | Some _ => true
       | None => false          (* except Exception *)
       end.

Record CopyTradeConfig := mkCopyTradeConfig {
  copy_trade_id : string;
  source_wallet : string;
  target_wallet : string;
  private_key : string;
  allocation_percentage : Q;
  max_position_size : Q;
  min_trade_amount : Q;
  max_trades_per_hour : Z;
  cluster : Z;
  rpc_url : string;
  start_time : Q;
  is_running : bool;
  copied_trades : Z;
  total_profit : Q;
  trades_this_hour : Z;
  last_trade_time : Q
}.

Definition set_trades_this_hour (c : CopyTradeConfig) (n : Z)
  : CopyTradeConfig :=
  mkCopyTradeConfig (copy_trade_id c) (source_wallet c) (target_wallet c)
    (private_key c) (allocation_percentage c) (max_position_size c)
    (min_trade_amount c) (max_trades_per_hour c) (cluster c) (rpc_url c)
    (start_time c) (is_running c) (copied_trades c) (total_profit c)
    n (last_trade_time c).

(** The three updates after a successful copy. *)
Definition advance (c : CopyTradeConfig) (now : Q) : CopyTradeConfig :=
  mkCopyTradeConfig (copy_trade_id c) (source_wallet c) (target_wallet c)
    (private_key c) (allocation_percentage c) (max_position_size c)
    (min_trade_amount c) (max_trades_per_hour c) (cluster c) (rpc_url c)
    (start_time c) (is_running c) (copied_trades c + 1) (total_profit c)
    (trades_this_hour c + 1) now.

(** A trade of the source wallet: a dict read with [.get(key, default)]. *)
Record Trade := mkTrade {
  t_timestamp : option Q;
  t_amount : option Q;
  t_token_mint : option string;
  t_order_type : option Z;
  t_signature : option string
}.

Record CopyTradeRecord := mkCopyTradeRecord {
  r_copy_trade_id : string;
  r_source_wallet : string;
  r_target_wallet : string;
  r_token_mint : string;
  r_amount : Q;
  r_order_type : Z;
  r_signature : string;
  r_timestamp : Q;
  r_success : bool
}.

(** The arguments of one call of [solana_manager.execute_swap]. *)
Record SwapCall := mkSwapCall {
  sw_token_mint : string;
  sw_amount : Q;
  sw_slippage : Q;
  sw_wallet_address : string;
  sw_private_key : string;
  sw_is_sell : bool
}.

Inductive SwapResult :=
| SwapSuccess (sig : string)
| SwapFailure (error : string)
| SwapRaised.

(** [active_copy_traders], the rows of [copy_trade_records], and (ghost)
    the calls made to the chain client, oldest first. *)
Record State := mkState {
  active_copy_traders : gmap string CopyTradeConfig;
  copy_trade_records : list CopyTradeRecord;
  swaps : list SwapCall
}.

Definition set_active (st : State) (m : gmap string CopyTradeConfig)
  : State :=
  mkState m (copy_trade_records st) (swaps st).

(** [current_time] is the value of [datetime.now().timestamp()]. *)
Definition _should_copy_trade (id : string) (trade : Trade)
           (current_time : Q) (st : State) : bool * State :=
  match active_copy_traders st !! id with
  | None => (false, st)                       (* KeyError, except *)
  | Some copy_trade_config =>
      let trade_time := Py.get (t_timestamp trade) 0%Q in
      let last_trade_time := last_trade_time copy_trade_config in
      if Py.le trade_time last_trade_time then (false, st)
      else
        let hourly :=
          if Py.lt (current_time - last_trade_time) 3600
          then
            if (trades_this_hour copy_trade_config
                >=? max_trades_per_hour copy_trade_config)%Z
            then None
            else Some st
          else
            Some (set_active st
                    (<[id := set_trades_this_hour copy_trade_config 0]>
                       (active_copy_traders st))) in
        match hourly with
        | None => (false, st)
        | Some st' =>
            let trade_amount := Py.get (t_amount trade) 0%Q in
            if Py.lt trade_amount (min_trade_amount copy_trade_config)
            then (false, st')
            else (true, st')
        end
  end.

Definition copy_amount (copy_trade_config : CopyTradeConfig) (trade : Trade)
  : Q :=
  let original_amount := Py.get (t_amount trade) 0%Q in
  let copy_amount :=
    (original_amount * allocation_percentage copy_trade_config)%Q in
  if Py.gt copy_amount (max_position_size copy_trade_config)
  then max_position_size copy_trade_config
  else copy_amount.

Definition swap_call (copy_trade_config : CopyTradeConfig) (trade : Trade)
  : SwapCall :=
  mkSwapCall (Py.get (t_token_mint trade) "")
             (copy_amount copy_trade_config trade)
             0.05
             (target_wallet copy_trade_config)
             (private_key copy_trade_config)
             (Py.get (t_order_type trade) 0 =? 1)%Z.

Definition record_of (id : string) (copy_trade_config : CopyTradeConfig)
           (trade : Trade) (sig : string) (ok : bool) (now : Q)
  : CopyTradeRecord :=
  mkCopyTradeRecord id (source_wallet copy_trade_config)
                    (target_wallet copy_trade_config)
                    (Py.get (t_token_mint trade) "")
                    (copy_amount copy_trade_config trade)
                    (Py.get (t_order_type trade) 0%Z) sig now ok.

(** [copy_trade_config] is the dict held by the registry under [id]: the
    updates of the success branch are made on the registry entry.
    [t_record] and [t_update] are the two clock readings of that branch. *)
Definition _copy_trade (execute_swap : SwapCall -> SwapResult)
           (id : string) (copy_trade_config : CopyTradeConfig)
           (trade : Trade) (t_record t_update : Q) (st : State) : State :=
  let call := swap_call copy_trade_config trade in
  let st := mkState (active_copy_traders st) (copy_trade_records st)
                    (swaps st ++ [call])%list in
  match execute_swap call with
  | SwapSuccess sig =>
      mkState
        (alter (fun c => advance c t_update) id (active_copy_traders st))
        (copy_trade_records st
         ++ [record_of id copy_trade_config trade sig true t_record])%list
        (swaps st)
  | SwapFailure _ =>
      mkState
        (active_copy_traders st)
        (copy_trade_records st
         ++ [record_of id copy_trade_config trade "" false t_record])%list
        (swaps st)
  | SwapRaised => st                            (* except Exception *)
  end.

Record Clock := mkClock { t_check : Q; t_record : Q; t_update : Q }.

(** One turn of the loop of [_check_source_wallet_trades]. *)
Definition check_trade (execute_swap : SwapCall -> SwapResult)
           (id : string) (st : State) (arrival : Trade * Clock) : State :=
  let '(trade, clock) := arrival in
  let '(ok, st) := _should_copy_trade id trade (t_check clock) st in
  if ok then
    match active_copy_traders st !! id with
    | Some copy_trade_config =>
        _copy_trade execute_swap id copy_trade_config trade
                    (t_record clock) (t_update clock) st
    | None => st
    end
  else st.

Definition _check_source_wallet_trades
           (execute_swap : SwapCall -> SwapResult) (id : string)
           (recent_trades : list (Trade * Clock)) (st : State) : State :=
  fold_left (check_trade execute_swap id) recent_trades st.

End CopyTradeService.

(** ** Sample data *)

Module Samples.

(** A 44-character mint (the USDC mint) and a 44-character wallet. *)
Definition usdc_mint : string :=
  "EPjFWdd5AufqSSqeM2qN1xzybapC8G4wEGGkZwyTDt1v".
Definition a_wallet : string :=
  "9WzDXwBbmkg8ZTbNMqUxvQRAyrZzDsGYdLVL9zYtAWWM".

Definition sound_token : SniperService.TokenInfo :=
  SniperService.mkTokenInfo (Some 0.002%Q) (Some 5000%Q) (Some true) None.

(** A copy-trade session whose rolling counter has reached its cap of 3,
    last trade at time 1000; and the same session with room left. *)
Definition capped_session : CopyTradeService.CopyTradeConfig :=
  CopyTradeService.mkCopyTradeConfig
    "s1" a_wallet a_wallet "key" 0.5 2 0.01 3 0 "rpc" 0 true 3 0 3 1000.
Definition open_session : CopyTradeService.CopyTradeConfig :=
  CopyTradeService.mkCopyTradeConfig
    "s1" a_wallet a_wallet "key" 0.5 2 0.01 3 0 "rpc" 0 true 1 0 1 1000.

Definition capped_state : CopyTradeService.State :=
  CopyTradeService.mkState (<["s1" := capped_session]> ∅) [] [].
Definition open_state : CopyTradeService.State :=
  CopyTradeService.mkState (<["s1" := open_session]> ∅) [] [].

(** A trade newer than the session's last one, and a replayed one. *)
Definition new_trade : CopyTradeService.Trade :=
  CopyTradeService.mkTrade (Some 2000%Q) (Some 10%Q) (Some usdc_mint)
                           (Some 0%Z) (Some "sig").
Definition old_trade : CopyTradeService.Trade :=
  CopyTradeService.mkTrade (Some 1000%Q) (Some 10%Q) (Some usdc_mint)
                           (Some 0%Z) (Some "sig").

Definition a_clock : CopyTradeService.Clock :=
  CopyTradeService.mkClock 2100 2101 2102.

Definition always_succeeds (call : CopyTradeService.SwapCall)
  : CopyTradeService.SwapResult :=
  CopyTradeService.SwapSuccess "copied".

(** Collaborators that allow every order and settle every transaction. *)
Definition permissive : TradingService.Collaborators :=
  TradingService.mkCollaborators
    (fun _ => TradingService.mkRiskCheck true "")
    (fun _ => TradingService.TxSuccess "sig-1" 2 1 200000 0.000005).

(** A buy of 1.0 with slippage 0.05, and the same with slippage 0.6. *)
Definition a_request : TradingService.Order :=
  TradingService.mkOrder "" usdc_mint (Py.num 1) TradingService.BUY
                         (Py.num 0.05) 5000
                         200000 0 a_wallet TradingService.PENDING 0 0 0 "".
Definition wide_slippage_request : TradingService.Order :=
  TradingService.mkOrder "" usdc_mint (Py.num 1) TradingService.BUY
                         (Py.num 0.6) 5000
                         200000 0 a_wallet TradingService.PENDING 0 0 0 "".

(** The same buy with NaN for its amount and for its slippage. *)
Definition nan_request : TradingService.Order :=
  TradingService.mkOrder "" usdc_mint Py.nan TradingService.BUY Py.nan 5000
                         200000 0 a_wallet TradingService.PENDING 0 0 0 "".

(** A table holding one executed sale and nothing bought. *)
Definition a_sale : TradingService.Order :=
  TradingService.mkOrder "o-1" usdc_mint (Py.num 1) TradingService.SELL
                         (Py.num 0.05) 5000
                         200000 0 a_wallet TradingService.EXECUTED 100
                         3 2 "sig-1".
Definition sold_only_store : TradingService.Store :=
  TradingService.mkStore [a_sale] ∅ [].

(** A table with a pending order and a later executed one. *)
Definition a_pending_order : TradingService.Order :=
  TradingService.mkOrder "o-2" usdc_mint (Py.num 1) TradingService.BUY
                         (Py.num 0.05) 5000
                         200000 0 a_wallet TradingService.PENDING 50
                         0 0 "".
Definition mixed_store : TradingService.Store :=
  TradingService.mkStore [a_pending_order; a_sale] ∅ [].

(** Forty-four times the digit one; and the wrapped-SOL mint that
    [utils/solana_manager.py] uses, 43 characters long. *)
Definition forty_four_ones : string :=
  "11111111111111111111111111111111111111111111".
Definition sol_mint : string :=
  "So11111111111111111111111111111111111111112".

(** A start request without targets, then the same mint added twice. *)
Definition a_sniper_request : SniperService.SniperRequestConfig :=
  SniperService.mkSniperRequestConfig a_wallet "key" [] 0.1 0.05 0.5 0.2
                                      true 200000 0 "rpc".
Definition add_twice : list SniperService.Request :=
  [SniperService.ReqStart a_sniper_request "sn-1" 0;
   SniperService.ReqAdd "sn-1" usdc_mint;
   SniperService.ReqAdd "sn-1" usdc_mint].
Definition add_once : list SniperService.Request :=
  [SniperService.ReqStart a_sniper_request "sn-1" 0;
   SniperService.ReqAdd "sn-1" usdc_mint].

(** A second 44-character mint (the BONK mint), and the request that adds
    it to the session of [add_once]. *)
Definition bonk_mint : string :=
  "DezXAZ8z7PnrnRJjz3wXBoRgixCa6xjnB7YaB1pPB263".
Definition add_another : SniperService.Request :=
  SniperService.ReqAdd "sn-1" bonk_mint.

(** The store after one order has been placed and executed. *)
Definition after_one_order : TradingService.Store :=
  snd (TradingService.PlaceOrder permissive a_request "id-1" 1700000000
                                 TradingService.empty_store).

End Samples.

(** ** Vocabulary of the statements *)

Module Views.
Import TradingService.


(** A positive amount, and a slippage inside (0, 0.5]; NaN is neither. *)
Definition positive (x : Py.float) : Prop :=
  match x with
  | Py.num q => (0 < q)%Q
  | Py.inf => True
  | Py.neg_inf | Py.nan => False
  end.
Definition in_slippage_range (x : Py.float) : Prop :=
  match x with
  | Py.num q => (0 < q)%Q /\ (q <= 0.5)%Q
  | Py.inf | Py.neg_inf | Py.nan => False
  end.

(** A character of the base-58 alphabet. *)
Definition in_alphabet (c : ascii) : bool :=
  match Base58.decode_map c with Some _ => true | None => false end.

(** What the address checks of the three services accept: exactly 44
    characters which, once trailing whitespace is removed, all belong to
    the base-58 alphabet. *)
Definition well_formed_44 (s : string) : Prop :=
  String.length s = 44%nat /\
  forallb in_alphabet (Py.rstrip (list_ascii_of_string s)) = true.

(** Every live sniper session has a duplicate-free target list. *)
Definition targets_unique (st : SniperService.State) : Prop :=
  forall id cfg,
    SniperService.active_snipers st !! id = Some cfg ->
    List.NoDup (SniperService.target_tokens cfg).

(** A request that brings no duplicate by itself: a start request with a
    duplicate-free list, an addition of a mint the session does not hold
    yet, any removal. *)
Definition brings_no_duplicate (st : SniperService.State)
           (r : SniperService.Request) : Prop :=
  match r with
  | SniperService.ReqStart request _ _ =>
      List.NoDup (SniperService.rq_target_tokens request)
  | SniperService.ReqAdd id token_mint =>
      forall cfg,
        SniperService.active_snipers st !! id = Some cfg ->
        ~ In token_mint (SniperService.target_tokens cfg)
  | SniperService.ReqRemove _ _ => True
  end.

End Views.

(** ** Serial runs of the order pipeline *)

Module Lifecycle.
Import TradingService.

(** The status of the row stored under an order id. *)
Definition status_of (id : string) (st : Store) : option OrderStatus :=
  option_map status (fetch_order id (orders st)).

Definition terminal (s : OrderStatus) : Prop :=
  s = EXECUTED \/ s = FAILED \/ s = CANCELLED.

(** A status stays, or leaves [PENDING] for a terminal one. *)
Definition moves (old new : OrderStatus) : Prop :=
  new = old \/ (old = PENDING /\ terminal new).

Definition lawful (e : StatusEvent) : Prop :=
  match e with
  | Inserted _ new => new = PENDING
  | Updated _ old new => old = PENDING /\ terminal new
  end.

(** [uuid.uuid4()] returns an id that no stored order carries. *)
Definition fresh (uuid : string) (st : Store) : Prop :=
  forall row, In row (orders st) -> order_id row <> uuid.

(** The requests that read or write orders, and the expiry of a cache
    entry.  In a serial run each request is served, from the first to the
    last statement of its handler, before the next one arrives. *)
Inductive Request :=
| ReqPlace (request : Order) (uuid : string) (now : Z)
| ReqCancel (id : string)
| ReqGet (id : string)
| Expiry (id : string).

Definition handle (env : Collaborators) (r : Request) (st : Store) : Store :=
  match r with
  | ReqPlace request uuid now => snd (PlaceOrder env request uuid now st)
  | ReqCancel id => snd (CancelOrder id st)
  | ReqGet id => snd (GetOrder id st)
  | Expiry id => expire id st
  end.

Definition permitted (r : Request) (st : Store) : Prop :=
  match r with
  | ReqPlace _ uuid _ => fresh uuid st
  | _ => True
  end.

(** The service starts on the table as earlier runs left it (ids unique,
    any statuses), with an empty cache, and then handles requests one
    after the other.  [Async.reachable] has the runs in which the handlers
    interleave. *)
Inductive reachable (env : Collaborators) : Store -> Prop :=
| reach_start rows :
    List.NoDup (map order_id rows) -> reachable env (mkStore rows ∅ [])
| reach_step st r :
    reachable env st -> permitted r st -> reachable env (handle env r st).

(** Order ids are unique, every cache entry mirrors the status of its
    row, and every status written so far was a lawful one. *)
Definition coherent (st : Store) : Prop :=
  List.NoDup (map order_id (orders st)) /\
  (forall k o,
     redis st !! k = Some o ->
     k = order_key (order_id o) /\
     status_of (order_id o) st = Some (status o)) /\
  Forall lawful (journal st).

End Lifecycle.

(** ** The order pipeline as coroutines

    The handlers of [services/trading_service.py] are coroutines: each
    [await] of the database or of the cache is a point where the event
    loop may run another handler.  A handler is here the tree of the
    operations it awaits on the shared store, and a configuration of the
    service is the store with the handlers in flight.  The other awaits
    (risk check, chain client) do not touch the store: a handler stays at
    its next operation for as long as the schedule lets it. *)

Module Async.
Import TradingService.

(** A coroutine that returns an [A]: what it returns, or the operation it
    awaits and how it goes on with the answer. *)
Inductive Task (A : Type) : Type :=
| Return (a : A)
| INSERT (order : Order) (k : Task A)
| UPDATE (order : Order) (k : Task A)
| SELECT (order_id : string) (k : option Order -> Task A)
| SET (key : string) (order : Order) (k : Task A)
| GET (key : string) (k : option Order -> Task A).

Arguments Return {A} a.
Arguments INSERT {A} order k.
Arguments UPDATE {A} order k.
Arguments SELECT {A} order_id k.
Arguments SET {A} key order k.
Arguments GET {A} key k.

(** [x = await t; f x]. *)
Fixpoint bind {A B} (t : Task A) (f : A -> Task B) : Task B :=
  match t with
  | Return a => f a
  | INSERT order k => INSERT order (bind k f)
  | UPDATE order k => UPDATE order (bind k f)
  | SELECT order_id k => SELECT order_id (fun result => bind (k result) f)
  | SET key order k => SET key order (bind k f)
  | GET key k => GET key (fun cached => bind (k cached) f)
  end.

Notation "'let*' x ':=' t 'in' u" := (bind t (fun x => u))
  (at level 10, x name, t at level 100, u at level 200).

(** [await self.db_manager.execute("INSERT ...")] and the like, each one
    operation. *)
Definition db_insert (order : Order) : Task unit := INSERT order (Return tt).
Definition db_update (order : Order) : Task unit := UPDATE order (Return tt).
Definition db_fetch_one (order_id : string) : Task (option Order) :=
  SELECT order_id Return.
Definition redis_set (key : string) (order : Order) : Task unit :=
  SET key order (Return tt).
Definition redis_get (key : string) : Task (option Order) := GET key Return.

Definition _store_order (order : Order) : Task unit :=
  let* _ := db_insert order in
  redis_set (order_key (order_id order)) order.

Definition _update_order (order : Order) : Task unit :=
  let* _ := db_update order in
  redis_set (order_key (order_id order)) order.

Definition _get_order (order_id : string) : Task (option Order) :=
  let* cached_order := redis_get (order_key order_id) in
  match cached_order with
  | Some order => Return (Some order)
  | None =>
      let* result := db_fetch_one order_id in
      match result with
      | Some order =>
          let* _ := redis_set (order_key order_id) order in
          Return (Some order)
      | None => Return None
      end
  end.

Definition PlaceOrder (env : Collaborators) (request : Order)
           (uuid : string) (now : Z) : Task OrderResponse :=
  let request := stamp request uuid now in
  let validation_result := _validate_order request in
  if negb (valid validation_result)
  then Return (failure (v_message validation_result))
  else
    let risk_check := check_order_risk env request in
    if negb (allowed risk_check)
    then Return (failure ("Risk limit exceeded: " ++ reason risk_check))
    else
      let* _ := _store_order request in
      match _execute_order (send_transaction env) request with
      | ExecSuccess sig price amt units cost =>
          let request := set_execution request sig price amt in
          let* _ := _update_order request in
          Return (mkOrderResponse true "Order executed successfully" uuid
                                  sig units cost)
      | ExecFailure error =>
          let request := set_status request FAILED in
          let* _ := _update_order request in
          Return (failure ("Order execution failed: " ++ error))
      end.

Definition CancelOrder (id : string) : Task OrderResponse :=
  let* order := _get_order id in
  match order with
  | None => Return (failure "Order not found")
  | Some order =>
      if negb (OrderStatus_eqb (status order) PENDING)
      then Return (failure "Order cannot be cancelled")
      else
        match _cancel_order_on_solana order with
        | CancelSuccess =>
            let order := set_status order CANCELLED in
            let* _ := _update_order order in
            Return (mkOrderResponse true "Order cancelled successfully"
                                    "" "" 0 0)
        | CancelFailure error =>
            Return (failure ("Failed to cancel order: " ++ error))
        end
  end.

Definition GetOrder (id : string) : Task (option Order) := _get_order id.

(** *** Operations on the store *)

(** The awaited operation is performed: the store after it and the rest of
    the coroutine.  [None] for a coroutine that has returned. *)
Definition perform {A} (t : Task A) (st : Store) : option (Task A * Store) :=
  match t with
  | Return _ => None
  | INSERT order k =>
      Some (k, mkStore (orders st ++ [order])%list (redis st)
                       (journal st
                        ++ [Inserted (order_id order) (status order)])%list)
  | UPDATE order k =>
      Some (k, mkStore (map (update_row order) (orders st)) (redis st)
                       (journal st ++ update_events order (orders st))%list)
  | SELECT order_id k => Some (k (fetch_order order_id (orders st)), st)
  | SET key order k =>
      Some (k, mkStore (orders st) (<[key := order]> (redis st))
                       (journal st))
  | GET key k => Some (k (redis st !! key), st)
  end.

(** A coroutine served alone, from its first operation to its return. *)
Fixpoint alone {A} (t : Task A) (st : Store) : A * Store :=
  match t with
  | Return a => (a, st)
  | INSERT order k =>
      alone k (mkStore (orders st ++ [order])%list (redis st)
                       (journal st
                        ++ [Inserted (order_id order) (status order)])%list)
  | UPDATE order k =>
      alone k (mkStore (map (update_row order) (orders st)) (redis st)
                       (journal st ++ update_events order (orders st))%list)
  | SELECT order_id k => alone (k (fetch_order order_id (orders st))) st
  | SET key order k =>
      alone k (mkStore (orders st) (<[key := order]> (redis st))
                       (journal st))
  | GET key k => alone (k (redis st !! key)) st
  end.

(** *** Configurations and schedules *)

(** A handler in flight, of whatever result. *)
Definition Job : Type := { A : Type & Task A }.
Definition job {A} (t : Task A) : Job := existT A t.

Definition returned (j : Job) : Prop :=
  match projT2 j with Return _ => True | _ => False end.

(** The store and the handlers in flight, in the order of their
    arrival. *)
Record Config := mkConfig {
  store : Store;
  pool : list Job
}.

(** What a coroutine may still do to the order [id]: insert its row, or
    write a status other than cancelled over it. *)
Inductive creates {A} (id : string) : Task A -> Prop :=
| creates_here order k : order_id order = id -> creates id (INSERT order k)
| creates_INSERT order k : creates id k -> creates id (INSERT order k)
| creates_UPDATE order k : creates id k -> creates id (UPDATE order k)
| creates_SELECT i k r : creates id (k r) -> creates id (SELECT i k)
| creates_SET key order k : creates id k -> creates id (SET key order k)
| creates_GET key k r : creates id (k r) -> creates id (GET key k).

Inductive settles {A} (id : string) : Task A -> Prop :=
| settles_here order k :
    order_id order = id -> status order <> CANCELLED ->
    settles id (UPDATE order k)
| settles_INSERT order k : settles id k -> settles id (INSERT order k)
| settles_UPDATE order k : settles id k -> settles id (UPDATE order k)
| settles_SELECT i k r : settles id (k r) -> settles id (SELECT i k)
| settles_SET key order k : settles id k -> settles id (SET key order k)
| settles_GET key k r : settles id (k r) -> settles id (GET key k).

(** [uuid.uuid4()] returns an id that no stored order carries and no
    handler in flight is about to use. *)
Definition fresh (uuid : string) (c : Config) : Prop :=
  Lifecycle.fresh uuid (store c) /\
  forall j, In j (pool c) ->
            ~ creates uuid (projT2 j) /\ ~ settles uuid (projT2 j).

(** One move of the service: a request arrives and its handler is put in
    flight; the handler in flight at some position performs the operation
    it awaits; a cache entry expires. *)
Inductive step (env : Collaborators) : Config -> Config -> Prop :=
| step_place c request uuid now :
    fresh uuid c ->
    step env c
         (mkConfig (store c)
                   (pool c ++ [job (PlaceOrder env request uuid now)]))
| step_cancel c id :
    step env c (mkConfig (store c) (pool c ++ [job (CancelOrder id)]))
| step_get c id :
    step env c (mkConfig (store c) (pool c ++ [job (GetOrder id)]))
| step_perform c position A (t t' : Task A) st' :
    pool c !! position = Some (job t) ->
    perform t (store c) = Some (t', st') ->
    step env c (mkConfig st' (<[position := job t']> (pool c)))
| step_expire c id :
    step env c (mkConfig (expire id (store c)) (pool c)).

(** The service starts on the table as earlier runs left it (ids unique,
    any statuses), with an empty cache and no handler in flight. *)
Inductive reachable (env : Collaborators) : Config -> Prop :=
| reach_start rows :
    List.NoDup (map order_id rows) ->
    reachable env (mkConfig (mkStore rows ∅ []) [])
| reach_step c c' : reachable env c -> step env c c' -> reachable env c'.

(** A schedule for the handlers in flight: a cancellation or a read
    arrives, the handler at a position of the pool performs the operation
    it awaits (nothing happens if it has returned), a cache entry
    expires. *)
Inductive Move :=
| Cancel (id : string)
| Get (id : string)
| Run (position : nat)
| Expire (id : string).

Definition move (m : Move) (c : Config) : Config :=
  match m with
  | Cancel id => mkConfig (store c) (pool c ++ [job (CancelOrder id)])
  | Get id => mkConfig (store c) (pool c ++ [job (GetOrder id)])
  | Run position =>
      match pool c !! position with
      | Some (existT A t) =>
          match perform t (store c) with
          | Some (t', st') => mkConfig st' (<[position := job t']> (pool c))
          | None => c
          end
      | None => c
      end
  | Expire id => mkConfig (expire id (store c)) (pool c)
  end.

Definition play (moves : list Move) (c : Config) : Config :=
  fold_left (fun c m => move m c) moves c.

(** *** Statuses written under interleaving *)

(** A status written to the table: pending by an insert; by an update,
    cancelled over any status, executed or failed over pending or
    cancelled. *)
Definition admissible (e : StatusEvent) : Prop :=
  match e with
  | Inserted _ new => new = PENDING
  | Updated _ old new =>
      new = CANCELLED \/
      ((new = EXECUTED \/ new = FAILED) /\
       (old = PENDING \/ old = CANCELLED))
  end.

(** A coroutine that inserts no row and updates rows to cancelled only. *)
Inductive bystander {A} : Task A -> Prop :=
| bystander_Return a : bystander (Return a)
| bystander_UPDATE order k :
    status order = CANCELLED -> bystander k -> bystander (UPDATE order k)
| bystander_SELECT i k :
    (forall r, bystander (k r)) -> bystander (SELECT i k)
| bystander_SET key order k : bystander k -> bystander (SET key order k)
| bystander_GET key k : (forall r, bystander (k r)) -> bystander (GET key k).

(** A coroutine that places the order [id]: it inserts the row as pending
    unless it has done so ([inserted]), then updates it once, to executed
    or failed, and is a bystander from then on. *)
Inductive placing {A} (id : string) : bool -> Task A -> Prop :=
| placing_INSERT order k :
    order_id order = id -> status order = PENDING -> placing id true k ->
    placing id false (INSERT order k)
| placing_SET inserted key order k :
    placing id inserted k -> placing id inserted (SET key order k)
| placing_UPDATE order k :
    order_id order = id ->
    status order = EXECUTED \/ status order = FAILED ->
    bystander k -> placing id true (UPDATE order k).

(** The rows of [id] let the handler that places it go on: there is none
    before the insert, and they are pending or cancelled after it. *)
Definition awaiting (st : Store) (id : string) (inserted : bool) : Prop :=
  forall row,
    In row (orders st) -> order_id row = id ->
    inserted = true /\ (status row = PENDING \/ status row = CANCELLED).

(** The invariant of the schedules: ids are unique, the statuses written
    so far are admissible, every handler in flight is a bystander or
    places an order whose rows await it, and no two handlers place the
    same order. *)
Definition orderly (c : Config) : Prop :=
  List.NoDup (map order_id (orders (store c))) /\
  Forall admissible (journal (store c)) /\
  (forall i j,
     pool c !! i = Some j ->
     bystander (projT2 j) \/
     exists id inserted,
       placing id inserted (projT2 j) /\ awaiting (store c) id inserted) /\
  (forall i i' j j' id b b',
     pool c !! i = Some j -> pool c !! i' = Some j' ->
     placing id b (projT2 j) -> placing id b' (projT2 j') -> i = i').

(** *** Two schedules

    One order arrives, under the id "id-1", at a service that starts on an
    empty table, and a cancellation of it arrives while it is in flight:
    in the first schedule after the insert and the first write of the
    cache, in the second after the update of the row and before the second
    write of the cache. *)
Definition one_order_arrived : Config :=
  mkConfig empty_store
           [job (PlaceOrder Samples.permissive Samples.a_request "id-1"
                            1700000000)].

Definition cancelled_in_between : Config :=
  play [Run 0; Run 0; Cancel "id-1"; Run 1; Run 1; Run 1; Run 0; Run 0]
       one_order_arrived.

Definition cancelled_on_stale_cache : Config :=
  play [Run 0; Run 0; Run 0; Cancel "id-1"; Run 1; Run 1; Run 1; Run 0]
       one_order_arrived.

End Async.

(** ** Measures on the stores *)

Module Measures.
Import TradingService.

(** Every cache entry is the row of the table that carries its id, field
    for field. *)
Definition cache_mirrors (st : Store) : Prop :=
  forall k o,
    redis st !! k = Some o ->
    fetch_order (order_id o) (orders st) = Some o.

(** Newest first: no order is followed by a strictly newer one. *)
Definition newest_first (l : list Order) : Prop :=
  StronglySorted (fun a b => (timestamp b <= timestamp a)%Z) l.

(** What the sales of a list of orders brought in. *)
Definition proceeds_of_sales (l : list Order) : Q :=
  fold_right (fun o acc =>
                match order_type o with
                | SELL => (executed_amount o * executed_price o + acc)%Q
                | BUY => acc
                end) 0%Q l.

(** The rows a request for the orders of a wallet asks for: the wallet's
    rows, of status [s] unless [s] is the enum's zero, from [start_time] on
    and up to [end_time] where these are positive. *)
Definition selected (wallet : string) (s : OrderStatus)
           (start_time end_time : Z) (row : Order) : bool :=
  String.eqb (wallet_address row) wallet
  && (if status_nonzero s then OrderStatus_eqb (status row) s else true)
  && (if (start_time >? 0)%Z then (start_time <=? timestamp row)%Z
      else true)
  && (if (end_time >? 0)%Z then (timestamp row <=? end_time)%Z else true).

(** The page [limit], [offset] of a list: [offset] rows are skipped when it
    is positive, then at most [limit] rows are kept when it is positive. *)
Definition page (limit offset : Z) (l : list Order) : list Order :=
  let l := if (offset >? 0)%Z then skipn (Z.to_nat offset) l else l in
  if (limit >? 0)%Z then firstn (Z.to_nat limit) l else l.

End Measures.

(** ** More sample data *)

Module Cases.

(** A purchase of one token at price 2, executed at time 50, and the table
    in which it is followed by the sale [Samples.a_sale] at time 100. *)
Definition a_purchase : TradingService.Order :=
  TradingService.mkOrder "o-0" Samples.usdc_mint (Py.num 1)
                         TradingService.BUY (Py.num 0.05) 5000 200000 0
                         Samples.a_wallet TradingService.EXECUTED 50 2 1
                         "sig-0".
Definition bought_then_sold : TradingService.Store :=
  TradingService.mkStore [a_purchase; Samples.a_sale] ∅ [].

End Cases.

(** ** [utils/solana_manager.py] *)

Module SolanaManager.

(** A Python value as it sits in a dict or in a JSON document. *)
#[warnings="-register-all"] Inductive Value :=
| VNone
| VBool (b : bool)
| VInt (n : Z)
| VFloat (x : Q)
| VStr (s : string)
| VList (elements : list Value)
| VDict (items : list (string * Value)).

Definition Dict := gmap string Value.

(** [bool(v)]. *)
Definition truthy (v : Value) : bool :=
  match v with
  | VNone => false
  | VBool b => b
  | VInt n => negb (n =? 0)%Z
  | VFloat x => negb (Qeq_bool x 0)
  | VStr s => negb (String.eqb s "")
  | VList elements => match elements with [] => false | _ :: _ => true end
  | VDict items => match items with [] => false | _ :: _ => true end
  end.

(** The number a value compares as; [None] where a comparison with a
    float raises [TypeError]. *)
Definition number (v : Value) : option Q :=
  match v with
  | VBool b => Some (if b then 1 else 0)%Q
  | VInt n => Some (inject_Z n)
  | VFloat x => Some x
  | VNone | VStr _ | VList _ | VDict _ => None
  end.

(** [d.get(key, dflt)]. *)
Definition get (d : Dict) (key : string) (dflt : Value) : Value :=
  match d !! key with Some v => v | None => dflt end.

(** [{"success": False, "error": error}]. *)
Definition failed (error : string) : Dict :=
  list_to_map [("success", VBool false); ("error", VStr error)].

(** What the token list request brings back: the status and the decoded
    JSON list of tokens, or an exception on the way. *)
Inductive TokensResponse :=
| TokensReply (status : Z) (tokens : list Dict)
| TokensRaised (error : string).

(** [token.get("address") == token_mint]. *)
Definition has_address (token_mint : string) (token : Dict) : bool :=
  match token !! "address" with
  | Some (VStr a) => String.eqb a token_mint
  | _ => false
  end.

Definition get_token_info (response : TokensResponse) (token_mint : string)
  : Dict :=
  match response with
  | TokensReply status tokens =>
      if (status =? 200)%Z then
        match List.find (has_address token_mint) tokens with
        | Some token =>
            list_to_map
              [("success", VBool true);
               ("token_mint", VStr token_mint);
               ("name", get token "name" (VStr ""));
               ("symbol", get token "symbol" (VStr ""));
               ("decimals", get token "decimals" (VInt 0));
               ("price", get token "price" (VFloat 0));
               ("liquidity", get token "liquidity" (VFloat 0));
               ("is_verified", get token "verified" (VBool false))]
        | None => failed "Token not found"
        end
      else failed ("API request failed: " ++ pretty status)
  | TokensRaised error => failed error             (* except Exception *)
  end.

Definition get_token_price (response : TokensResponse) (token_mint : string)
  : Value :=
  let token_info := get_token_info response token_mint in
  match token_info !! "success" with
  | Some success =>
      if truthy success then
        match token_info !! "price" with
        | Some price => price
        | None => VFloat 0                          (* KeyError, except *)
        end
      else VFloat 0
  | None => VFloat 0                                (* KeyError, except *)
  end.

(** What [get_recent_prioritization_fees] brings back: the
    [prioritization_fee] of each entry of [response.value], or an
    exception. *)
Inductive FeesResponse :=
| FeesReply (fees : list Z)
| FeesRaised.

Record PriorityFees := mkPriorityFees {
  slow_priority_fee : Z;
  standard_priority_fee : Z;
  fast_priority_fee : Z;
  instant_priority_fee : Z
}.

Definition default_fees : PriorityFees :=
  mkPriorityFees 1000 5000 10000 20000.

Definition sum (l : list Z) : Z := fold_right Z.add 0%Z l.

Definition get_priority_fee (response : FeesResponse) : PriorityFees :=
  match response with
  | FeesReply [] => default_fees
  | FeesReply fees =>
      let avg_fee := (sum fees / Z.of_nat (List.length fees))%Z in
      mkPriorityFees (Z.max 1000 (avg_fee / 2)) avg_fee (avg_fee * 2)
                     (avg_fee * 4)
  | FeesRaised => default_fees                      (* except Exception *)
  end.

(** The two placeholders: each returns its dict whatever it is given. *)
Definition build_transaction (order_type : TradingService.OrderType)
           (token_mint : string) (amount slippage : Py.float)
           (priority_fee compute_unit_limit : Z) : Dict :=
  list_to_map [("success", VBool true);
               ("transaction_data", VStr "placeholder")].

Definition send_transaction (tx_data : Dict) (wallet_address : string)
           (cluster : Z) : Dict :=
  list_to_map [("success", VBool true);
               ("signature", VStr "placeholder_signature");
               ("executed_price", VFloat 0);
               ("executed_amount", VFloat 0);
               ("compute_units_used", VInt 0)].

End SolanaManager.

(** ** The services on the dicts of the chain client *)

Module OnDicts.
Import SolanaManager.

(** [_execute_order] of [services/trading_service.py], from the answer
    [tx_result] of [send_transaction] on: the keys are read in the order of
    the source, a missing key raises [KeyError], which the handler turns
    into the failure dict with the name of the key, quoted, as the
    error. *)
Definition _execute_order (tx_result : Dict) : Dict :=
  match tx_result !! "success" with
  | None => failed "'success'"
  | Some success =>
      if truthy success then
        match tx_result !! "signature" with
        | None => failed "'signature'"
        | Some signature =>
        match tx_result !! "executed_price" with
        | None => failed "'executed_price'"
        | Some executed_price =>
        match tx_result !! "executed_amount" with
        | None => failed "'executed_amount'"
        | Some executed_amount =>
        match tx_result !! "compute_units_used" with
        | None => failed "'compute_units_used'"
        | Some compute_units_used =>
        match tx_result !! "total_cost" with
        | None => failed "'total_cost'"
        | Some total_cost =>
            list_to_map
              [("success", VBool true);
               ("signature", signature);
               ("executed_price", executed_price);
               ("executed_amount", executed_amount);
               ("compute_units_used", compute_units_used);
               ("total_cost", total_cost)]
        end end end end end
      else
        match tx_result !! "error" with
        | None => failed "'error'"
        | Some error =>
            list_to_map [("success", VBool false); ("error", error)]
        end
  end.

(** The outcome that [PlaceOrder] reads off the dict [execution_result],
    for a dict whose values have the types of the fields they are assigned
    to; [None] for any other dict. *)
Definition execution_of (execution_result : Dict)
  : option TradingService.Execution :=
  match execution_result !! "success" with
  | Some success =>
      if truthy success then
        match execution_result !! "signature",
              execution_result !! "executed_price",
              execution_result !! "executed_amount",
              execution_result !! "compute_units_used",
              execution_result !! "total_cost" with
        | Some (VStr sig), Some (VFloat price), Some (VFloat amt),
          Some (VInt units), Some (VFloat cost) =>
            Some (TradingService.ExecSuccess sig price amt units cost)
        | _, _, _, _, _ => None
        end
      else
        match execution_result !! "error" with
        | Some (VStr error) => Some (TradingService.ExecFailure error)
        | _ => None
        end
  | None => None
  end.

(** The dict of [get_token_info] as [_is_good_opportunity] and
    [_execute_snipe] read it: the number under "price" and under
    "liquidity" (a value that is no number makes the comparison raise,
    which the predicate answers with [False], as it answers a missing key
    of default 0), the truth value under "is_verified" and under
    "is_honeypot". *)
Definition token_info_of (token_info : Dict) : SniperService.TokenInfo :=
  SniperService.mkTokenInfo
    (match token_info !! "price" with
     | Some v => number v | None => None end)
    (match token_info !! "liquidity" with
     | Some v => number v | None => None end)
    (option_map truthy (token_info !! "is_verified"))
    (option_map truthy (token_info !! "is_honeypot")).

End OnDicts.

(** ** [services/sniper_service.py]: scanning, sniping, selling *)

Module SniperEngine.
Import SniperService.

(** A row of [snipe_records].  [_record_snipe] fills the first seven
    columns; the three columns of the sale stay NULL until
    [_update_snipe_record] fills them. *)
Record SnipeRecord := mkSnipeRecord {
  sr_sniper_id : string;
  sr_token_mint : string;
  sr_buy_amount : Q;
  sr_buy_price : Q;
  sr_buy_signature : string;
  sr_buy_time : Q;
  sr_success : bool;
  sr_sell_price : option Q;
  sr_sell_signature : option string;
  sr_sell_time : option Q
}.

(** The two shapes of dict that [execute_swap] returns: the success dict,
    of which the service reads "signature" and "amount", and the failure
    dict with its "error". *)
Inductive SwapAnswer :=
| Swapped (signature : string) (amount : Q)
| NotSwapped (error : string).

(** The service ([active_snipers] and the [snipers] table), the
    [snipe_records] table, and (ghost) the calls made to [execute_swap] and
    the monitoring tasks created, oldest first. *)
Record World := mkWorld {
  service : State;
  snipe_records : list SnipeRecord;
  calls : list CopyTradeService.SwapCall;
  monitors : list (string * string * Q)
}.

Definition empty_world : World := mkWorld empty_state [] [] [].

(** A request of the service, served in a world. *)
Definition serve {A} (handler : State -> A * State) (w : World) : World :=
  mkWorld (snd (handler (service w))) (snipe_records w) (calls w)
          (monitors w).

(** An update of the dict held by the registry under [sniper_id]. *)
Definition update_session (sniper_id : string)
           (f : SniperConfig -> SniperConfig) (w : World) : World :=
  mkWorld (mkState (alter f sniper_id (active_snipers (service w)))
                   (snipers (service w)))
          (snipe_records w) (calls w) (monitors w).

(** [sniper_config["successful_snipes"] += 1] and its two siblings. *)
Definition count_success (c : SniperConfig) : SniperConfig :=
  mkSniperConfig (sniper_id c) (wallet_address c) (private_key c)
                 (target_tokens c) (buy_amount c) (max_slippage c)
                 (profit_target c) (stop_loss c) (auto_sell c)
                 (compute_unit_limit c) (cluster c) (rpc_url c)
                 (start_time c) (is_running c)
                 (successful_snipes c + 1) (failed_snipes c)
                 (total_profit c).

Definition count_failure (c : SniperConfig) : SniperConfig :=
  mkSniperConfig (sniper_id c) (wallet_address c) (private_key c)
                 (target_tokens c) (buy_amount c) (max_slippage c)
                 (profit_target c) (stop_loss c) (auto_sell c)
                 (compute_unit_limit c) (cluster c) (rpc_url c)
                 (start_time c) (is_running c)
                 (successful_snipes c) (failed_snipes c + 1)
                 (total_profit c).

Definition add_profit (profit : Q) (c : SniperConfig) : SniperConfig :=
  mkSniperConfig (sniper_id c) (wallet_address c) (private_key c)
                 (target_tokens c) (buy_amount c) (max_slippage c)
                 (profit_target c) (stop_loss c) (auto_sell c)
                 (compute_unit_limit c) (cluster c) (rpc_url c)
                 (start_time c) (is_running c)
                 (successful_snipes c) (failed_snipes c)
                 (total_profit c + profit)%Q.

(** *** Database operations *)

Definition _record_snipe (sniper_id token_mint : string)
           (buy_amount buy_price : Q) (buy_signature : string)
           (success : bool) (now : Q) (w : World) : World :=
  mkWorld (service w)
          (snipe_records w
           ++ [mkSnipeRecord sniper_id token_mint buy_amount buy_price
                             buy_signature now success None None None])%list
          (calls w) (monitors w).

(** [WHERE sniper_id = $4 AND token_mint = $5 AND sell_price IS NULL]. *)
Definition is_open (sniper_id token_mint : string) (r : SnipeRecord)
  : bool :=
  String.eqb (sr_sniper_id r) sniper_id
  && String.eqb (sr_token_mint r) token_mint
  && match sr_sell_price r with None => true | Some _ => false end.

Definition close (sell_price : Q) (sell_signature : string) (now : Q)
           (r : SnipeRecord) : SnipeRecord :=
  mkSnipeRecord (sr_sniper_id r) (sr_token_mint r) (sr_buy_amount r)
                (sr_buy_price r) (sr_buy_signature r) (sr_buy_time r)
                (sr_success r) (Some sell_price) (Some sell_signature)
                (Some now).

Definition _update_snipe_record (sniper_id token_mint : string)
           (sell_price : Q) (sell_signature : string) (now : Q) (w : World)
  : World :=
  mkWorld (service w)
          (map (fun r => if is_open sniper_id token_mint r
                         then close sell_price sell_signature now r
                         else r)
               (snipe_records w))
          (calls w) (monitors w).

(** [ORDER BY buy_time DESC LIMIT 1] over the records of the pair: a record
    of the greatest [buy_time]; among several of them, the one written
    first. *)
Definition later (best : option SnipeRecord) (r : SnipeRecord)
  : option SnipeRecord :=
  match best with
  | None => Some r
  | Some b => if Py.lt (sr_buy_time b) (sr_buy_time r) then Some r
              else Some b
  end.

Definition _get_buy_price (sniper_id token_mint : string) (w : World) : Q :=
  let of_pair r :=
    String.eqb (sr_sniper_id r) sniper_id
    && String.eqb (sr_token_mint r) token_mint in
  match fold_left later (List.filter of_pair (snipe_records w)) None with
  | Some result => sr_buy_price result
  | None => 0%Q
  end.

(** *** Sniping *)

Definition with_call (call : CopyTradeService.SwapCall) (w : World)
  : World :=
  mkWorld (service w) (snipe_records w) (calls w ++ [call])%list
          (monitors w).

(** [asyncio.create_task(self._monitor_sell_opportunity(...))]. *)
Definition create_monitor (sniper_id token_mint : string) (buy_price : Q)
           (w : World) : World :=
  mkWorld (service w) (snipe_records w) (calls w)
          (monitors w ++ [(sniper_id, token_mint, buy_price)])%list.

(** [now] is the clock reading of [_record_snipe].  A missing session
    ([KeyError] on the registry) or a missing "price" ([KeyError] on the
    token info, raised while the arguments of [_record_snipe] are
    evaluated) ends the attempt in the handler of the [try]. *)
Definition _execute_snipe
           (execute_swap : CopyTradeService.SwapCall -> SwapAnswer)
           (sniper_id token_mint : string) (token_info : TokenInfo)
           (now : Q) (w : World) : World :=
  match active_snipers (service w) !! sniper_id with
  | None => w
  | Some sniper_config =>
      let call :=
        CopyTradeService.mkSwapCall
          token_mint (buy_amount sniper_config)
          (max_slippage sniper_config) (wallet_address sniper_config)
          (private_key sniper_config) false in
      let w := with_call call w in
      match execute_swap call with
      | Swapped signature _ =>
          match price token_info with
          | None => w
          | Some buy_price =>
              let w :=
                _record_snipe sniper_id token_mint
                              (buy_amount sniper_config) buy_price
                              signature true now w in
              let w := update_session sniper_id count_success w in
              if auto_sell sniper_config
              then create_monitor sniper_id token_mint buy_price w
              else w
          end
      | NotSwapped _ =>
          match price token_info with
          | None => w
          | Some buy_price =>
              let w :=
                _record_snipe sniper_id token_mint
                              (buy_amount sniper_config) buy_price
                              "" false now w in
              update_session sniper_id count_failure w
          end
      end
  end.

(** [token_info] is the answer of [get_token_info]: [None] stands for an
    answer that is empty or for an exception of the call; a dict without
    any key is rejected by the predicate as well. *)
Definition _check_token_opportunity
           (execute_swap : CopyTradeService.SwapCall -> SwapAnswer)
           (sniper_id token_mint : string) (token_info : option TokenInfo)
           (now : Q) (w : World) : World :=
  match token_info with
  | Some token_info =>
      if _is_good_opportunity token_info
      then _execute_snipe execute_swap sniper_id token_mint token_info
                          now w
      else w
  | None => w
  end.

(** *** Selling *)

(** One visit of the loop of [_monitor_sell_opportunity], the price being
    the value [get_token_price] returned: a sale and the end of the loop,
    another visit after the pause, or the end of the loop where the
    comparison raises. *)
Inductive Visit := Sell (sell_price : Q) (reason : string) | Wait | Stop.

Definition visit (profit_target stop_loss : Q)
           (current_price : SolanaManager.Value) : Visit :=
  match SolanaManager.number current_price with
  | None => Stop                                   (* TypeError, except *)
  | Some current_price =>
      if Py.ge current_price profit_target
      then Sell current_price "profit"
      else if Py.le current_price stop_loss
      then Sell current_price "stop_loss"
      else Wait
  end.

(** The loop, over the readings of its successive visits: the value of
    [sniper_config["is_running"]] and the price.  It answers the sale it
    ends with, if it ends with one within these readings. *)
Fixpoint monitor_loop (profit_target stop_loss : Q)
         (readings : list (bool * SolanaManager.Value))
  : option (Q * string) :=
  match readings with
  | [] => None
  | (is_running, current_price) :: readings =>
      if negb is_running then None
      else match visit profit_target stop_loss current_price with
           | Sell sell_price reason => Some (sell_price, reason)
           | Wait => monitor_loop profit_target stop_loss readings
           | Stop => None
           end
  end.

Definition _monitor_sell_opportunity (sniper_id token_mint : string)
           (buy_price : Q) (readings : list (bool * SolanaManager.Value))
           (w : World) : option (Q * string) :=
  match active_snipers (service w) !! sniper_id with
  | None => None                                   (* KeyError, except *)
  | Some sniper_config =>
      let profit_target :=
        (buy_price * (1 + profit_target sniper_config))%Q in
      let stop_loss := (buy_price * (1 - stop_loss sniper_config))%Q in
      monitor_loop profit_target stop_loss readings
  end.

(** [now] is the clock reading of [_update_snipe_record]. *)
Definition _execute_sell
           (execute_swap : CopyTradeService.SwapCall -> SwapAnswer)
           (sniper_id token_mint : string) (sell_price : Q)
           (reason : string) (now : Q) (w : World) : World :=
  match active_snipers (service w) !! sniper_id with
  | None => w                                      (* KeyError, except *)
  | Some sniper_config =>
      let call :=
        CopyTradeService.mkSwapCall
          token_mint 0 (max_slippage sniper_config)
          (wallet_address sniper_config) (private_key sniper_config)
          true in
      let w := with_call call w in
      match execute_swap call with
      | Swapped signature amount =>
          let buy_price := _get_buy_price sniper_id token_mint w in
          let profit := ((sell_price - buy_price) * amount)%Q in
          match Py.div (sell_price - buy_price) buy_price with
          | None => w                              (* ZeroDivisionError *)
          | Some ratio =>
              let profit_percentage := (ratio * 100)%Q in
              let w := update_session sniper_id (add_profit profit) w in
              _update_snipe_record sniper_id token_mint sell_price
                                   signature now w
          end
      | NotSwapped _ => w
      end
  end.

(** *** Runs of the engine *)

(** What happens to a world: a request of the service, a visit of the
    scanning loop to one target of one session, a sale. *)
Inductive Event :=
| Requested (r : Request)
| Stopped (sniper_id : string)
| Checked (sniper_id token_mint : string) (token_info : option TokenInfo)
          (now : Q)
| Sold (sniper_id token_mint : string) (sell_price : Q) (reason : string)
       (now : Q).

Definition step (execute_swap : CopyTradeService.SwapCall -> SwapAnswer)
           (e : Event) (w : World) : World :=
  match e with
  | Requested r => serve (fun st => (tt, handle r st)) w
  | Stopped sniper_id => serve (StopSniper sniper_id) w
  | Checked sniper_id token_mint token_info now =>
      _check_token_opportunity execute_swap sniper_id token_mint
                               token_info now w
  | Sold sniper_id token_mint sell_price reason now =>
      _execute_sell execute_swap sniper_id token_mint sell_price reason
                    now w
  end.

(** [uuid.uuid4()] returns an id that no session and no record carries. *)
Definition allowed (e : Event) (w : World) : Prop :=
  match e with
  | Requested (ReqStart _ uuid _) =>
      active_snipers (service w) !! uuid = None /\
      forall r, In r (snipe_records w) -> sr_sniper_id r <> uuid
  | _ => True
  end.

Inductive reachable
          (execute_swap : CopyTradeService.SwapCall -> SwapAnswer)
  : World -> Prop :=
| reach_empty : reachable execute_swap empty_world
| reach_step w e :
    reachable execute_swap w -> allowed e w ->
    reachable execute_swap (step execute_swap e w).



End SniperEngine.

(** ** [services/copy_trade_service.py]: the sessions *)

Module CopyTradeSessions.
Import CopyTradeService.

(** The request message [CopyTradeConfig] of the proto. *)
Record CopyTradeRequestConfig := mkCopyTradeRequestConfig {
  rq_source_wallet : string;
  rq_target_wallet : string;
  rq_private_key : string;
  rq_allocation_percentage : Q;
  rq_max_position_size : Q;
  rq_min_trade_amount : Q;
  rq_max_trades_per_hour : Z;
  rq_cluster : Z;
  rq_rpc_url : string
}.

Record CopyTradeResponse := mkCopyTradeResponse {
  success : bool;
  message : string;
  resp_copy_trade_id : string
}.

(** The state of the engine and the rows of the [copy_traders] table. *)
Record Desk := mkDesk {
  engine : State;
  copy_traders : list CopyTradeConfig
}.

Definition set_registry (d : Desk) (m : gmap string CopyTradeConfig)
  : Desk :=
  mkDesk (set_active (engine d) m) (copy_traders d).

(** [copy_trade_config["is_running"] = False]. *)
Definition stop_running (c : CopyTradeConfig) : CopyTradeConfig :=
  mkCopyTradeConfig (copy_trade_id c) (source_wallet c) (target_wallet c)
    (private_key c) (allocation_percentage c) (max_position_size c)
    (min_trade_amount c) (max_trades_per_hour c) (cluster c) (rpc_url c)
    (start_time c) false (copied_trades c) (total_profit c)
    (trades_this_hour c) (last_trade_time c).

(** The two assignments of [AddTraderToCopy]. *)
Definition set_source (c : CopyTradeConfig) (source_wallet : string)
           (allocation_percentage : Q) : CopyTradeConfig :=
  mkCopyTradeConfig (copy_trade_id c) source_wallet (target_wallet c)
    (private_key c) allocation_percentage (max_position_size c)
    (min_trade_amount c) (max_trades_per_hour c) (cluster c) (rpc_url c)
    (start_time c) (is_running c) (copied_trades c) (total_profit c)
    (trades_this_hour c) (last_trade_time c).

Definition StartCopyTrading (request : CopyTradeRequestConfig)
           (uuid : string) (now : Q) (d : Desk)
  : CopyTradeResponse * Desk :=
  if negb (_validate_wallet_address (rq_source_wallet request))
  then (mkCopyTradeResponse false "Invalid source wallet address" "", d)
  else if negb (_validate_wallet_address (rq_target_wallet request))
  then (mkCopyTradeResponse false "Invalid target wallet address" "", d)
  else
    let copy_trade_config :=
      mkCopyTradeConfig uuid (rq_source_wallet request)
        (rq_target_wallet request) (rq_private_key request)
        (rq_allocation_percentage request) (rq_max_position_size request)
        (rq_min_trade_amount request) (rq_max_trades_per_hour request)
        (rq_cluster request) (rq_rpc_url request) now true 0 0 0 0 in
    (mkCopyTradeResponse true "Copy trading started successfully" uuid,
     mkDesk (set_active (engine d)
               (<[uuid := copy_trade_config]>
                  (active_copy_traders (engine d))))
            (copy_traders d ++ [copy_trade_config])%list).

Definition StopCopyTrading (id : string) (d : Desk)
  : CopyTradeResponse * Desk :=
  match active_copy_traders (engine d) !! id with
  | None =>
      (mkCopyTradeResponse false "Copy trading instance not found" "", d)
  | Some _ =>
      (mkCopyTradeResponse true "Copy trading stopped successfully" "",
       set_registry d (delete id (active_copy_traders (engine d))))
  end.

Definition AddTraderToCopy (id source_wallet : string)
           (allocation_percentage : Q) (d : Desk)
  : CopyTradeResponse * Desk :=
  match active_copy_traders (engine d) !! id with
  | None =>
      (mkCopyTradeResponse false "Copy trading instance not found" "", d)
  | Some cfg =>
      if negb (_validate_wallet_address source_wallet)
      then (mkCopyTradeResponse false "Invalid source wallet address" "",
            d)
      else
        (mkCopyTradeResponse true "Trader added successfully" "",
         set_registry d
           (<[id := set_source cfg source_wallet allocation_percentage]>
              (active_copy_traders (engine d))))
  end.

Definition RemoveTraderToCopy (id : string) (d : Desk)
  : CopyTradeResponse * Desk :=
  match active_copy_traders (engine d) !! id with
  | None =>
      (mkCopyTradeResponse false "Copy trading instance not found" "", d)
  | Some cfg =>
      (mkCopyTradeResponse true "Trader removed successfully" "",
       set_registry d
         (<[id := stop_running cfg]> (active_copy_traders (engine d))))
  end.

(** The source returns the empty list. *)
Definition _get_recent_trades (wallet_address : string)
  : list (Trade * Clock) := [].

(** The body of the loop of [_monitor_copy_traders] for the session [id]:
    a session that is not running is passed over.  [recent_trades] is what
    [_get_recent_trades] brings, each trade with the clock readings of its
    turn. *)
Definition monitor_session (execute_swap : SwapCall -> SwapResult)
           (id : string) (recent_trades : list (Trade * Clock)) (d : Desk)
  : Desk :=
  match active_copy_traders (engine d) !! id with
  | None => d
  | Some copy_trade_config =>
      if negb (is_running copy_trade_config) then d
      else mkDesk (_check_source_wallet_trades execute_swap id
                     recent_trades (engine d))
                  (copy_traders d)
  end.

End CopyTradeSessions.

(** ** [services/market_data_service.py] *)

Module MarketDataService.

Import SolanaManager.

(** *** Python operations on decoded JSON

    Each returns [None] where Python raises. *)

(** The value under [key] in a decoded object: of several members with the
    same name, the decoder keeps the last. *)
Definition member (items : list (string * Value)) (key : string)
  : option Value :=
  (list_to_map (rev items) : Dict) !! key.

(** [v[key]] for a string [key]: [KeyError] on a missing key, [TypeError]
    on a value that is no dict. *)
Definition subscript (v : Value) (key : string) : option Value :=
  match v with
  | VDict items => member items key
  | _ => None
  end.

(** [v.get(key, dflt)]: [AttributeError] on a value that is no dict. *)
Definition dict_get (v : Value) (key : string) (dflt : Value)
  : option Value :=
  match v with
  | VDict items => Some (Py.get (member items key) dflt)
  | _ => None
  end.

(** [key in v] for a string [key]: a key of a dict, an element of a list,
    a substring of a string; [TypeError] on [None] and on numbers. *)
Definition contains (v : Value) (key : string) : option bool :=
  match v with
  | VDict items =>
      Some (match member items key with Some _ => true | None => false end)
  | VList elements =>
      Some (existsb (fun x => match x with
                              | VStr s => String.eqb s key
                              | _ => false
                              end) elements)
  | VStr s =>
      Some (match String.index 0 key s with
            | Some _ => true
            | None => false
            end)
  | VNone | VBool _ | VInt _ | VFloat _ => None
  end.

(** [total + v] for a float [total]: [TypeError] unless [v] is a number. *)
Definition add (total : Q) (v : Value) : option Q :=
  match number v with
  | Some x => Some (total + x)%Q
  | None => None
  end.

(** *** The price sources *)

(** The five values of a price dict; the success dict of a price source
    holds them twice, at top level and under "data".  The first four are
    what [.get] found in the feed, of whatever type. *)
Record Quote := mkQuote {
  price : Value;
  price_change_24h : Value;
  volume_24h : Value;
  market_cap : Value;
  timestamp : Z
}.

(** The "error" of a failure dict: a message of the source, or the text of
    an exception caught on the way, which is not represented. *)
Inductive Error := Message (text : string) | Raised.

Inductive PriceResult :=
| PriceFound (top data : Quote)
| PriceMissing (error : Error).

(** What a price feed brings back: the status and the document that
    [response.json()] decodes, or an exception on the way. *)
Inductive Feed :=
| FeedReply (status : Z) (data : Value)
| FeedRaised.

(** The answers of the two feeds and the two clock readings of the source
    that builds a success dict. *)
Record Sources := mkSources {
  jupiter : Feed;
  raydium : Feed;
  clock : Z * Z
}.

(** The four [price_data.get(key, 0.0)] of a success dict. *)
Definition quote_of (price_data : Value) (now : Z) : option Quote :=
  match dict_get price_data "price" (VFloat 0),
        dict_get price_data "priceChange24h" (VFloat 0),
        dict_get price_data "volume24h" (VFloat 0),
        dict_get price_data "marketCap" (VFloat 0) with
  | Some price, Some price_change_24h, Some volume_24h, Some market_cap =>
      Some (mkQuote price price_change_24h volume_24h market_cap now)
  | _, _, _, _ => None
  end.

Definition success_dict (price_data : Value) (clock : Z * Z)
  : PriceResult :=
  match quote_of price_data (fst clock), quote_of price_data (snd clock) with
  | Some top, Some data => PriceFound top data
  | _, _ => PriceMissing Raised                     (* except Exception *)
  end.

Definition _get_jupiter_price (feed : Feed) (token_mint : string)
           (clock : Z * Z) : PriceResult :=
  match feed with
  | FeedReply status data =>
      if (status =? 200)%Z then
        match dict_get data "data" (VDict []) with
        | None => PriceMissing Raised               (* except Exception *)
        | Some listing =>
            match contains listing token_mint with
            | None => PriceMissing Raised           (* except Exception *)
            | Some true =>
                match subscript listing token_mint with
                | Some price_data => success_dict price_data clock
                | None => PriceMissing Raised       (* except Exception *)
                end
            | Some false =>
                PriceMissing (Message "Jupiter price not available")
            end
        end
      else PriceMissing (Message "Jupiter price not available")
  | FeedRaised => PriceMissing Raised               (* except Exception *)
  end.

Definition _get_raydium_price (feed : Feed) (token_mint : string)
           (clock : Z * Z) : PriceResult :=
  match feed with
  | FeedReply status data =>
      if (status =? 200)%Z then
        match contains data token_mint with
        | None => PriceMissing Raised               (* except Exception *)
        | Some true =>
            match subscript data token_mint with
            | Some price_data => success_dict price_data clock
            | None => PriceMissing Raised           (* except Exception *)
            end
        | Some false =>
            PriceMissing (Message "Raydium price not available")
        end
      else PriceMissing (Message "Raydium price not available")
  | FeedRaised => PriceMissing Raised               (* except Exception *)
  end.

(** The placeholder: a success dict of zeros. *)
Definition _get_solana_price (token_mint : string) (clock : Z * Z)
  : PriceResult :=
  PriceFound
    (mkQuote (VFloat 0) (VFloat 0) (VFloat 0) (VFloat 0) (fst clock))
    (mkQuote (VFloat 0) (VFloat 0) (VFloat 0) (VFloat 0) (snd clock)).

Definition found (r : PriceResult) : bool :=
  match r with PriceFound _ _ => true | PriceMissing _ => false end.

Definition _fetch_token_price (s : Sources) (token_mint : string)
  : PriceResult :=
  let jupiter_price := _get_jupiter_price (jupiter s) token_mint (clock s) in
  if found jupiter_price then jupiter_price
  else
    let raydium_price :=
      _get_raydium_price (raydium s) token_mint (clock s) in
    if found raydium_price then raydium_price
    else
      let solana_price := _get_solana_price token_mint (clock s) in
      if found solana_price then solana_price
      else PriceMissing (Message "Price not available from any source").

(** *** The messages of the answers *)

Record PriceResponse := mkPriceResponse {
  resp_token_mint : string;
  resp_price : Q;
  resp_price_change_24h : Q;
  resp_volume_24h : Q;
  resp_market_cap : Q;
  resp_timestamp : Z
}.

(** Modelled from the spec: the generated module [proto/trading_pb2] is not
    among the sources.  A price response carries the mint, four floating
    point numbers and an integer timestamp.  Its constructor follows the
    Python protobuf runtime: a keyword argument that is [None] leaves the
    field at its default, zero; an int or a float sets a floating point
    field, an int an integer field; a string, a list or a dict raises
    [TypeError].  [True] and [False] are taken as 1 and 0, as Python
    takes them in arithmetic; no statement below rests on that. *)
Definition double_field (v : Value) : option Q :=
  match v with
  | VNone => Some 0%Q
  | VBool _ | VInt _ | VFloat _ => number v
  | VStr _ | VList _ | VDict _ => None
  end.

Definition int_field (v : Value) : option Z :=
  match v with
  | VNone => Some 0%Z
  | VBool b => Some (if b then 1 else 0)%Z
  | VInt n => Some n
  | VFloat _ | VStr _ | VList _ | VDict _ => None
  end.

Definition new_PriceResponse (token_mint : string)
           (price price_change_24h volume_24h market_cap timestamp : Value)
  : option PriceResponse :=
  match double_field price, double_field price_change_24h,
        double_field volume_24h, double_field market_cap,
        int_field timestamp with
  | Some p, Some c, Some v, Some m, Some t =>
      Some (mkPriceResponse token_mint p c v m t)
  | _, _, _, _, _ => None
  end.

(** The response built from the top level of a success dict. *)
Definition response_of (token_mint : string) (price_data : Quote)
  : option PriceResponse :=
  new_PriceResponse token_mint (price price_data)
                    (price_change_24h price_data) (volume_24h price_data)
                    (market_cap price_data) (VInt (timestamp price_data)).

(** The dict under "data", as the cache gives it back once its JSON text is
    decoded. *)
Definition document (data : Quote) : Value :=
  VDict [("price", price data);
         ("price_change_24h", price_change_24h data);
         ("volume_24h", volume_24h data);
         ("market_cap", market_cap data);
         ("timestamp", VInt (timestamp data))].

(** The response built from a cached document: the five keys are read
    first, a missing one raises [KeyError]. *)
Definition response_of_cached (token_mint : string) (price_data : Value)
  : option PriceResponse :=
  match subscript price_data "price",
        subscript price_data "price_change_24h",
        subscript price_data "volume_24h",
        subscript price_data "market_cap",
        subscript price_data "timestamp" with
  | Some price, Some price_change_24h, Some volume_24h, Some market_cap,
    Some timestamp =>
      new_PriceResponse token_mint price price_change_24h volume_24h
                        market_cap timestamp
  | _, _, _, _, _ => None
  end.

(** [f"price:{token_mint}:{cluster}"]. *)
Definition price_key (token_mint : string) (cluster : Z) : string :=
  "price:" ++ token_mint ++ ":" ++ pretty cluster.

(** [GetTokenPrice], on the cache of documents: the response, or [None]
    where the source aborts the call.  On a miss the dict under "data" is
    cached before the response is built. *)
Definition GetTokenPrice (s : Sources) (token_mint : string) (cluster : Z)
           (cache : gmap string Value)
  : option PriceResponse * gmap string Value :=
  let cache_key := price_key token_mint cluster in
  match cache !! cache_key with
  | Some price_data => (response_of_cached token_mint price_data, cache)
  | None =>
      match _fetch_token_price s token_mint with
      | PriceFound top data =>
          (response_of token_mint top,
           <[cache_key := document data]> cache)
      | PriceMissing _ => (None, cache)             (* abort NOT_FOUND *)
      end
  end.

Record MarketData := mkMarketData {
  md_cluster : Z;
  prices : list PriceResponse;
  total_volume_24h : Q;
  total_market_cap : Q;
  md_timestamp : Z
}.

(** One turn of the loop of [GetMarketData], on
    [(prices, total_volume, total_market_cap)]; [request] is a requested
    mint with the answers of the sources at its turn.  [None] once an
    exception has left the loop. *)
Definition market_step (acc : option (list PriceResponse * Q * Q))
           (request : string * Sources)
  : option (list PriceResponse * Q * Q) :=
  match acc with
  | None => None
  | Some (prices, total_volume, total_market_cap) =>
      let '(token_mint, s) := request in
      match _fetch_token_price s token_mint with
      | PriceFound top _ =>
          match response_of token_mint top with
          | None => None                            (* TypeError *)
          | Some price_response =>
              match add total_volume (volume_24h top) with
              | None => None                        (* TypeError *)
              | Some total_volume =>
                  match add total_market_cap (market_cap top) with
                  | None => None                    (* TypeError *)
                  | Some total_market_cap =>
                      Some ((prices ++ [price_response])%list,
                            total_volume, total_market_cap)
                  end
              end
          end
      | PriceMissing _ => acc
      end
  end.

(** [GetMarketData]: the message, or [None] where the source aborts the
    call. *)
Definition GetMarketData (requests : list (string * Sources)) (cluster : Z)
           (now : Z) : option MarketData :=
  match fold_left market_step requests (Some ([], 0%Q, 0%Q)) with
  | Some (prices, total_volume, total_market_cap) =>
      Some (mkMarketData cluster prices total_volume total_market_cap now)
  | None => None                                    (* abort INTERNAL *)
  end.

(** [f"token_info:{token_mint}:{cluster}"]. *)
Definition token_info_key (token_mint : string) (cluster : Z) : string :=
  "token_info:" ++ token_mint ++ ":" ++ pretty cluster.

(** The keyword arguments of the message, read one after the other. *)
Fixpoint read_fields (read : string -> option SolanaManager.Value)
         (keys : list string)
  : option (list (string * SolanaManager.Value)) :=
  match keys with
  | [] => Some []
  | key :: keys =>
      match read key with
      | None => None                                (* KeyError *)
      | Some v =>
          match read_fields read keys with
          | Some fields => Some ((key, v) :: fields)
          | None => None
          end
      end
  end.

Definition cached_fields : list string :=
  ["name"; "symbol"; "decimals"; "total_supply"; "circulating_supply";
   "mint_authority"; "is_verified"; "liquidity"; "holders_count"].

(** [GetTokenInfo], on the cache of token documents: the fields of the
    message in the order they are read, or [None] where the source aborts
    the call.  A cached document is the value its JSON text decodes to. *)
Definition GetTokenInfo (response : SolanaManager.TokensResponse)
           (token_mint : string) (cluster : Z)
           (cache : gmap string SolanaManager.Value)
  : option (list (string * SolanaManager.Value))
    * gmap string SolanaManager.Value :=
  let cache_key := token_info_key token_mint cluster in
  match cache !! cache_key with
  | Some token_data =>
      (read_fields (subscript token_data) cached_fields, cache)
  | None =>
      let token_info := SolanaManager.get_token_info response token_mint in
      match token_info !! "success" with
      | None => (None, cache)                       (* KeyError *)
      | Some success =>
          if SolanaManager.truthy success then
            match token_info !! "data" with
            | None => (None, cache)                 (* KeyError *)
            | Some data =>
                (read_fields (fun key => token_info !! key) cached_fields,
                 <[cache_key := data]> cache)
            end
          else (None, cache)                        (* abort NOT_FOUND *)
      end
  end.

End MarketDataService.

(** ** Vocabulary for the price answers *)

Module Quotes.
Import SolanaManager MarketDataService.









(** The quote found for a requested mint, at top level of the dict. *)
Definition quoted (request : string * Sources) (q : Quote) : Prop :=
  exists data,
    _fetch_token_price (snd request) (fst request) = PriceFound q data.


(** A feed entry whose 24 hour volume is null. *)
Definition without_volume : Value :=
  VDict [("price", VFloat 0.25); ("volume24h", VNone)].

End Quotes.

(** * Properties *)

(** ** Comparisons *)

Module PyFacts.

Lemma le_true (x y : Q) : Py.le x y = true <-> (x <= y)%Q.
Proof. unfold Py.le. apply Qle_bool_iff. Qed.

Lemma lt_true (x y : Q) : Py.lt x y = true <-> (x < y)%Q.
Proof.
  unfold Py.lt. rewrite negb_true_iff. split.
  - intros H. apply Qnot_le_lt. intros Hle.
    apply Qle_bool_iff in Hle. congruence.
  - intros H. destruct (Qle_bool y x) eqn:E; [|reflexivity].
    apply Qle_bool_iff in E. exfalso. exact (Qlt_not_le _ _ H E).
Qed.

Lemma lt_false (x y : Q) : Py.lt x y = false <-> (y <= x)%Q.
Proof.
  unfold Py.lt. rewrite negb_false_iff. apply Qle_bool_iff.
Qed.

Lemma le_false (x y : Q) : Py.le x y = false <-> (y < x)%Q.
Proof.
  split.
  - intros H. apply lt_true. unfold Py.lt, Py.le in *. now rewrite H.
  - intros H. apply lt_true in H. unfold Py.lt, Py.le in *.
    now apply negb_true_iff in H.
Qed.

(** The cap written with [if copy_amount > max: copy_amount = max] is the
    minimum of the two numbers. *)
Lemma cap_is_min (x m : Q) : (if Py.gt x m then m else x) = Qmin x m.
Proof.
  unfold Py.gt, Py.lt, Qmin, GenericMinMax.gmin.
  destruct (Qle_bool x m) eqn:E; simpl.
  - apply Qle_bool_iff in E.
    destruct (x ?= m)%Q eqn:C; [reflexivity|reflexivity|].
    exfalso. apply (proj1 (Qle_alt x m) E). exact C.
  - destruct (x ?= m)%Q eqn:C; [| |reflexivity]; exfalso.
    + assert (H : (x <= m)%Q) by (apply Qle_alt; congruence).
      apply Qle_bool_iff in H. congruence.
    + assert (H : (x <= m)%Q) by (apply Qle_alt; congruence).
      apply Qle_bool_iff in H. congruence.
Qed.

End PyFacts.

(** ** The sniper's opportunity predicate *)

Section Opportunity.
Import SniperService.

(** C3.  The opportunity predicate answers [False] for a token whose
    liquidity is below the threshold of 1000, [False] for a token that is
    not marked verified, [False] for a token flagged as a honeypot, and
    [True] for every token that passes the three checks.  A key missing
    from the token info counts with the default the source gives it. *)
Theorem is_good_opportunity_spec (token_info : TokenInfo) :
  ((Py.get (liquidity token_info) 0 < 1000)%Q ->
   _is_good_opportunity token_info = false) /\
  (Py.get (is_verified token_info) false = false ->
   _is_good_opportunity token_info = false) /\
  (Py.get (is_honeypot token_info) false = true ->
   _is_good_opportunity token_info = false) /\
  ((1000 <= Py.get (liquidity token_info) 0)%Q ->
   Py.get (is_verified token_info) false = true ->
   Py.get (is_honeypot token_info) false = false ->
   _is_good_opportunity token_info = true).
Proof.
  unfold _is_good_opportunity.
  repeat split.
  - intros H. apply PyFacts.lt_true in H. now rewrite H.
  - intros H. rewrite H. simpl. now destruct (Py.lt _ _).
  - intros H. rewrite H.
    destruct (Py.lt _ _); [reflexivity|].
    now destruct (negb _).
  - intros Hl Hv Hh. apply PyFacts.lt_false in Hl.
    now rewrite Hl, Hv, Hh.
Qed.

Lemma is_good_opportunity_spec_witness :
  _is_good_opportunity Samples.sound_token = true.
Proof.
  apply (proj2 (proj2 (proj2 (is_good_opportunity_spec Samples.sound_token)))).
  - vm_compute. discriminate.
  - reflexivity.
  - reflexivity.
Defined.

End Opportunity.

(** ** The copy-trade admission check and the copied amount *)

Section CopyTrade.
Import CopyTradeService.

(** What the admission check may change: the rolling counter of the
    session, nothing else. *)
Lemma should_copy_trade_effect id trade now st cfg ok st1 :
  active_copy_traders st !! id = Some cfg ->
  _should_copy_trade id trade now st = (ok, st1) ->
  copy_trade_records st1 = copy_trade_records st /\
  swaps st1 = swaps st /\
  exists cfg1,
    active_copy_traders st1 !! id = Some cfg1 /\
    (cfg1 = cfg \/ cfg1 = set_trades_this_hour cfg 0).
Proof.
  intros Hcfg. unfold _should_copy_trade. rewrite Hcfg.
  destruct (Py.le _ _).
  { intros [= <- <-]. eauto 6. }
  destruct (Py.lt (now - _) _).
  - destruct (_ >=? _)%Z.
    { intros [= <- <-]. eauto 6. }
    destruct (Py.lt _ _); intros [= <- <-]; eauto 6.
  - destruct (Py.lt _ _); intros [= <- <-]; simpl;
      rewrite lookup_insert_eq; eauto 6.
Qed.

(** C4.  For a session whose rolling-hour counter equals its hourly cap and
    whose last trade was at time T: when the current time is below
    T + 3600 the admission check rejects the trade and leaves the state as
    it was; when the current time is at least T + 3600 it admits a trade
    that is newer than the last copied one and not below the minimum
    amount, and the session then has its rolling counter at zero, every
    other field as before, while the other sessions, the records and the
    swaps are untouched. *)
Theorem rolling_hour_window
  (id : string) (st : State) (cfg : CopyTradeConfig) (trade : Trade)
  (now : Q) :
  active_copy_traders st !! id = Some cfg ->
  trades_this_hour cfg = max_trades_per_hour cfg ->
  ((now < last_trade_time cfg + 3600)%Q ->
   _should_copy_trade id trade now st = (false, st)) /\
  ((last_trade_time cfg + 3600 <= now)%Q ->
   (last_trade_time cfg < Py.get (t_timestamp trade) 0)%Q ->
   (min_trade_amount cfg <= Py.get (t_amount trade) 0)%Q ->
   fst (_should_copy_trade id trade now st) = true /\
   (exists cfg',
      active_copy_traders (snd (_should_copy_trade id trade now st)) !! id
      = Some cfg' /\
      trades_this_hour cfg' = 0%Z /\
      max_trades_per_hour cfg' = max_trades_per_hour cfg /\
      last_trade_time cfg' = last_trade_time cfg /\
      copied_trades cfg' = copied_trades cfg /\
      total_profit cfg' = total_profit cfg /\
      is_running cfg' = is_running cfg /\
      start_time cfg' = start_time cfg /\
      copy_trade_id cfg' = copy_trade_id cfg /\
      source_wallet cfg' = source_wallet cfg /\
      target_wallet cfg' = target_wallet cfg /\
      private_key cfg' = private_key cfg /\
      allocation_percentage cfg' = allocation_percentage cfg /\
      max_position_size cfg' = max_position_size cfg /\
      min_trade_amount cfg' = min_trade_amount cfg /\
      cluster cfg' = cluster cfg /\
      rpc_url cfg' = rpc_url cfg) /\
   (forall id',
      id' <> id ->
      active_copy_traders (snd (_should_copy_trade id trade now st)) !! id'
      = active_copy_traders st !! id') /\
   copy_trade_records (snd (_should_copy_trade id trade now st))
   = copy_trade_records st /\
   swaps (snd (_should_copy_trade id trade now st)) = swaps st).
Proof.
  intros Hcfg Hfull. unfold _should_copy_trade. rewrite Hcfg. split.
  - intros Hnow.
    destruct (Py.le _ _); [reflexivity|].
    assert (Hlt : Py.lt (now - last_trade_time cfg) 3600 = true).
    { apply PyFacts.lt_true. lra. }
    rewrite Hlt, Hfull.
    replace (_ >=? _)%Z with true; [reflexivity|].
    symmetry. rewrite Z.geb_leb. apply Z.leb_refl.
  - intros Hnow Hnew Hmin.
    assert (H1 : Py.le (Py.get (t_timestamp trade) 0%Q)
                       (last_trade_time cfg) = false).
    { apply PyFacts.le_false. exact Hnew. }
    assert (H2 : Py.lt (now - last_trade_time cfg) 3600 = false).
    { apply PyFacts.lt_false. lra. }
    assert (H3 : Py.lt (Py.get (t_amount trade) 0%Q)
                       (min_trade_amount cfg) = false).
    { apply PyFacts.lt_false. exact Hmin. }
    rewrite H1, H2, H3. cbn [fst snd set_active active_copy_traders
                             copy_trade_records swaps].
    split; [reflexivity|]. split; [|split; [|split; reflexivity]].
    + eexists. split; [apply lookup_insert_eq|]. cbn. repeat split.
    + intros id' Hne. now apply lookup_insert_ne.
Qed.

Lemma rolling_hour_window_witness :
  _should_copy_trade "s1" Samples.new_trade 4000 Samples.capped_state
  = (false, Samples.capped_state) /\
  fst (_should_copy_trade "s1" Samples.new_trade 5000 Samples.capped_state)
  = true /\
  exists cfg',
    active_copy_traders
      (snd (_should_copy_trade "s1" Samples.new_trade 5000
                               Samples.capped_state)) !! "s1"
    = Some cfg' /\
    trades_this_hour cfg' = 0%Z /\
    max_trades_per_hour cfg' = 3%Z.
Proof.
  split.
  - apply (proj1 (rolling_hour_window "s1" Samples.capped_state
                    Samples.capped_session Samples.new_trade 4000
                    eq_refl eq_refl)).
    vm_compute. reflexivity.
  - destruct (proj2 (rolling_hour_window "s1" Samples.capped_state
                       Samples.capped_session Samples.new_trade 5000
                       eq_refl eq_refl))
      as (Hok & (cfg' & Hcfg' & Hzero & Hcap & _) & _).
    + vm_compute. discriminate.
    + vm_compute. reflexivity.
    + vm_compute. discriminate.
    + split; [exact Hok|]. exists cfg'. rewrite Hcap. auto.
Defined.

(** C5.  A trade of the source wallet whose timestamp is not above the
    session's last-copied-trade timestamp is not replicated: the admission
    check answers [False] without touching the session, and the turn of
    the monitoring loop that handles the trade leaves the state as it was,
    so no swap is sent and no record is written. *)
Theorem replayed_trade_is_skipped
  (execute_swap : SwapCall -> SwapResult) (id : string) (st : State)
  (cfg : CopyTradeConfig) (trade : Trade) (clock : Clock) :
  active_copy_traders st !! id = Some cfg ->
  (Py.get (t_timestamp trade) 0 <= last_trade_time cfg)%Q ->
  (forall now, _should_copy_trade id trade now st = (false, st)) /\
  check_trade execute_swap id st (trade, clock) = st /\
  swaps (check_trade execute_swap id st (trade, clock)) = swaps st /\
  copy_trade_records (check_trade execute_swap id st (trade, clock))
  = copy_trade_records st.
Proof.
  intros Hcfg Hold.
  assert (Hno : forall now, _should_copy_trade id trade now st = (false, st)).
  { intros now. unfold _should_copy_trade. rewrite Hcfg.
    apply PyFacts.le_true in Hold. now rewrite Hold. }
  assert (Hsame : check_trade execute_swap id st (trade, clock) = st).
  { unfold check_trade. now rewrite Hno. }
  rewrite Hsame. auto.
Qed.

Lemma replayed_trade_is_skipped_witness :
  check_trade Samples.always_succeeds "s1" Samples.capped_state
              (Samples.old_trade, Samples.a_clock)
  = Samples.capped_state.
Proof.
  apply (replayed_trade_is_skipped Samples.always_succeeds "s1"
           Samples.capped_state Samples.capped_session Samples.old_trade
           Samples.a_clock eq_refl).
  vm_compute. discriminate.
Defined.

(** C6.  For an admitted trade of original amount A, in a session with
    allocation percentage p and maximum position size M, the amount passed
    to the chain client is min(A * p, M), and the record written for the
    attempt (on success and on failure of the swap) carries that same
    amount. *)
Theorem copied_amount_is_min
  (execute_swap : SwapCall -> SwapResult) (id : string) (st : State)
  (cfg : CopyTradeConfig) (trade : Trade) (clock : Clock) :
  active_copy_traders st !! id = Some cfg ->
  fst (_should_copy_trade id trade (t_check clock) st) = true ->
  let capped :=
    Qmin (Py.get (t_amount trade) 0 * allocation_percentage cfg)%Q
         (max_position_size cfg) in
  let st' := check_trade execute_swap id st (trade, clock) in
  exists call,
    swaps st' = (swaps st ++ [call])%list /\
    sw_amount call = capped /\
    match execute_swap call with
    | SwapRaised => copy_trade_records st' = copy_trade_records st
    | _ => exists r,
        copy_trade_records st' = (copy_trade_records st ++ [r])%list /\
        r_amount r = capped
    end.
Proof.
  intros Hcfg Hok capped st'. subst st'. unfold check_trade.
  destruct (_should_copy_trade id trade (t_check clock) st)
    as [ok st1] eqn:Hs.
  simpl in Hok. subst ok.
  destruct (should_copy_trade_effect _ _ _ _ _ _ _ Hcfg Hs)
    as (Hrec & Hsw & cfg1 & Hcfg1 & Hsame).
  rewrite Hcfg1.
  assert (Hamt : copy_amount cfg1 trade = capped).
  { unfold copy_amount, capped. rewrite PyFacts.cap_is_min.
    now destruct Hsame as [-> | ->]. }
  exists (swap_call cfg1 trade). unfold _copy_trade.
  destruct (execute_swap (swap_call cfg1 trade)); simpl;
    rewrite ?Hrec, ?Hsw; repeat split; try exact Hamt; eauto.
Qed.

Lemma copied_amount_is_min_witness :
  exists call,
    swaps (check_trade Samples.always_succeeds "s1" Samples.open_state
             (Samples.new_trade, Samples.a_clock))
    = (swaps Samples.open_state ++ [call])%list /\
    sw_amount call
    = Qmin (Py.get (t_amount Samples.new_trade) 0
            * allocation_percentage Samples.open_session)%Q
           (max_position_size Samples.open_session).
Proof.
  destruct (copied_amount_is_min Samples.always_succeeds "s1"
              Samples.open_state Samples.open_session Samples.new_trade
              Samples.a_clock eq_refl eq_refl)
    as (call & Hsw & Hamt & _).
  exists call. split; assumption.
Defined.

End CopyTrade.

(** ** Order placement: rejected requests *)

Section Rejection.
Import TradingService.

Lemma float_le_zero (x : Py.float) :
  Py.float_le x (Py.num 0) = true <-> x <> Py.nan /\ ~ Views.positive x.
Proof.
  destruct x as [q| | |]; cbn.
  - rewrite PyFacts.le_true. split.
    + intros H. split; [discriminate|]. lra.
    + intros [_ H]. lra.
  - split; [discriminate|]. intros [_ H]. now destruct H.
  - split; [|reflexivity]. intros _. split; [discriminate|]. intros [].
  - split; [discriminate|]. now intros [H _].
Qed.

Lemma slippage_tests (x : Py.float) :
  Py.float_le x (Py.num 0) || Py.float_gt x (Py.num 0.5) = true
  <-> x <> Py.nan /\ ~ Views.in_slippage_range x.
Proof.
  destruct x as [q| | |]; cbn.
  - rewrite orb_true_iff, PyFacts.le_true, PyFacts.lt_true. split.
    + intros H. split; [discriminate|]. lra.
    + intros [_ H].
      destruct (Qlt_le_dec 0 q) as [Hpos|Hneg]; [|now left].
      right. apply Qnot_le_lt. intros Hle. apply H. now split.
  - split; [|reflexivity]. intros _. split; [discriminate|]. intros [].
  - split; [|reflexivity]. intros _. split; [discriminate|]. intros [].
  - split; [discriminate|]. now intros [H _].
Qed.

(** What [_validate_order] accepts: both address checks pass, the amount is
    positive or NaN, the slippage is inside (0, 0.5] or NaN. *)
Lemma validate_order_spec (o : Order) :
  valid (_validate_order o) = false
  <-> _validate_token_mint (token_mint o) = false \/
      (amount o <> Py.nan /\ ~ Views.positive (amount o)) \/
      (slippage o <> Py.nan /\ ~ Views.in_slippage_range (slippage o)) \/
      _validate_wallet_address (wallet_address o) = false.
Proof.
  rewrite <- float_le_zero, <- slippage_tests. unfold _validate_order.
  destruct (_validate_token_mint _); cbn [negb]; [|tauto].
  destruct (Py.float_le (amount o) _); [cbn; tauto|].
  destruct (_ || _); [cbn; tauto|].
  destruct (_validate_wallet_address _); cbn; [|tauto].
  split; [discriminate|]. intros [H|[H|[H|H]]]; discriminate.
Qed.

Lemma validate_order_message (o : Order) :
  v_message (_validate_order o) <> "".
Proof.
  unfold _validate_order.
  destruct (negb (_validate_token_mint _)); [discriminate|].
  destruct (Py.float_le (amount o) _); [discriminate|].
  destruct (_ || _); [discriminate|].
  destruct (negb (_validate_wallet_address _)); discriminate.
Qed.

(** X29.  [PlaceOrder] leaves the store as it was (no row in the orders
    table, no cache entry) exactly for a request whose token mint or
    wallet address fails the address check, whose amount is a float other
    than NaN that is not positive, whose slippage is a float other than
    NaN outside (0, 0.5], or which the risk evaluator denies; the response
    then reports a failure with a non-empty message.  The tests of the
    validation are comparisons of floats, all [False] on NaN: a NaN amount
    or slippage is not refused. *)
Theorem rejected_order_is_not_persisted
  (env : Collaborators) (request : Order) (uuid : string) (now : Z)
  (st : Store) :
  ((amount request <> Py.nan /\ ~ Views.positive (amount request)) \/
   (slippage request <> Py.nan /\
    ~ Views.in_slippage_range (slippage request)) \/
   _validate_token_mint (token_mint request) = false \/
   _validate_wallet_address (wallet_address request) = false \/
   allowed (check_order_risk env (stamp request uuid now)) = false)
  <->
  (success (fst (PlaceOrder env request uuid now st)) = false /\
   message (fst (PlaceOrder env request uuid now st)) <> "" /\
   snd (PlaceOrder env request uuid now st) = st).
Proof.
  pose proof (validate_order_spec (stamp request uuid now)) as Hspec.
  cbn [stamp amount slippage token_mint wallet_address] in Hspec.
  unfold PlaceOrder. set (o := stamp request uuid now) in *.
  destruct (valid (_validate_order o)) eqn:V; cbn [negb].
  - destruct (allowed (check_order_risk env o)) eqn:R; cbn [negb].
    + split.
      * intros H. exfalso.
        assert (Hfalse : true = false); [|discriminate].
        apply Hspec.
        destruct H as [H|[H|[H|[H|H]]]]; [tauto|tauto|tauto|tauto|].
        discriminate.
      * intros (_ & _ & Hsame). exfalso.
        destruct (_execute_order _ _); cbn [snd] in Hsame;
          apply (f_equal (fun s => List.length (orders s))) in Hsame;
          cbn [orders _update_order _store_order] in Hsame;
          rewrite length_map, length_app in Hsame; cbn in Hsame; lia.
    + split; [|tauto]. intros _. repeat split. discriminate.
  - split.
    + intros _. repeat split. apply validate_order_message.
    + intros _. destruct (proj1 Hspec eq_refl) as [H|[H|[H|H]]]; tauto.
Qed.

(** Scenario B of the specification: slippage 0.6. *)
Lemma rejected_order_is_not_persisted_witness :
  success (fst (PlaceOrder Samples.permissive Samples.wide_slippage_request
                           "id-1" 1700000000 empty_store)) = false /\
  message (fst (PlaceOrder Samples.permissive Samples.wide_slippage_request
                           "id-1" 1700000000 empty_store)) <> "" /\
  snd (PlaceOrder Samples.permissive Samples.wide_slippage_request
                  "id-1" 1700000000 empty_store) = empty_store.
Proof.
  apply (proj1 (rejected_order_is_not_persisted Samples.permissive
                  Samples.wide_slippage_request "id-1" 1700000000
                  empty_store)).
  right. left. split; [discriminate|]. intros [_ H]. vm_compute in H.
  now apply H.
Defined.

(** C1.  The validation, which tests [amount <= 0] under the comment
    "Check if amount is positive" and [slippage <= 0 or slippage > 0.5],
    misses NaN: the request [Samples.nan_request], whose amount is not
    positive and whose slippage is outside (0, 0.5], passes it, is stored,
    executed, and answered with success. *)
Lemma nan_order_is_persisted :
  ~ Views.positive (amount Samples.nan_request) /\
  ~ Views.in_slippage_range (slippage Samples.nan_request) /\
  success (fst (PlaceOrder Samples.permissive Samples.nan_request
                           "id-1" 1700000000 empty_store)) = true /\
  exists row,
    orders (snd (PlaceOrder Samples.permissive Samples.nan_request
                            "id-1" 1700000000 empty_store)) = [row] /\
    redis (snd (PlaceOrder Samples.permissive Samples.nan_request
                           "id-1" 1700000000 empty_store))
    !! order_key "id-1" = Some row /\
    amount row = Py.nan /\ slippage row = Py.nan /\
    status row = EXECUTED.
Proof.
  split; [intros []|]. split; [intros []|]. split; [reflexivity|].
  eexists. split; [vm_compute; reflexivity|].
  split; [|repeat split]. vm_compute. reflexivity.
Qed.

Example scenario_B_message :
  message (fst (PlaceOrder Samples.permissive Samples.wide_slippage_request
                           "id-1" 1700000000 empty_store))
  = "Slippage must be between 0 and 50%".
Proof. vm_compute. reflexivity. Qed.

End Rejection.

(** ** Profit and loss *)

Section ProfitLoss.
Import TradingService.

(** The division is only reached with a positive divisor: the body of the
    [try] never raises. *)
Lemma profit_loss_body_returns (orders : list Order) :
  exists info, profit_loss_body orders = Some info.
Proof.
  unfold profit_loss_body.
  destruct (profit_totals orders) as [p i].
  destruct (Py.gt i 0) eqn:G; [|eauto].
  unfold Py.div. destruct (Qeq_bool i 0) eqn:E; [|eauto].
  exfalso. apply PyFacts.lt_true in G. apply Qeq_bool_iff in E.
  rewrite E in G. exact (Qlt_irrefl _ G).
Qed.

(** C9.  When the executed orders of a wallet add up to a total invested
    amount of zero, the computation returns normally (no division is
    attempted, so no ZeroDivisionError is raised and caught) with the
    accumulated profit and a profit percentage of 0. *)
Theorem zero_invested_gives_zero_percentage
  (st : Store) (wallet : string) :
  let orders := _get_orders st wallet EXECUTED 0 0 0 0 in
  (snd (profit_totals orders) == 0)%Q ->
  profit_loss_body orders
  = Some (mkProfitInfo (fst (profit_totals orders)) 0) /\
  _calculate_profit_loss st wallet
  = mkProfitInfo (fst (profit_totals orders)) 0 /\
  total_profit_percentage (_calculate_profit_loss st wallet) = 0%Q.
Proof.
  intros orders Hzero.
  assert (Hbody : profit_loss_body orders
                  = Some (mkProfitInfo (fst (profit_totals orders)) 0)).
  { unfold profit_loss_body.
    destruct (profit_totals orders) as [p i]. simpl in *.
    assert (G : Py.gt i 0 = false).
    { apply PyFacts.lt_false. rewrite Hzero. apply Qle_refl. }
    now rewrite G. }
  unfold _calculate_profit_loss. fold orders. rewrite Hbody. auto.
Qed.

Lemma zero_invested_gives_zero_percentage_witness :
  total_profit_percentage
    (_calculate_profit_loss Samples.sold_only_store Samples.a_wallet)
  = 0%Q.
Proof.
  apply (zero_invested_gives_zero_percentage Samples.sold_only_store
           Samples.a_wallet).
  vm_compute. reflexivity.
Defined.

End ProfitLoss.

(** ** GetOrders and the status filter *)

Section GetOrders.
Import TradingService.

Lemma OrderStatus_eqb_eq (a b : OrderStatus) :
  OrderStatus_eqb a b = true <-> a = b.
Proof. destruct a, b; simpl; split; congruence. Qed.


Lemma in_insert_desc (x o : Order) (l : list Order) :
  In x (insert_desc o l) <-> x = o \/ In x l.
Proof.
  induction l as [|y l IH]; simpl.
  - intuition.
  - destruct (timestamp y <? timestamp o)%Z; simpl; rewrite ?IH; intuition.
Qed.



Lemma in_firstn {A} (n : nat) (l : list A) (x : A) :
  In x (firstn n l) -> In x l.
Proof.
  intros H. rewrite <- (firstn_skipn n l). apply in_or_app. now left.
Qed.








(** A wallet with one pending and one executed order: asking for status 0
    returns both. *)
Example pending_filter_returns_executed :
  map status
      (resp_orders
         (GetOrders (mkOrdersRequest Samples.a_wallet PENDING 0 0 0 0)
                    Samples.mixed_store))
  = [EXECUTED; PENDING].
Proof. vm_compute. reflexivity. Qed.

End GetOrders.

(** ** The address checks *)

Section Addresses.

Lemma dropwhile_split {A} (p : A -> bool) (l : list A) :
  exists pre, l = (pre ++ Py.dropwhile p l)%list /\ forallb p pre = true.
Proof.
  induction l as [|a l (pre & Hl & Hp)]; simpl.
  - exists []. auto.
  - destruct (p a) eqn:E.
    + exists (a :: pre). simpl. rewrite E, Hp.
      split; [f_equal; exact Hl|reflexivity].
    + exists []. auto.
Qed.

Lemma dropwhile_app_all {A} (p : A -> bool) (pre l : list A) :
  forallb p pre = true -> Py.dropwhile p (pre ++ l) = Py.dropwhile p l.
Proof.
  induction pre as [|a pre IH]; simpl; [reflexivity|].
  intros H. apply andb_true_iff in H as [Ha Hp]. rewrite Ha. auto.
Qed.

Lemma dropwhile_idem {A} (p : A -> bool) (l : list A) :
  Py.dropwhile p (Py.dropwhile p l) = Py.dropwhile p l.
Proof.
  induction l as [|a l IH]; simpl; [reflexivity|].
  destruct (p a) eqn:E; [exact IH|]. simpl. now rewrite E.
Qed.

Lemma forallb_rev {A} (p : A -> bool) (l : list A) :
  forallb p (rev l) = forallb p l.
Proof.
  destruct (forallb p l) eqn:E.
  - apply forallb_forall. intros x Hx. apply in_rev in Hx.
    eapply forallb_forall in E; eauto.
  - destruct (forallb p (rev l)) eqn:E'; [|reflexivity].
    rewrite <- E. symmetry. apply forallb_forall. intros x Hx.
    eapply forallb_forall in E'; eauto. now apply in_rev in Hx.
Qed.

Lemma rstrip_split (l : list ascii) :
  exists ws, l = (Py.rstrip l ++ ws)%list /\ forallb Py.isspace ws = true.
Proof.
  destruct (dropwhile_split Py.isspace (rev l)) as (pre & Hl & Hp).
  exists (rev pre). split.
  - unfold Py.rstrip. rewrite <- rev_app_distr, <- Hl.
    now rewrite rev_involutive.
  - now rewrite forallb_rev.
Qed.

Lemma rstrip_app_space (a ws : list ascii) :
  forallb Py.isspace ws = true -> Py.rstrip (a ++ ws) = Py.rstrip a.
Proof.
  intros H. unfold Py.rstrip. rewrite rev_app_distr.
  rewrite dropwhile_app_all; [reflexivity|]. now rewrite forallb_rev.
Qed.

Lemma rstrip_idem (l : list ascii) : Py.rstrip (Py.rstrip l) = Py.rstrip l.
Proof.
  unfold Py.rstrip. now rewrite rev_involutive, dropwhile_idem.
Qed.

Lemma rstrip_id (a : list ascii) :
  forallb (fun c => negb (Py.isspace c)) a = true -> Py.rstrip a = a.
Proof.
  intros H. unfold Py.rstrip. destruct (rev a) as [|c r] eqn:E.
  - simpl. rewrite <- (rev_involutive a), E. reflexivity.
  - assert (Hc : Py.isspace c = false).
    { apply negb_true_iff. eapply forallb_forall in H; eauto.
      apply in_rev. rewrite E. now left. }
    simpl. rewrite Hc. rewrite <- E. apply rev_involutive.
Qed.

(** The characters of the alphabet are ASCII and none is whitespace. *)
Lemma alphabet_char (c : ascii) :
  Views.in_alphabet c = true ->
  Py.isspace c = false /\ (N_of_ascii c <? 128)%N = true.
Proof.
  destruct c as [[] [] [] [] [] [] [] []]; vm_compute;
    intuition congruence.
Qed.

Lemma alphabet_not_space (v : list ascii) :
  forallb Views.in_alphabet v = true ->
  forallb (fun c => negb (Py.isspace c)) v = true.
Proof.
  intros H. apply forallb_forall. intros c Hc.
  eapply forallb_forall in H; eauto.
  apply alphabet_char in H as [-> _]. reflexivity.
Qed.

Lemma alphabet_scrub (v : list ascii) :
  forallb Views.in_alphabet v = true -> Base58.scrub_input v = Some v.
Proof.
  intros H. unfold Base58.scrub_input.
  replace (forallb _ v) with true; [reflexivity|].
  symmetry. apply forallb_forall. intros c Hc.
  eapply forallb_forall in H; eauto. now apply alphabet_char in H.
Qed.

Lemma scrub_same (v v' : list ascii) :
  Base58.scrub_input v = Some v' -> v' = v.
Proof.
  unfold Base58.scrub_input. destruct (forallb _ v); congruence.
Qed.

Lemma loop_succeeds (v : list ascii) :
  forall acc,
    (exists n, Base58.b58decode_loop acc v = Some n) <->
    forallb Views.in_alphabet v = true.
Proof.
  induction v as [|c v IH]; intros acc; simpl.
  - split; eauto.
  - unfold Views.in_alphabet at 1.
    destruct (Base58.decode_map c); simpl.
    + apply IH.
    + split; [intros [n Hn]|]; discriminate.
Qed.

Lemma decode_int_alphabet (v : list ascii) :
  forallb Views.in_alphabet v = true ->
  exists n, Base58.b58decode_int v = Some n.
Proof.
  intros H. unfold Base58.b58decode_int.
  rewrite (rstrip_id v) by now apply alphabet_not_space.
  rewrite alphabet_scrub by exact H.
  now apply loop_succeeds.
Qed.

(** [b58decode] returns exactly on the strings that, with trailing
    whitespace removed, are written in the alphabet. *)
Lemma b58decode_succeeds (s : string) :
  (exists bs, Base58.b58decode s = Some bs) <->
  forallb Views.in_alphabet (Py.rstrip (list_ascii_of_string s)) = true.
Proof.
  unfold Base58.b58decode.
  set (v := Py.rstrip (list_ascii_of_string s)).
  destruct (dropwhile_split (Ascii.eqb "1"%char) v) as (ones & Hv & Hones).
  fold (Py.lstrip "1"%char v) in Hv.
  assert (Hones' : forallb Views.in_alphabet ones = true).
  { apply forallb_forall. intros c Hc.
    eapply forallb_forall in Hones; eauto.
    apply Ascii.eqb_eq in Hones. now subst c. }
  split.
  - intros [bs H].
    destruct (Base58.scrub_input v) as [v0|] eqn:Hs; [|discriminate].
    apply scrub_same in Hs. subst v0.
    unfold Base58.b58decode_int in H.
    destruct (Base58.scrub_input (Py.rstrip (Py.lstrip "1"%char v)))
      as [v2|] eqn:Hs2; [|discriminate].
    apply scrub_same in Hs2. subst v2.
    destruct (Base58.b58decode_loop 0 (Py.rstrip (Py.lstrip "1"%char v)))
      as [acc|] eqn:Hl; [|discriminate].
    assert (Hbody :
              forallb Views.in_alphabet (Py.rstrip (Py.lstrip "1"%char v))
              = true).
    { apply (loop_succeeds _ 0%N). eauto. }
    destruct (rstrip_split (Py.lstrip "1"%char v)) as (ws & Hsplit & Hws).
    assert (Hall :
              forallb Views.in_alphabet
                      (ones ++ Py.rstrip (Py.lstrip "1"%char v)) = true).
    { rewrite forallb_app, Hones', Hbody. reflexivity. }
    assert (Heq : v = (ones ++ Py.rstrip (Py.lstrip "1"%char v))%list).
    { rewrite <- (rstrip_id _ (alphabet_not_space _ Hall)).
      rewrite <- (rstrip_app_space _ ws Hws).
      rewrite <- app_assoc, <- Hsplit, <- Hv.
      unfold v. now rewrite rstrip_idem. }
    rewrite Heq. exact Hall.
  - intros H. rewrite alphabet_scrub by exact H.
    rewrite Hv, forallb_app in H. apply andb_true_iff in H as [_ H].
    destruct (decode_int_alphabet _ H) as [n ->]. eauto.
Qed.

Lemma length_check (s : string) :
  negb (String.length s =? 44)%nat = false <-> String.length s = 44%nat.
Proof. rewrite negb_false_iff. apply Nat.eqb_eq. Qed.

Lemma check_accepts (s : string) :
  (if negb (String.length s =? 44)%nat then false
   else match Base58.b58decode s with Some _ => true | None => false end)
  = true <-> Views.well_formed_44 s.
Proof.
  unfold Views.well_formed_44. rewrite <- b58decode_succeeds.
  destruct (negb _) eqn:E.
  - split; [discriminate|]. intros [Hl _].
    apply length_check in Hl. congruence.
  - apply length_check in E.
    destruct (Base58.b58decode s) as [bs|].
    + split; [intros _; split; [exact E|eauto]|reflexivity].
    + split; [discriminate|intros [_ [bs H]]; discriminate].
Qed.

(** C7 (as amended).  Each of the address checks (token mint and wallet
    in the trading service, wallet and token mint in the sniper service,
    wallet in the copy-trade service) accepts a string exactly when it has
    44 characters and base-58 decoding succeeds on it, that is, when the
    string without its trailing whitespace is written in the base-58
    alphabet.  The number of bytes decoded is not looked at; every
    44-character string that decodes to a 32-byte key is accepted. *)
Theorem address_check_is_length_and_alphabet (s : string) :
  (TradingService._validate_token_mint s = true <-> Views.well_formed_44 s)
  /\
  (TradingService._validate_wallet_address s = true
   <-> Views.well_formed_44 s) /\
  (SniperService._validate_wallet_address s = true
   <-> Views.well_formed_44 s) /\
  (SniperService._validate_token_mint s = true <-> Views.well_formed_44 s)
  /\
  (CopyTradeService._validate_wallet_address s = true
   <-> Views.well_formed_44 s) /\
  (String.length s = 44%nat -> Base58.decodes_to_pubkey s = true ->
   Views.well_formed_44 s).
Proof.
  repeat split; try (apply check_accepts; assumption);
    try (intros; apply check_accepts; assumption).
  - assumption.
  - apply b58decode_succeeds. unfold Base58.decodes_to_pubkey in *.
    destruct (Base58.b58decode s); [eauto|discriminate].
Qed.

Lemma address_check_is_length_and_alphabet_witness :
  TradingService._validate_token_mint Samples.usdc_mint = true.
Proof.
  apply (proj1 (address_check_is_length_and_alphabet Samples.usdc_mint)).
  apply (proj2 (proj2 (proj2 (proj2 (proj2
           (address_check_is_length_and_alphabet Samples.usdc_mint)))))).
  - reflexivity.
  - vm_compute. reflexivity.
Defined.

(** C7 as stated fails in both directions: forty-four ones pass the check
    and decode to 44 bytes; the 43-character wrapped-SOL mint decodes to a
    32-byte key and is turned down. *)
Lemma address_check_is_not_a_pubkey_check :
  (TradingService._validate_wallet_address Samples.forty_four_ones = true
   /\ Base58.decodes_to_pubkey Samples.forty_four_ones = false) /\
  (TradingService._validate_token_mint Samples.sol_mint = false
   /\ Base58.decodes_to_pubkey Samples.sol_mint = true).
Proof. vm_compute. auto. Qed.

End Addresses.

(** ** The target tokens of a sniper session *)

Section Targets.
Import SniperService.

Lemma nodup_snoc (l : list string) (x : string) :
  List.NoDup l -> ~ In x l -> List.NoDup (l ++ [x]).
Proof.
  induction l as [|y l IH]; simpl; intros Hnd Hx.
  - constructor; [intros []|constructor].
  - apply List.NoDup_cons_iff in Hnd as [Hy Hnd].
    apply List.NoDup_cons_iff. split.
    + intros Hin. apply in_app_or in Hin as [Hin|[Hin|[]]]; [tauto|].
      subst. tauto.
    + apply IH; tauto.
Qed.

Lemma in_list_remove (x y : string) (l : list string) :
  In y (list_remove x l) -> In y l.
Proof.
  induction l as [|z l IH]; simpl; [tauto|].
  destruct (String.eqb z x); simpl; tauto.
Qed.

Lemma nodup_list_remove (x : string) (l : list string) :
  List.NoDup l -> List.NoDup (list_remove x l).
Proof.
  induction l as [|z l IH]; simpl; intros Hnd; [constructor|].
  apply List.NoDup_cons_iff in Hnd as [Hz Hnd].
  destruct (String.eqb z x); [exact Hnd|].
  apply List.NoDup_cons_iff. split; [|auto].
  intros Hin. apply Hz. eapply in_list_remove; eauto.
Qed.

(** C8 (as amended).  The target tokens of a session are a list:
    StartSniper copies the list of the request, AddTargetToken appends
    the mint without looking for it, RemoveTargetToken deletes one
    occurrence.  The lists of all live sessions stay duplicate-free through
    a request when they were so before and the request is a start with a
    duplicate-free list, an addition of a mint the session does not hold,
    or a removal; adding a valid mint that a session already holds leaves
    that session with a duplicate. *)
Theorem target_tokens_unique_when_requests_are
  (st : State) (r : Request) :
  (Views.targets_unique st -> Views.brings_no_duplicate st r ->
   Views.targets_unique (handle r st)) /\
  (forall id token_mint cfg,
     r = ReqAdd id token_mint ->
     active_snipers st !! id = Some cfg ->
     In token_mint (target_tokens cfg) ->
     _validate_token_mint token_mint = true ->
     ~ Views.targets_unique (handle r st)).
Proof.
  split.
  - intros Huniq Hr. unfold Views.targets_unique in *.
    destruct r as [request uuid now|id token_mint|id token_mint]; simpl.
    + unfold StartSniper.
      destruct (negb (_validate_wallet_address _)); simpl; [exact Huniq|].
      intros id cfg. rewrite lookup_insert.
      destruct (decide (uuid = id)); [|apply Huniq].
      intros [= <-]. exact Hr.
    + unfold AddTargetToken.
      destruct (active_snipers st !! id) as [cfg0|] eqn:Hcfg; simpl;
        [|exact Huniq].
      destruct (negb (_validate_token_mint _)); simpl; [exact Huniq|].
      intros id' cfg. rewrite lookup_insert.
      destruct (decide (id = id')); [|apply Huniq].
      intros [= <-]. simpl. apply nodup_snoc; eauto.
    + unfold RemoveTargetToken.
      destruct (active_snipers st !! id) as [cfg0|] eqn:Hcfg; simpl;
        [|exact Huniq].
      destruct (list_contains _ _); simpl; [|exact Huniq].
      intros id' cfg. rewrite lookup_insert.
      destruct (decide (id = id')); [|apply Huniq].
      intros [= <-]. simpl. apply nodup_list_remove; eauto.
  - intros id token_mint cfg -> Hcfg Hin Hvalid Huniq.
    unfold Views.targets_unique in Huniq. simpl in Huniq.
    unfold AddTargetToken in Huniq. rewrite Hcfg, Hvalid in Huniq.
    simpl in Huniq.
    specialize (Huniq id _ (lookup_insert_eq _ _ _)). simpl in Huniq.
    apply List.NoDup_remove_2 in Huniq. apply Huniq.
    rewrite app_nil_r. exact Hin.
Qed.

Lemma empty_state_unique : Views.targets_unique empty_state.
Proof. intros id cfg H. simpl in H. now rewrite lookup_empty in H. Qed.

(** The session "sn-1" holds the USDC mint; adding the BONK mint, which it
    does not hold, leaves it with the two mints, each once. *)
Lemma target_tokens_unique_when_requests_are_witness :
  Views.targets_unique
    (handle Samples.add_another (run Samples.add_once empty_state)) /\
  option_map target_tokens
    (active_snipers
       (handle Samples.add_another (run Samples.add_once empty_state))
     !! "sn-1")
  = Some [Samples.usdc_mint; Samples.bonk_mint].
Proof.
  split; [|vm_compute; reflexivity].
  pose (start := ReqStart Samples.a_sniper_request "sn-1" 0).
  pose (add := ReqAdd "sn-1" Samples.usdc_mint).
  change (run Samples.add_once empty_state)
    with (handle add (handle start empty_state)).
  apply (proj1 (target_tokens_unique_when_requests_are
                  (handle add (handle start empty_state))
                  Samples.add_another)).
  - apply (proj1 (target_tokens_unique_when_requests_are
                    (handle start empty_state) add)).
    + apply (proj1 (target_tokens_unique_when_requests_are
                      empty_state start)).
      * exact empty_state_unique.
      * constructor.
    + intros cfg H. vm_compute in H. injection H as <-. intros [].
  - intros cfg H. vm_compute in H. injection H as <-. cbn.
    intros [H|[]]. discriminate.
Defined.

(** C8 as stated fails: after a start and two additions of the same valid
    mint, the session's list holds that mint twice. *)
Lemma target_tokens_can_repeat :
  exists cfg,
    active_snipers (run Samples.add_twice empty_state) !! "sn-1" = Some cfg
    /\ target_tokens cfg = [Samples.usdc_mint; Samples.usdc_mint]
    /\ ~ List.NoDup (target_tokens cfg).
Proof.
  eexists. split; [vm_compute; reflexivity|]. split; [reflexivity|].
  simpl. intros H. apply List.NoDup_cons_iff in H as [H _].
  apply H. now left.
Qed.

End Targets.

(** ** Order status transitions *)

Section OrderLifecycle.
Import TradingService Lifecycle.

Variable env : Collaborators.

Lemma order_key_inj (a b : string) : order_key a = order_key b -> a = b.
Proof. unfold order_key. simpl. intros H. now inversion H. Qed.

Lemma fetch_order_some id rows row :
  fetch_order id rows = Some row -> In row rows /\ order_id row = id.
Proof.
  intros H. apply find_some in H as [Hin Heq].
  now apply String.eqb_eq in Heq.
Qed.

Lemma fetch_order_none id rows :
  fetch_order id rows = None ->
  forall row, In row rows -> order_id row <> id.
Proof.
  intros H row Hin. eapply find_none in H; eauto.
  now apply String.eqb_neq in H.
Qed.

Lemma fetch_order_unique rows row :
  List.NoDup (map order_id rows) -> In row rows ->
  fetch_order (order_id row) rows = Some row.
Proof.
  induction rows as [|x rows IH]; simpl; [tauto|].
  intros Hnd Hin. apply List.NoDup_cons_iff in Hnd as [Hx Hnd].
  destruct (String.eqb (order_id x) (order_id row)) eqn:E.
  - destruct Hin as [->|Hin]; [reflexivity|].
    exfalso. apply Hx. apply String.eqb_eq in E. rewrite E.
    now apply in_map.
  - destruct Hin as [->|Hin]; [now rewrite String.eqb_refl in E|auto].
Qed.

Lemma fetch_order_app_l id rows o row :
  fetch_order id rows = Some row ->
  fetch_order id (rows ++ [o]) = Some row.
Proof.
  unfold fetch_order. induction rows as [|x rows IH]; simpl;
    [discriminate|].
  destruct (String.eqb (order_id x) id); auto.
Qed.

Lemma fetch_order_app_r id rows o :
  fetch_order id rows = None ->
  fetch_order id (rows ++ [o])
  = if String.eqb (order_id o) id then Some o else None.
Proof.
  unfold fetch_order. induction rows as [|x rows IH]; simpl;
    [reflexivity|].
  destruct (String.eqb (order_id x) id); [discriminate|auto].
Qed.

Lemma update_row_id o row : order_id (update_row o row) = order_id row.
Proof. unfold update_row. now destruct (String.eqb _ _). Qed.

Lemma update_row_status o row :
  status (update_row o row)
  = if String.eqb (order_id row) (order_id o) then status o
    else status row.
Proof. unfold update_row. now destruct (String.eqb _ _). Qed.

Lemma fetch_order_update id o rows :
  fetch_order id (map (update_row o) rows)
  = option_map (update_row o) (fetch_order id rows).
Proof.
  unfold fetch_order. induction rows as [|x rows IH]; simpl;
    [reflexivity|].
  rewrite update_row_id. destruct (String.eqb (order_id x) id); auto.
Qed.

Lemma map_id_update o rows :
  map order_id (map (update_row o) rows) = map order_id rows.
Proof.
  rewrite map_map. apply map_ext. intros. apply update_row_id.
Qed.

(** The status under an id after an [UPDATE]. *)
Lemma status_after_update id o st :
  status_of id (_update_order o st)
  = option_map (fun s => if String.eqb id (order_id o) then status o else s)
               (status_of id st).
Proof.
  unfold status_of, _update_order. simpl. rewrite fetch_order_update.
  destruct (fetch_order id (orders st)) as [row|] eqn:E; simpl;
    [|reflexivity].
  apply fetch_order_some in E as [_ <-]. now rewrite update_row_status.
Qed.

Lemma status_unique st id s row :
  List.NoDup (map order_id (orders st)) ->
  status_of id st = Some s -> In row (orders st) -> order_id row = id ->
  status row = s.
Proof.
  intros Hnd Hs Hin <-. unfold status_of in Hs.
  rewrite (fetch_order_unique _ _ Hnd Hin) in Hs. simpl in Hs. congruence.
Qed.

Lemma update_events_lawful o rows :
  (forall row, In row rows -> order_id row = order_id o ->
               status row = PENDING) ->
  terminal (status o) ->
  Forall lawful (update_events o rows).
Proof.
  intros Hp Ht. unfold update_events.
  induction rows as [|x rows IH]; simpl; [constructor|].
  apply Forall_app. split.
  - destruct (String.eqb (order_id x) (order_id o)) eqn:E;
      [|constructor].
    constructor; [|constructor]. simpl. split; [|exact Ht].
    apply Hp; [now left|now apply String.eqb_eq].
  - apply IH. intros row Hin. apply Hp. now right.
Qed.

(** *** The invariant is kept by each write *)

Lemma coherent_start rows :
  List.NoDup (map order_id rows) -> coherent (mkStore rows ∅ []).
Proof.
  intros Hnd. split; [exact Hnd|]. split; [|constructor].
  intros k o H. simpl in H. rewrite lookup_empty in H. discriminate.
Qed.

Lemma coherent_store o st :
  coherent st -> fresh (order_id o) st -> status o = PENDING ->
  coherent (_store_order o st).
Proof.
  intros (Hnd & Hc & Hj) Hfresh Hp. split; [|split].
  - simpl. rewrite map_app. simpl. apply List.NoDup_rev in Hnd.
    rewrite <- (rev_involutive (map order_id (orders st) ++ _)).
    apply List.NoDup_rev. rewrite rev_app_distr. simpl.
    apply List.NoDup_cons_iff. split; [|exact Hnd].
    intros Hin. apply in_rev in Hin. apply in_map_iff in Hin
      as (row & Hid & Hin). exact (Hfresh row Hin Hid).
  - intros k o' H. simpl in H. unfold status_of. simpl.
    apply lookup_insert_Some in H as [[<- <-]|[Hne H]].
    + split; [reflexivity|].
      rewrite fetch_order_app_r, String.eqb_refl; [reflexivity|].
      destruct (fetch_order _ _) as [row|] eqn:E; [|reflexivity].
      apply fetch_order_some in E as [Hin Hid].
      now destruct (Hfresh row Hin).
    + apply Hc in H as [Hk H]. split; [exact Hk|].
      unfold status_of in H.
      destruct (fetch_order (order_id o') (orders st)) as [row|] eqn:E;
        [|discriminate].
      now rewrite (fetch_order_app_l _ _ _ _ E).
  - simpl. apply Forall_app. split; [exact Hj|].
    constructor; [exact Hp|constructor].
Qed.

Lemma coherent_update o st :
  coherent st ->
  status_of (order_id o) st = Some PENDING ->
  terminal (status o) ->
  coherent (_update_order o st).
Proof.
  intros (Hnd & Hc & Hj) Hpend Ht. split; [|split].
  - simpl. now rewrite map_id_update.
  - intros k o' H. rewrite status_after_update. simpl in H.
    apply lookup_insert_Some in H as [[<- <-]|[Hne H]].
    + split; [reflexivity|].
      rewrite Hpend. simpl. now rewrite String.eqb_refl.
    + apply Hc in H as [Hk H]. split; [exact Hk|]. rewrite H. simpl.
      destruct (String.eqb (order_id o') (order_id o)) eqn:E;
        [|reflexivity].
      apply String.eqb_eq in E. subst k. now rewrite E in Hne.
  - simpl. apply Forall_app. split; [exact Hj|].
    apply update_events_lawful; [|exact Ht].
    intros row Hin Hid. eapply status_unique; eauto.
Qed.

Lemma coherent_expire id st : coherent st -> coherent (expire id st).
Proof.
  intros (Hnd & Hc & Hj). split; [exact Hnd|]. split; [|exact Hj].
  intros k o H. simpl in H. apply lookup_delete_Some in H as [_ H].
  now apply Hc in H.
Qed.

(** What [_get_order] returns, and what it leaves behind. *)
Lemma get_order_spec id st :
  coherent st ->
  match _get_order id st with
  | (Some order, st') =>
      coherent st' /\ orders st' = orders st /\ journal st' = journal st
      /\ order_id order = id /\ status_of id st = Some (status order)
  | (None, st') => st' = st /\ status_of id st = None
  end.
Proof.
  intros Hcoh. pose proof Hcoh as (Hnd & Hc & Hj). unfold _get_order.
  destruct (redis st !! order_key id) as [cached|] eqn:Hr.
  - apply Hc in Hr as [Hk Hs]. apply order_key_inj in Hk. subst id.
    auto 6.
  - unfold status_of.
    destruct (fetch_order id (orders st)) as [row|] eqn:Hf; [|auto].
    pose proof (fetch_order_some _ _ _ Hf) as [Hin Hid].
    split; [|simpl; auto].
    split; [exact Hnd|]. split; [|exact Hj].
    intros k o H. simpl in H. unfold status_of. simpl.
    apply lookup_insert_Some in H as [[<- <-]|[Hne H]].
    + rewrite Hid, Hf. auto.
    + now apply Hc in H.
Qed.

Lemma status_of_same_orders id st st' :
  orders st' = orders st -> status_of id st' = status_of id st.
Proof. unfold status_of. now intros ->. Qed.

Lemma coherent_place request uuid now st :
  coherent st -> fresh uuid st ->
  coherent (snd (PlaceOrder env request uuid now st)).
Proof.
  intros Hcoh Hfresh. unfold PlaceOrder.
  set (o := stamp request uuid now).
  destruct (negb (valid (_validate_order o))); [exact Hcoh|].
  destruct (negb (allowed (check_order_risk env o))); [exact Hcoh|].
  assert (H1 : coherent (_store_order o st))
    by (apply coherent_store; auto).
  assert (Hp : status_of uuid (_store_order o st) = Some PENDING).
  { destruct H1 as (_ & Hc & _).
    apply (Hc (order_key uuid) o). simpl. apply lookup_insert_eq. }
  destruct (_execute_order (send_transaction env) o); simpl;
    apply coherent_update; simpl; unfold terminal; auto.
Qed.

Lemma coherent_cancel id st :
  coherent st -> coherent (snd (CancelOrder id st)).
Proof.
  intros Hcoh. pose proof (get_order_spec id st Hcoh) as Hg.
  unfold CancelOrder.
  destruct (_get_order id st) as [[order|] st'].
  - destruct Hg as (Hcoh' & Ho & Hj & Hid & Hs).
    destruct (OrderStatus_eqb (status order) PENDING) eqn:E; simpl;
      [|exact Hcoh'].
    apply OrderStatus_eqb_eq in E.
    apply coherent_update; simpl; unfold terminal; auto.
    rewrite Hid, (status_of_same_orders _ _ _ Ho), Hs. now rewrite E.
  - destruct Hg as [-> _]. exact Hcoh.
Qed.

Lemma coherent_handle r st :
  coherent st -> permitted r st -> coherent (handle env r st).
Proof.
  intros Hcoh Hp. destruct r as [request uuid now|id|id|id]; simpl.
  - now apply coherent_place.
  - now apply coherent_cancel.
  - pose proof (get_order_spec id st Hcoh) as Hg. unfold GetOrder.
    destruct (_get_order id st) as [[order|] st']; simpl.
    + now destruct Hg.
    + now destruct Hg as [-> _].
  - now apply coherent_expire.
Qed.

Lemma reachable_coherent st : reachable env st -> coherent st.
Proof.
  induction 1 as [rows Hnd|st r _ IH Hp]; [now apply coherent_start|].
  now apply coherent_handle.
Qed.

(** One request moves the status of a stored order along the allowed
    transitions only. *)
Lemma handle_moves r st id s :
  coherent st -> permitted r st -> status_of id st = Some s ->
  exists s', status_of id (handle env r st) = Some s' /\ moves s s'.
Proof.
  intros Hcoh Hp Hs. unfold moves.
  destruct r as [request uuid now|id0|id0|id0]; simpl.
  - unfold PlaceOrder. set (o := stamp request uuid now).
    destruct (negb (valid (_validate_order o))); [eauto|].
    destruct (negb (allowed (check_order_risk env o))); [eauto|].
    assert (Hne : String.eqb id uuid = false).
    { apply String.eqb_neq. intros ->. unfold status_of in Hs.
      destruct (fetch_order uuid (orders st)) as [row|] eqn:E;
        [|discriminate].
      apply fetch_order_some in E as [Hin Hid]. exact (Hp row Hin Hid). }
    assert (H1 : status_of id (_store_order o st) = Some s).
    { unfold status_of in *. simpl.
      destruct (fetch_order id (orders st)) as [row|] eqn:E;
        [|discriminate].
      now rewrite (fetch_order_app_l _ _ _ _ E). }
    destruct (_execute_order (send_transaction env) o); simpl;
      rewrite status_after_update, H1; simpl; rewrite Hne; eauto.
  - pose proof (get_order_spec id0 st Hcoh) as Hg. unfold CancelOrder.
    destruct (_get_order id0 st) as [[order|] st'].
    + destruct Hg as (Hcoh' & Ho & Hj & Hid & Hs0).
      destruct (OrderStatus_eqb (status order) PENDING) eqn:E; simpl.
      * apply OrderStatus_eqb_eq in E.
        rewrite status_after_update, (status_of_same_orders _ _ _ Ho), Hs.
        simpl. rewrite Hid.
        destruct (String.eqb id id0) eqn:Eid; [|eauto].
        apply String.eqb_eq in Eid. subst id0.
        exists CANCELLED. split; [reflexivity|]. right.
        unfold terminal. split; [congruence|auto].
      * rewrite (status_of_same_orders _ _ _ Ho). eauto.
    + destruct Hg as [-> _]. eauto.
  - pose proof (get_order_spec id0 st Hcoh) as Hg. unfold GetOrder.
    destruct (_get_order id0 st) as [[order|] st']; simpl.
    + destruct Hg as (_ & Ho & _).
      rewrite (status_of_same_orders _ _ _ Ho). eauto.
    + destruct Hg as [-> _]. eauto.
  - eauto.
Qed.

Lemma cancel_non_pending id s st :
  coherent st -> status_of id st = Some s -> s <> PENDING ->
  success (fst (CancelOrder id st)) = false /\
  message (fst (CancelOrder id st)) = "Order cannot be cancelled" /\
  orders (snd (CancelOrder id st)) = orders st /\
  journal (snd (CancelOrder id st)) = journal st /\
  status_of id (snd (CancelOrder id st)) = Some s.
Proof.
  intros Hcoh Hs Hne. pose proof (get_order_spec id st Hcoh) as Hg.
  unfold CancelOrder.
  destruct (_get_order id st) as [[order|] st'].
  - destruct Hg as (_ & Ho & Hj & _ & Hs0).
    assert (Hstat : status order = s) by congruence.
    destruct (OrderStatus_eqb (status order) PENDING) eqn:E.
    + apply OrderStatus_eqb_eq in E. congruence.
    + simpl. rewrite (status_of_same_orders _ _ _ Ho). auto.
  - destruct Hg as [_ Hnone]. congruence.
Qed.

End OrderLifecycle.

Section OrderLifecycleExamples.
Import TradingService Lifecycle.

(** Scenario A of the specification: the order is executed, with a
    signature; the two statuses written are pending, then executed. *)
Example scenario_A :
  let r := PlaceOrder Samples.permissive Samples.a_request "id-1"
                      1700000000 empty_store in
  success (fst r) = true /\ resp_signature (fst r) = "sig-1" /\
  map status (orders (snd r)) = [EXECUTED] /\
  journal (snd r)
  = [Inserted "id-1" PENDING; Updated "id-1" PENDING EXECUTED].
Proof. vm_compute. auto. Qed.

(** A pending order left by an earlier run is cancelled: pending to
    cancelled, and a second cancellation fails. *)
Example cancel_pending_then_again :
  let r1 := CancelOrder "o-2" Samples.mixed_store in
  let r2 := CancelOrder "o-2" (snd r1) in
  success (fst r1) = true /\
  journal (snd r1) = [Updated "o-2" PENDING CANCELLED] /\
  success (fst r2) = false /\
  message (fst r2) = "Order cannot be cancelled" /\
  map status (orders (snd r2)) = [CANCELLED; EXECUTED].
Proof. vm_compute. auto 6. Qed.

End OrderLifecycleExamples.

(** ** The path of an accepted order *)

Section Acceptance.
Import TradingService Lifecycle.

Lemma update_row_other o rows :
  (forall row, In row rows -> order_id row <> order_id o) ->
  map (update_row o) rows = rows.
Proof.
  induction rows as [|x rows IH]; intros H; [reflexivity|].
  simpl. rewrite IH by (intros row Hin; apply H; now right).
  f_equal. unfold update_row.
  destruct (String.eqb (order_id x) (order_id o)) eqn:E; [|reflexivity].
  apply String.eqb_eq in E. destruct (H x (or_introl eq_refl) E).
Qed.

Lemma update_events_other o rows :
  (forall row, In row rows -> order_id row <> order_id o) ->
  update_events o rows = [].
Proof.
  induction rows as [|x rows IH]; intros H; [reflexivity|].
  unfold update_events in *. simpl.
  rewrite IH by (intros row Hin; apply H; now right).
  destruct (String.eqb (order_id x) (order_id o)) eqn:E; [|reflexivity].
  apply String.eqb_eq in E. destruct (H x (or_introl eq_refl) E).
Qed.

(** X1.  An order that passes validation and the risk check, placed under
    an id no stored order carries, adds exactly one row to the table, after
    the rows already there.  The row carries the new id, the time of the
    request and the request's mint, amount and wallet; the cache holds the
    same order under its key and [GetOrder] returns it.  When the chain
    client settles the transaction the row is executed with the
    signature, price and amount of the settlement and the response is the
    success response with the new id; otherwise the row is failed and the
    response is a failure that quotes the error. *)
Theorem accepted_order_is_stored_once
  (env : Collaborators) (request : Order) (uuid : string) (now : Z)
  (st : Store) :
  valid (_validate_order (stamp request uuid now)) = true ->
  allowed (check_order_risk env (stamp request uuid now)) = true ->
  fresh uuid st ->
  let r := PlaceOrder env request uuid now st in
  exists row,
    orders (snd r) = (orders st ++ [row])%list /\
    redis (snd r) !! order_key uuid = Some row /\
    fst (GetOrder uuid (snd r)) = Some row /\
    order_id row = uuid /\ timestamp row = now /\
    token_mint row = token_mint request /\
    amount row = amount request /\
    wallet_address row = wallet_address request /\
    match send_transaction env (stamp request uuid now) with
    | TxSuccess sig price amt units cost =>
        fst r = mkOrderResponse true "Order executed successfully" uuid
                                sig units cost /\
        status row = EXECUTED /\ signature row = sig /\
        executed_price row = price /\ executed_amount row = amt
    | TxFailure error | TxRaised error =>
        fst r = failure ("Order execution failed: " ++ error) /\
        status row = FAILED
    end.
Proof.
  intros Hv Ha Hf r. subst r. unfold PlaceOrder, _execute_order.
  rewrite Hv, Ha. cbn [negb].
  assert (Hother : forall o, order_id o = uuid ->
            map (update_row o) (orders st) = orders st).
  { intros o Ho. apply update_row_other. intros row Hin.
    rewrite Ho. now apply Hf. }
  assert (Hrows : forall o',
            order_id o' = uuid ->
            update_row o' (stamp request uuid now) = o' ->
            map (update_row o')
                (orders st ++ [stamp request uuid now])%list
            = (orders st ++ [o'])%list).
  { intros o' Ho Hu. rewrite map_app, (Hother o' Ho). simpl.
    now rewrite Hu. }
  assert (Hu : forall o',
            order_id o' = uuid ->
            update_row o' (stamp request uuid now)
            = mkOrder uuid (token_mint request) (amount request)
                      (order_type request) (slippage request)
                      (priority_fee request) (compute_unit_limit request)
                      (cluster request) (wallet_address request)
                      (status o') now (executed_price o')
                      (executed_amount o') (signature o')).
  { intros o' Ho. unfold update_row. cbn [stamp order_id]. rewrite Ho.
    now rewrite String.eqb_refl. }
  destruct (send_transaction env (stamp request uuid now))
    as [sig price amt units cost|error|error].
  - exists (set_execution (stamp request uuid now) sig price amt).
    cbn [fst snd _update_order _store_order orders redis].
    rewrite Hrows by (try apply Hu; reflexivity).
    split; [reflexivity|]. split; [apply lookup_insert_eq|].
    split; [unfold GetOrder, _get_order, _update_order; cbn [redis];
            rewrite lookup_insert_eq; reflexivity|].
    cbn. auto 10.
  - exists (set_status (stamp request uuid now) FAILED).
    cbn [fst snd _update_order _store_order orders redis].
    rewrite Hrows by (try apply Hu; reflexivity).
    split; [reflexivity|]. split; [apply lookup_insert_eq|].
    split; [unfold GetOrder, _get_order, _update_order; cbn [redis];
            rewrite lookup_insert_eq; reflexivity|].
    cbn. auto 10.
  - exists (set_status (stamp request uuid now) FAILED).
    cbn [fst snd _update_order _store_order orders redis].
    rewrite Hrows by (try apply Hu; reflexivity).
    split; [reflexivity|]. split; [apply lookup_insert_eq|].
    split; [unfold GetOrder, _get_order, _update_order; cbn [redis];
            rewrite lookup_insert_eq; reflexivity|].
    cbn. auto 10.
Qed.

Lemma accepted_order_is_stored_once_witness :
  exists row,
    orders (snd (PlaceOrder Samples.permissive Samples.a_request "id-1"
                            1700000000 empty_store)) = [row] /\
    status row = EXECUTED.
Proof.
  destruct (accepted_order_is_stored_once
              Samples.permissive Samples.a_request "id-1" 1700000000
              empty_store)
    as (row & Ho & _ & _ & _ & _ & _ & _ & _ & Hm).
  - vm_compute. reflexivity.
  - reflexivity.
  - intros row [].
  - exists row. split; [exact Ho|]. simpl in Hm. apply Hm.
Defined.

End Acceptance.

(** ** The cache and the table *)

Section CacheTransparency.
Import TradingService Lifecycle Measures.

Variable env : Collaborators.

Lemma mirrors_store o st :
  cache_mirrors st -> fresh (order_id o) st ->
  cache_mirrors (_store_order o st).
Proof.
  intros Hm Hfresh k o' H. simpl in H. simpl.
  apply lookup_insert_Some in H as [[<- <-]|[Hne H]].
  - rewrite fetch_order_app_r, String.eqb_refl; [reflexivity|].
    destruct (fetch_order _ _) as [row|] eqn:E; [|reflexivity].
    apply fetch_order_some in E as [Hin Hid]. now destruct (Hfresh row Hin).
  - apply Hm in H. now rewrite (fetch_order_app_l _ _ _ _ H).
Qed.

Lemma mirrors_update o st row :
  coherent st -> cache_mirrors st ->
  fetch_order (order_id o) (orders st) = Some row ->
  update_row o row = o ->
  cache_mirrors (_update_order o st).
Proof.
  intros (Hnd & Hc & _) Hm Hf Hu k o' H. simpl in H. simpl.
  rewrite fetch_order_update.
  apply lookup_insert_Some in H as [[<- <-]|[Hne H]].
  - rewrite Hf. simpl. now rewrite Hu.
  - pose proof (Hc _ _ H) as [Hk _]. apply Hm in H. rewrite H. simpl.
    unfold update_row.
    destruct (String.eqb (order_id o') (order_id o)) eqn:E; [|reflexivity].
    apply String.eqb_eq in E. subst k. now rewrite E in Hne.
Qed.

Lemma get_order_mirrors id st :
  coherent st -> cache_mirrors st ->
  match _get_order id st with
  | (Some order, st') =>
      cache_mirrors st' /\ fetch_order id (orders st) = Some order
  | (None, st') => st' = st
  end.
Proof.
  intros (Hnd & Hc & _) Hm. unfold _get_order.
  destruct (redis st !! order_key id) as [cached|] eqn:Hr.
  - split; [exact Hm|]. pose proof (Hc _ _ Hr) as [Hk _].
    apply order_key_inj in Hk. subst id. now apply Hm in Hr.
  - destruct (fetch_order id (orders st)) as [row|] eqn:Hf; [|reflexivity].
    split; [|reflexivity].
    intros k o H. simpl in H. simpl.
    apply lookup_insert_Some in H as [[<- <-]|[Hne H]].
    + apply fetch_order_some in Hf as Hf'. destruct Hf' as [_ Hid].
      now rewrite Hid.
    + now apply Hm in H.
Qed.

Lemma mirrors_place request uuid now st :
  coherent st -> cache_mirrors st -> fresh uuid st ->
  cache_mirrors (snd (PlaceOrder env request uuid now st)).
Proof.
  intros Hcoh Hm Hfresh. unfold PlaceOrder.
  set (o := stamp request uuid now).
  destruct (negb (valid (_validate_order o))); [exact Hm|].
  destruct (negb (allowed (check_order_risk env o))); [exact Hm|].
  assert (H1 : coherent (_store_order o st))
    by (apply coherent_store; auto).
  assert (H2 : cache_mirrors (_store_order o st))
    by (apply mirrors_store; auto).
  assert (Hf : fetch_order uuid (orders (_store_order o st)) = Some o).
  { apply (H2 (order_key uuid) o). simpl. apply lookup_insert_eq. }
  destruct (_execute_order (send_transaction env) o); simpl;
    (eapply mirrors_update; [exact H1|exact H2|exact Hf|]);
    unfold update_row; cbn; rewrite String.eqb_refl; reflexivity.
Qed.

Lemma mirrors_cancel id st :
  coherent st -> cache_mirrors st ->
  cache_mirrors (snd (CancelOrder id st)).
Proof.
  intros Hcoh Hm. pose proof (get_order_spec id st Hcoh) as Hg.
  pose proof (get_order_mirrors id st Hcoh Hm) as Hg'.
  unfold CancelOrder.
  destruct (_get_order id st) as [[order|] st'].
  - destruct Hg as (Hcoh' & Ho & Hj & Hid & Hs). destruct Hg' as [Hm' Hf].
    destruct (OrderStatus_eqb (status order) PENDING); simpl;
      [|exact Hm'].
    eapply mirrors_update; [exact Hcoh'|exact Hm'| |].
    + simpl. rewrite Hid, Ho. exact Hf.
    + unfold update_row. cbn. rewrite String.eqb_refl.
      now destruct order.
  - subst st'. exact Hm.
Qed.

Lemma mirrors_handle r st :
  coherent st -> cache_mirrors st -> permitted r st ->
  cache_mirrors (handle env r st).
Proof.
  intros Hcoh Hm Hp. destruct r as [request uuid now|id|id|id]; simpl.
  - now apply mirrors_place.
  - now apply mirrors_cancel.
  - pose proof (get_order_mirrors id st Hcoh Hm) as Hg. unfold GetOrder.
    destruct (_get_order id st) as [[order|] st']; simpl.
    + now destruct Hg.
    + now subst st'.
  - intros k o H. simpl in H. apply lookup_delete_Some in H as [_ H].
    now apply Hm in H.
Qed.

Lemma reachable_mirrors st : reachable env st -> cache_mirrors st.
Proof.
  induction 1 as [rows Hnd|st r Hr IH Hp].
  - intros k o H. simpl in H. rewrite lookup_empty in H. discriminate.
  - apply mirrors_handle; auto. now apply (reachable_coherent env).
Qed.

(** After a serial run an order held by the cache is equal, field for
    field, to the row of the table with its id; so [GetOrder] returns the
    same order whether the cache entry of that id is still there or has
    expired. *)
Lemma serial_cache_mirrors (st : Store) (id : string) :
  reachable env st ->
  cache_mirrors st /\
  fst (GetOrder id (expire id st)) = fst (GetOrder id st).
Proof.
  intros Hreach. pose proof (reachable_mirrors st Hreach) as Hm.
  pose proof (reachable_coherent env st Hreach) as (_ & Hc & _).
  split; [exact Hm|].
  unfold GetOrder, _get_order, expire. cbn [redis orders].
  rewrite lookup_delete_eq.
  destruct (redis st !! order_key id) as [cached|] eqn:Hr.
  - pose proof (Hc _ _ Hr) as [Hk _]. apply order_key_inj in Hk.
    apply Hm in Hr. rewrite <- Hk in Hr. now rewrite Hr.
  - now destruct (fetch_order id (orders st)).
Qed.

(** X3.  In every state the service reaches, a request about an id that no
    row of the table carries finds nothing: [GetOrder] has no order to
    return, [CancelOrder] answers "Order not found", and neither changes
    the table, the cache or the record of the statuses written. *)
Theorem unknown_order_is_not_found (st : Store) (id : string) :
  reachable env st -> status_of id st = None ->
  GetOrder id st = (None, st) /\
  CancelOrder id st = (failure "Order not found", st).
Proof.
  intros Hreach Hs. apply (reachable_coherent env) in Hreach.
  pose proof (get_order_spec id st Hreach) as Hg.
  unfold GetOrder, CancelOrder.
  destruct (_get_order id st) as [[order|] st'].
  - destruct Hg as (_ & _ & _ & _ & Hs'). congruence.
  - destruct Hg as [-> _]. auto.
Qed.

Lemma update_events_unique o rows row :
  List.NoDup (map order_id rows) ->
  fetch_order (order_id o) rows = Some row ->
  update_events o rows = [Updated (order_id o) (status row) (status o)].
Proof.
  induction rows as [|x rows IH]; intros Hnd Hf; [discriminate|].
  simpl in Hnd. apply List.NoDup_cons_iff in Hnd as [Hx Hnd].
  unfold fetch_order in Hf. simpl in Hf.
  change (update_events o (x :: rows))
    with ((if String.eqb (order_id x) (order_id o)
           then [Updated (order_id x) (status x) (status o)]
           else []) ++ update_events o rows)%list.
  destruct (String.eqb (order_id x) (order_id o)) eqn:E.
  - apply String.eqb_eq in E. injection Hf as <-.
    rewrite update_events_other, E; [reflexivity|].
    intros row Hin Hid. apply Hx. rewrite E, <- Hid.
    now apply in_map.
  - now apply IH.
Qed.

(** X4.  In every state the service reaches, cancelling an order whose row
    is pending succeeds: the row becomes cancelled, every other order
    keeps its status, no row is added or removed, and exactly one status
    change, from pending to cancelled, is written. *)
Theorem pending_order_is_cancelled (st : Store) (id : string) :
  reachable env st -> status_of id st = Some PENDING ->
  let r := CancelOrder id st in
  fst r = mkOrderResponse true "Order cancelled successfully" "" "" 0 0 /\
  status_of id (snd r) = Some CANCELLED /\
  (forall id', id' <> id -> status_of id' (snd r) = status_of id' st) /\
  map order_id (orders (snd r)) = map order_id (orders st) /\
  journal (snd r) = (journal st ++ [Updated id PENDING CANCELLED])%list.
Proof.
  intros Hreach Hs r. subst r. apply (reachable_coherent env) in Hreach.
  pose proof (get_order_spec id st Hreach) as Hg.
  unfold CancelOrder.
  destruct (_get_order id st) as [[order|] st'].
  - destruct Hg as ((Hnd' & _) & Ho & Hj & Hid & Hs0).
    assert (Hp : status order = PENDING) by congruence.
    rewrite Hp. cbn [OrderStatus_eqb negb _cancel_order_on_solana fst snd].
    split; [reflexivity|]. split; [|split; [|split]].
    + rewrite status_after_update, (status_of_same_orders _ _ _ Ho), Hs.
      cbn. now rewrite Hid, String.eqb_refl.
    + intros id' Hne.
      rewrite status_after_update, (status_of_same_orders _ _ _ Ho).
      destruct (status_of id' st); [|reflexivity]. cbn. rewrite Hid.
      apply String.eqb_neq in Hne. now rewrite Hne.
    + cbn [_update_order orders]. now rewrite map_id_update, Ho.
    + cbn [_update_order journal]. rewrite Hj. f_equal.
      unfold status_of in Hs. rewrite <- Ho in Hs.
      destruct (fetch_order id (orders st')) as [row|] eqn:Hf;
        [|discriminate].
      injection Hs as Hrow.
      rewrite (update_events_unique _ _ row); cbn; rewrite ?Hid; auto.
      now rewrite Hrow.
  - destruct Hg as [_ Hnone]. congruence.
Qed.

End CacheTransparency.

Section CacheTransparencyExamples.
Import TradingService Lifecycle Measures.

Lemma after_one_order_reachable :
  reachable Samples.permissive Samples.after_one_order.
Proof.
  apply (reach_step Samples.permissive empty_store
           (ReqPlace Samples.a_request "id-1" 1700000000)).
  - apply (reach_start Samples.permissive []). constructor.
  - intros row [].
Defined.

Lemma mixed_store_reachable :
  reachable Samples.permissive Samples.mixed_store.
Proof.
  apply (reach_start Samples.permissive
           [Samples.a_pending_order; Samples.a_sale]).
  repeat constructor; simpl; intuition discriminate.
Defined.

Lemma unknown_order_is_not_found_witness :
  CancelOrder "id-2" Samples.after_one_order
  = (failure "Order not found", Samples.after_one_order).
Proof.
  apply (unknown_order_is_not_found Samples.permissive
           Samples.after_one_order "id-2").
  - exact after_one_order_reachable.
  - reflexivity.
Defined.

Lemma pending_order_is_cancelled_witness :
  status_of "o-2" (snd (CancelOrder "o-2" Samples.mixed_store))
  = Some CANCELLED.
Proof.
  apply (pending_order_is_cancelled Samples.permissive
           Samples.mixed_store "o-2").
  - exact mixed_store_reachable.
  - reflexivity.
Defined.

End CacheTransparencyExamples.

(** ** Interleaved requests *)

Section Interleaving.
Import TradingService Async.

Variable env : Collaborators.

Lemma alone_bind {A B} (t : Task A) (f : A -> Task B) st :
  alone (bind t f) st = alone (f (fst (alone t st))) (snd (alone t st)).
Proof.
  revert st. induction t as [a|o k IH|o k IH|i k IH|key o k IH|key k IH];
    intros st; cbn; auto.
Qed.

(** Served alone, the coroutines are the handlers of [TradingService]. *)
Lemma store_order_alone o st :
  alone (_store_order o) st = (tt, TradingService._store_order o st).
Proof. reflexivity. Qed.

Lemma update_order_alone o st :
  alone (_update_order o) st = (tt, TradingService._update_order o st).
Proof. reflexivity. Qed.

Lemma get_order_alone id st :
  alone (_get_order id) st = TradingService._get_order id st.
Proof.
  unfold _get_order, TradingService._get_order. cbn.
  destruct (redis st !! order_key id); [reflexivity|]. cbn.
  destruct (fetch_order id (orders st)); reflexivity.
Qed.

Lemma PlaceOrder_alone request uuid now st :
  alone (PlaceOrder env request uuid now) st
  = TradingService.PlaceOrder env request uuid now st.
Proof.
  unfold PlaceOrder, TradingService.PlaceOrder.
  destruct (negb (valid _)); [reflexivity|].
  destruct (negb (allowed _)); [reflexivity|].
  rewrite alone_bind, store_order_alone. cbn [fst snd].
  destruct (_execute_order _ _); rewrite alone_bind, update_order_alone;
    reflexivity.
Qed.

Lemma CancelOrder_alone id st :
  alone (CancelOrder id) st = TradingService.CancelOrder id st.
Proof.
  unfold CancelOrder, TradingService.CancelOrder.
  rewrite alone_bind, get_order_alone.
  destruct (TradingService._get_order id st) as [[order|] st'];
    cbn [fst snd]; [|reflexivity].
  destruct (negb (OrderStatus_eqb (status order) PENDING)); [reflexivity|].
  cbn. reflexivity.
Qed.

Lemma GetOrder_alone id st :
  alone (GetOrder id) st = TradingService.GetOrder id st.
Proof. apply get_order_alone. Qed.


(** *** Serial runs are schedules *)

Lemma insert_last {X} (l : list X) (x y : X) :
  <[List.length l := y]> (l ++ [x])%list = (l ++ [y])%list.
Proof.
  rewrite insert_app_r_alt by reflexivity. now rewrite Nat.sub_diag.
Qed.

Lemma lookup_last {X} (l : list X) (x : X) :
  (l ++ [x])%list !! List.length l = Some x.
Proof. now apply list_lookup_middle. Qed.

Lemma alone_reachable {A} (t : Task A) st before :
  reachable env (mkConfig st (before ++ [job t])) ->
  reachable env
    (mkConfig (snd (alone t st))
              (before ++ [job (Return (fst (alone t st)))])).
Proof.
  revert st.
  assert (Hstep : forall st (t t' : Task A) st',
            perform t st = Some (t', st') ->
            reachable env (mkConfig st (before ++ [job t])) ->
            reachable env (mkConfig st' (before ++ [job t']))).
  { intros st t1 t' st' Hp Hr.
    rewrite <- (insert_last before (job t1) (job t')).
    apply (reach_step env _ _ Hr).
    apply (step_perform env (mkConfig st (before ++ [job t1]))
                        (List.length before) A t1 t' st');
      [apply lookup_last|exact Hp]. }
  induction t as [a|o k IH|o k IH|i k IH|key o k IH|key k IH];
    intros st Hr; cbn [alone]; [exact Hr|..];
    (apply IH || apply (IH _)); eapply Hstep; eauto; reflexivity.
Qed.

Lemma returned_idle (j : Job) id :
  returned j -> ~ creates id (projT2 j) /\ ~ settles id (projT2 j).
Proof.
  destruct j as [A t]. unfold returned. cbn.
  destruct t; intros []. split; intros H; inversion H.
Qed.

Lemma returned_last {A} (a : A) (l : list Job) :
  Forall returned l -> Forall returned (l ++ [job (Return a)]).
Proof.
  intros H. apply Forall_app. split; [exact H|].
  constructor; [exact I|constructor].
Qed.

(** A run in which each request is served before the next one arrives is
    a schedule of the coroutines, which leaves no handler in flight. *)
Lemma serial_run_is_a_schedule st :
  Lifecycle.reachable env st ->
  exists l, reachable env (mkConfig st l) /\ Forall returned l.
Proof.
  induction 1 as [rows Hnd|st r _ (l & Hr & Hl) Hp].
  - exists []. split; [now constructor|constructor].
  - destruct r as [request uuid now|id|id|id]; cbn [Lifecycle.handle].
    + rewrite <- PlaceOrder_alone. eexists. split.
      * apply alone_reachable. apply (reach_step env _ _ Hr).
        apply (step_place env (mkConfig st l)). split; [exact Hp|].
        intros j Hin. apply returned_idle.
        now apply (proj1 (List.Forall_forall _ _) Hl).
      * now apply returned_last.
    + rewrite <- CancelOrder_alone. eexists. split.
      * apply alone_reachable. apply (reach_step env _ _ Hr).
        apply (step_cancel env (mkConfig st l)).
      * now apply returned_last.
    + rewrite <- GetOrder_alone. eexists. split.
      * apply alone_reachable. apply (reach_step env _ _ Hr).
        apply (step_get env (mkConfig st l)).
      * now apply returned_last.
    + exists l. split; [|exact Hl].
      apply (reach_step env _ _ Hr).
      apply (step_expire env (mkConfig st l)).
Qed.

Lemma move_reachable m c : reachable env c -> reachable env (move m c).
Proof.
  intros Hr. destruct m as [id|id|position|id]; cbn [move].
  - apply (reach_step env _ _ Hr), step_cancel.
  - apply (reach_step env _ _ Hr), step_get.
  - destruct (pool c !! position) as [[A t]|] eqn:Hl; [|exact Hr].
    destruct (perform t (store c)) as [[t' st']|] eqn:Hp; [|exact Hr].
    apply (reach_step env _ _ Hr).
    now apply (step_perform env c position A t t' st').
  - apply (reach_step env _ _ Hr), step_expire.
Qed.

Lemma play_reachable moves c :
  reachable env c -> reachable env (play moves c).
Proof.
  revert c. induction moves as [|m moves IH]; intros c Hr; [exact Hr|].
  cbn. apply IH. now apply move_reachable.
Qed.

(** *** The invariant of the schedules *)

Lemma placing_uses {A} id b (t : Task A) :
  placing id b t -> creates id t \/ settles id t.
Proof.
  induction 1 as [o k Hid Hs Hk IH|b key o k Hk IH|o k Hid Hs Hk].
  - left. now constructor.
  - destruct IH; [left|right]; now constructor.
  - right. apply settles_here; [exact Hid|]. destruct Hs as [-> | ->];
      discriminate.
Qed.

Lemma bystander_not_placing {A} id b (t : Task A) :
  bystander t -> placing id b t -> False.
Proof.
  intros Hb Hp.
  induction Hp as [o k Hid Hs Hk IH|b key o k Hk IH|o k Hid Hs Hk];
    inversion Hb; subst; auto.
  destruct Hs; congruence.
Qed.

Lemma placing_same {A} id id' b b' (t : Task A) :
  placing id b t -> placing id' b' t -> id = id' /\ b = b'.
Proof.
  intros Hp. revert id' b'.
  induction Hp as [o k Hid Hs Hk IH|b key o k Hk IH|o k Hid Hs Hk];
    intros id' b' Hp'; inversion Hp'; subst; auto.
Qed.

Lemma bystander_bind {A B} (t : Task A) (f : A -> Task B) :
  bystander t -> (forall a, bystander (f a)) -> bystander (bind t f).
Proof.
  intros Ht Hf. induction Ht; cbn; try constructor; auto.
Qed.

Lemma get_order_bystander id : bystander (_get_order id).
Proof.
  unfold _get_order. cbn. constructor. intros [order|]; cbn.
  - constructor.
  - constructor. intros [order|]; cbn; repeat constructor.
Qed.

Lemma CancelOrder_bystander id : bystander (CancelOrder id).
Proof.
  unfold CancelOrder. apply bystander_bind; [apply get_order_bystander|].
  intros [order|]; [|constructor].
  destruct (negb (OrderStatus_eqb (status order) PENDING)); [constructor|].
  cbn. repeat constructor.
Qed.

Lemma PlaceOrder_placing request uuid now :
  bystander (PlaceOrder env request uuid now) \/
  placing uuid false (PlaceOrder env request uuid now).
Proof.
  unfold PlaceOrder.
  destruct (negb (valid _)); [left; constructor|].
  destruct (negb (allowed _)); [left; constructor|].
  right. cbn.
  destruct (_execute_order _ _); cbn;
    (constructor; [reflexivity|reflexivity|]);
    constructor; constructor; cbn; auto; repeat constructor.
Qed.

(** An update to cancelled keeps the rows of every order awaiting. *)
Lemma awaiting_cancel o st id b :
  status o = CANCELLED -> awaiting st id b ->
  awaiting (mkStore (map (update_row o) (orders st)) (redis st)
                    (journal st ++ update_events o (orders st))%list) id b.
Proof.
  intros Hc Ha row' Hin Hid. cbn in Hin.
  apply in_map_iff in Hin as (row & <- & Hin).
  rewrite update_row_id in Hid. destruct (Ha row Hin Hid) as [Hb Hs].
  split; [exact Hb|]. rewrite update_row_status.
  destruct (String.eqb _ _); auto.
Qed.

Lemma update_events_admissible o rows :
  (status o = CANCELLED \/
   ((status o = EXECUTED \/ status o = FAILED) /\
    forall row, In row rows -> order_id row = order_id o ->
                status row = PENDING \/ status row = CANCELLED)) ->
  Forall admissible (update_events o rows).
Proof.
  intros H. unfold update_events.
  induction rows as [|x rows IH]; cbn; [constructor|].
  apply Forall_app. split.
  - destruct (String.eqb (order_id x) (order_id o)) eqn:E; [|constructor].
    apply String.eqb_eq in E. constructor; [|constructor]. cbn.
    destruct H as [H|[H Hrows]]; [now left|right].
    split; [exact H|]. apply Hrows; [now left|exact E].
  - apply IH. destruct H as [H|[H Hrows]]; [now left|right].
    split; [exact H|]. intros row Hin. apply Hrows. now right.
Qed.

Lemma perform_bystander {A} (t t' : Task A) st st' :
  bystander t -> perform t st = Some (t', st') ->
  bystander t' /\
  map order_id (orders st') = map order_id (orders st) /\
  (Forall admissible (journal st) -> Forall admissible (journal st')) /\
  (forall id b, awaiting st id b -> awaiting st' id b).
Proof.
  intros Hb Hp.
  destruct Hb as [a|o k Hs Hk|i k Hk|key o k Hk|key k Hk]; cbn in Hp;
    try discriminate; injection Hp as <- <-; cbn [orders journal];
    auto.
  split; [exact Hk|]. split; [apply map_id_update|]. split.
  - intros Hj. apply Forall_app. split; [exact Hj|].
    apply update_events_admissible. now left.
  - intros id b. now apply awaiting_cancel.
Qed.

Lemma update_row_other_id o row :
  order_id row <> order_id o -> update_row o row = row.
Proof.
  intros Hne. unfold update_row.
  apply String.eqb_neq in Hne. now rewrite Hne.
Qed.

Lemma perform_placing {A} id b (t t' : Task A) st st' :
  placing id b t -> awaiting st id b ->
  List.NoDup (map order_id (orders st)) ->
  perform t st = Some (t', st') ->
  (bystander t' \/ exists b', placing id b' t' /\ awaiting st' id b') /\
  List.NoDup (map order_id (orders st')) /\
  (Forall admissible (journal st) -> Forall admissible (journal st')) /\
  (forall id' b', id' <> id -> awaiting st id' b' -> awaiting st' id' b').
Proof.
  intros Hpl Ha Hnd Hp.
  destruct Hpl as [o k Hid Hs Hk|b key o k Hk|o k Hid Hs Hk]; cbn in Hp;
    injection Hp as <- <-; cbn [orders journal].
  - (* the insert *)
    split; [|split; [|split]].
    + right. exists true. split; [exact Hk|].
      intros row Hin Hrow. cbn in Hin.
      apply in_app_or in Hin as [Hin|[<-|[]]].
      * now destruct (Ha row Hin Hrow).
      * auto.
    + rewrite map_app. cbn. apply List.NoDup_rev in Hnd.
      rewrite <- (rev_involutive (map order_id (orders st) ++ _)).
      apply List.NoDup_rev. rewrite rev_app_distr. cbn.
      apply List.NoDup_cons_iff. split; [|exact Hnd].
      intros Hin. apply in_rev, in_map_iff in Hin as (row & Hrow & Hin).
      rewrite Hid in Hrow. now destruct (Ha row Hin Hrow).
    + intros Hj. apply Forall_app. split; [exact Hj|].
      constructor; [exact Hs|constructor].
    + intros id' b' Hne Ha' row Hin Hrow. cbn in Hin.
      apply in_app_or in Hin as [Hin|[<-|[]]]; [now apply Ha'|].
      congruence.
  - (* a write of the cache *)
    split; [right; exists b; split; [exact Hk|exact Ha]|].
    split; [exact Hnd|]. split; [auto|]. intros id' b' _ Ha'. exact Ha'.
  - (* the update *)
    split; [now left|]. split; [now rewrite map_id_update|]. split.
    + intros Hj. apply Forall_app. split; [exact Hj|].
      apply update_events_admissible. right. split; [exact Hs|].
      intros row Hin Hrow. rewrite Hid in Hrow.
      now destruct (Ha row Hin Hrow).
    + intros id' b' Hne Ha' row' Hin Hrow. cbn in Hin.
      apply in_map_iff in Hin as (row & <- & Hin).
      rewrite update_row_id in Hrow.
      rewrite update_row_other_id by congruence. now apply Ha'.
Qed.

Lemma awaiting_same_rows st st' id b :
  orders st' = orders st -> awaiting st id b -> awaiting st' id b.
Proof. unfold awaiting. now intros ->. Qed.

Lemma lookup_In {X} (l : list X) i x : l !! i = Some x -> In x l.
Proof.
  revert i. induction l as [|y l IH]; intros [|i] H; cbn in H;
    try discriminate.
  - left. congruence.
  - right. eauto.
Qed.

Lemma step_orderly c c' : orderly c -> step env c c' -> orderly c'.
Proof.
  intros (Hnd & Hj & Hroles & Hapart) Hstep.
  assert (Harrive : forall (j : Job),
            (bystander (projT2 j) \/
             exists id,
               placing id false (projT2 j) /\ fresh id c) ->
            orderly (mkConfig (store c) (pool c ++ [j]))).
  { intros j Hj'. split; [exact Hnd|]. split; [exact Hj|]. cbn [pool store].
    split.
    - intros i j0 Hl. apply lookup_snoc_Some in Hl as [[_ Hl]|[_ <-]];
        [now apply (Hroles i)|].
      destruct Hj' as [Hb|(id & Hp & Hf & _)]; [now left|right].
      exists id, false. split; [exact Hp|].
      intros row Hin Hrow. now destruct (Hf row Hin).
    - intros i i' j1 j2 id b b' H1 H2 P1 P2.
      apply lookup_snoc_Some in H1 as [[L1 H1]|[L1 <-]];
        apply lookup_snoc_Some in H2 as [[L2 H2]|[L2 <-]].
      + now apply (Hapart i i' j1 j2 id b b').
      + exfalso. destruct Hj' as [Hb|(id0 & Hp & _ & Hf)];
          [now apply (bystander_not_placing id b' _ Hb)|].
        destruct (placing_same _ _ _ _ _ Hp P2) as [<- _].
        destruct (Hf j1 (lookup_In _ _ _ H1))
          as [Hc Hs].
        destruct (placing_uses _ _ _ P1); auto.
      + exfalso. destruct Hj' as [Hb|(id0 & Hp & _ & Hf)];
          [now apply (bystander_not_placing id b _ Hb)|].
        destruct (placing_same _ _ _ _ _ Hp P1) as [<- _].
        destruct (Hf j2 (lookup_In _ _ _ H2))
          as [Hc Hs].
        destruct (placing_uses _ _ _ P2); auto.
      + congruence. }
  destruct Hstep as [c request uuid now Hfresh|c id|c id
                    |c position A t t' st' Hl Hp|c id].
  - apply Harrive. cbn.
    destruct (PlaceOrder_placing request uuid now) as [Hb|Hpl];
      [now left|right]. now exists uuid.
  - apply Harrive. left. apply CancelOrder_bystander.
  - apply Harrive. left. apply get_order_bystander.
  - (* a handler performs its operation *)
    assert (Hlen : (position < List.length (pool c))%nat)
      by (eapply lookup_lt_Some; eauto).
    destruct (Hroles position _ Hl) as [Hb|(id & b & Hpl & Ha)];
      cbn [projT2 job] in *.
    + destruct (perform_bystander t t' _ _ Hb Hp) as (Hb' & Hids & Hj' & Hw).
      split; [cbn; now rewrite Hids|]. split; [cbn; auto|]. cbn [pool store].
      split.
      * intros i j Hi.
        apply list_lookup_insert_Some in Hi as [(<- & <- & _)|[Hne Hi]];
          [now left|].
        destruct (Hroles i j Hi) as [?|(id & b & ? & ?)]; [now left|right].
        exists id, b. auto.
      * intros i i' j1 j2 id b b' H1 H2 P1 P2.
        apply list_lookup_insert_Some in H1 as [(<- & <- & _)|[N1 H1]];
          [exfalso; now apply (bystander_not_placing id b _ Hb')|].
        apply list_lookup_insert_Some in H2 as [(<- & <- & _)|[N2 H2]];
          [exfalso; now apply (bystander_not_placing id b' _ Hb')|].
        now apply (Hapart i i' j1 j2 id b b').
    + destruct (perform_placing id b t t' _ _ Hpl Ha Hnd Hp)
        as (Hrole & Hnd' & Hj' & Hothers).
      assert (Hkeep : forall i j id' b',
                 i <> position -> pool c !! i = Some j ->
                 placing id' b' (projT2 j) -> awaiting (store c) id' b' ->
                 awaiting st' id' b').
      { intros i j id' b' Hne Hi Pj Aj. apply Hothers; [|exact Aj].
        intros ->. apply Hne.
        apply (Hapart i position j (job t) id b' b); auto. }
      split; [exact Hnd'|]. split; [cbn; auto|]. cbn [pool store]. split.
      * intros i j Hi.
        apply list_lookup_insert_Some in Hi as [(<- & <- & _)|[Hne Hi]].
        -- destruct Hrole as [?|(b' & ? & ?)]; [now left|right].
           now exists id, b'.
        -- destruct (Hroles i j Hi) as [?|(id' & b' & Pj & Aj)];
             [now left|right].
           exists id', b'. split; [exact Pj|].
           apply (Hkeep i j); auto.
      * intros i i' j1 j2 id' b1 b2 H1 H2 P1 P2.
        apply list_lookup_insert_Some in H1 as [(<- & <- & _)|[N1 H1]];
          apply list_lookup_insert_Some in H2 as [(<- & <- & _)|[N2 H2]];
          auto.
        -- (* the handler that moved, and another one *)
           exfalso. destruct Hrole as [Hb'|(b' & Pt' & _)];
             [now apply (bystander_not_placing id' b1 _ Hb')|].
           destruct (placing_same _ _ _ _ _ Pt' P1) as [<- _].
           apply N2. apply (Hapart position i' (job t) j2 id b b2); auto.
        -- exfalso. destruct Hrole as [Hb'|(b' & Pt' & _)];
             [now apply (bystander_not_placing id' b2 _ Hb')|].
           destruct (placing_same _ _ _ _ _ Pt' P2) as [<- _].
           apply N1.
           apply (Hapart position i (job t) j1 id b b1); auto.
        -- now apply (Hapart i i' j1 j2 id' b1 b2).
  - split; [exact Hnd|]. split; [exact Hj|]. split; [|exact Hapart].
    intros i j Hi. destruct (Hroles i j Hi) as [?|(id' & b & ? & ?)];
      [now left|right]. exists id', b. auto.
Qed.

Lemma reachable_orderly c : reachable env c -> orderly c.
Proof.
  induction 1 as [rows Hnd|c c' _ IH Hstep]; [|now apply (step_orderly c)].
  split; [exact Hnd|]. split; [constructor|].
  split; intros i; intros; cbn in *; now rewrite lookup_nil in *.
Qed.

End Interleaving.

Section Races.
Import TradingService Async.

Lemma one_order_arrived_reachable :
  reachable Samples.permissive one_order_arrived.
Proof.
  apply (reach_step Samples.permissive
           (mkConfig empty_store []) one_order_arrived).
  - apply (reach_start Samples.permissive []). constructor.
  - apply (step_place Samples.permissive (mkConfig empty_store [])
                      Samples.a_request "id-1" 1700000000).
    split; [intros row []|intros j []].
Defined.

(** X30.  When each request is served before the next one
    arrives (orders placed under fresh ids, cancellations, reads, cache
    entries expiring), every status written is pending at creation or
    replaces pending by executed, failed or cancelled; one more request
    leaves the status of every stored order as it is or takes it from
    pending to one of these three; and cancelling an order that is not
    pending returns the failure "Order cannot be cancelled" and changes
    neither the table nor that order's status.  Such a run is one of the
    schedules of the coroutines.  Under every schedule, with the handlers
    giving way to each other at their awaits of the database and of the
    cache, a status is pending only at creation, executed or failed is
    written over pending or cancelled only, and cancelled is written over
    any status. *)
Theorem order_status_lifecycle (env : Collaborators) :
  (forall st,
     Lifecycle.reachable env st ->
     (exists l, reachable env (mkConfig st l) /\ Forall returned l) /\
     Forall Lifecycle.lawful (journal st) /\
     (forall r id s,
        Lifecycle.permitted r st -> Lifecycle.status_of id st = Some s ->
        exists s',
          Lifecycle.status_of id (Lifecycle.handle env r st) = Some s' /\
          Lifecycle.moves s s') /\
     (forall id s,
        Lifecycle.status_of id st = Some s -> s <> PENDING ->
        success (fst (TradingService.CancelOrder id st)) = false /\
        message (fst (TradingService.CancelOrder id st))
        = "Order cannot be cancelled" /\
        orders (snd (TradingService.CancelOrder id st)) = orders st /\
        journal (snd (TradingService.CancelOrder id st)) = journal st /\
        Lifecycle.status_of id (snd (TradingService.CancelOrder id st))
        = Some s)) /\
  (forall c,
     reachable env c -> Forall admissible (journal (store c))).
Proof.
  split.
  - intros st Hreach. split; [now apply serial_run_is_a_schedule|].
    apply (reachable_coherent env) in Hreach.
    split; [apply Hreach|]. split.
    + intros r id s Hp Hs. now apply handle_moves.
    + intros id s Hs Hne. now apply cancel_non_pending.
  - intros c Hreach. apply (reachable_orderly env) in Hreach.
    apply Hreach.
Qed.

Lemma order_status_lifecycle_witness :
  Forall Lifecycle.lawful (journal Samples.after_one_order) /\
  success (fst (TradingService.CancelOrder "id-1" Samples.after_one_order))
  = false /\
  Forall admissible (journal (store cancelled_in_between)).
Proof.
  destruct (order_status_lifecycle Samples.permissive) as [Hserial Hany].
  destruct (Hserial Samples.after_one_order after_one_order_reachable)
    as (_ & Hj & _ & Hc).
  split; [exact Hj|]. split.
  - apply (Hc "id-1" EXECUTED); [reflexivity|discriminate].
  - apply Hany. apply play_reachable, one_order_arrived_reachable.
Defined.

(** C2.  [CancelOrder] reads the order, tests that it is pending, and
    updates it; [PlaceOrder] inserts the order and, after the execution,
    updates it whatever its status is by then.  When the two interleave
    the order leaves a terminal status.  In the first schedule the
    cancellation is served between the insert and the update of
    [PlaceOrder]: the order goes from pending to cancelled and from
    cancelled to executed.  In the second the cancellation arrives when
    the row is executed and the cache still holds the order as pending: it
    answers with success and the order goes from executed to cancelled. *)
Lemma cancelled_order_is_executed :
  reachable Samples.permissive cancelled_in_between /\
  journal (store cancelled_in_between)
  = [Inserted "id-1" PENDING; Updated "id-1" PENDING CANCELLED;
     Updated "id-1" CANCELLED EXECUTED] /\
  reachable Samples.permissive cancelled_on_stale_cache /\
  Lifecycle.status_of
    "id-1" (store (play [Run 0; Run 0; Run 0] one_order_arrived))
  = Some EXECUTED /\
  cancelled_on_stale_cache
  = play [Cancel "id-1"; Run 1; Run 1; Run 1; Run 0]
         (play [Run 0; Run 0; Run 0] one_order_arrived) /\
  journal (store cancelled_on_stale_cache)
  = [Inserted "id-1" PENDING; Updated "id-1" PENDING EXECUTED;
     Updated "id-1" EXECUTED CANCELLED] /\
  pool cancelled_on_stale_cache !! 1%nat
  = Some (job (Return (mkOrderResponse true "Order cancelled successfully"
                                       "" "" 0 0))).
Proof.
  split; [apply play_reachable, one_order_arrived_reachable|].
  split; [vm_compute; reflexivity|].
  split; [apply play_reachable, one_order_arrived_reachable|].
  split; [vm_compute; reflexivity|].
  split; [reflexivity|].
  split; vm_compute; reflexivity.
Qed.

(** X2.  When each request is served before the next one arrives, an order
    held by the cache is equal, field for field, to the row of the table
    with its id, so [GetOrder] returns the same order whether the cache
    entry of that id is still there or has expired.  Under interleaving
    this fails: [_update_order] writes the table, then the cache, and the
    two updates of one order by [PlaceOrder] and [CancelOrder] can land
    in opposite orders on the two.  There is a schedule after which no
    handler is in flight, the row is cancelled and the cache holds the
    order as executed: [GetOrder] answers executed until the entry
    expires, and cancelled from then on. *)
Theorem cache_expiry_is_invisible_in_serial_runs (env : Collaborators) :
  (forall st id,
     Lifecycle.reachable env st ->
     Measures.cache_mirrors st /\
     fst (TradingService.GetOrder id (expire id st))
     = fst (TradingService.GetOrder id st)) /\
  (exists c,
     reachable Samples.permissive c /\ Forall returned (pool c) /\
     option_map status (fst (TradingService.GetOrder "id-1" (store c)))
     = Some EXECUTED /\
     option_map status
       (fst (TradingService.GetOrder "id-1" (expire "id-1" (store c))))
     = Some CANCELLED).
Proof.
  split.
  - intros st id. apply serial_cache_mirrors.
  - exists cancelled_on_stale_cache.
    split; [apply play_reachable, one_order_arrived_reachable|].
    split; [|split; vm_compute; reflexivity].
    repeat constructor.
Qed.

Lemma cache_expiry_is_invisible_in_serial_runs_witness :
  fst (TradingService.GetOrder "id-1"
         (expire "id-1" Samples.after_one_order))
  = fst (TradingService.GetOrder "id-1" Samples.after_one_order).
Proof.
  apply (proj1 (cache_expiry_is_invisible_in_serial_runs
                  Samples.permissive)
               Samples.after_one_order "id-1").
  exact after_one_order_reachable.
Defined.

End Races.

(** ** The query of [_get_orders] *)

Section Query.
Import TradingService Measures.

(** The assembled text, whatever the filters, reads: select, order, skip,
    keep. *)
Lemma get_orders_normal_form st w s t1 t2 l o :
  _get_orders st w s t1 t2 l o
  = page l o (order_by_timestamp_desc
                (List.filter (selected w s t1 t2) (orders st))).
Proof.
  unfold _get_orders, build_query, page, selected.
  destruct (status_nonzero s), (t1 >? 0)%Z, (t2 >? 0)%Z, (l >? 0)%Z,
    (o >? 0)%Z; cbn -[Z.to_nat order_by_timestamp_desc];
    (erewrite List.filter_ext;
     [reflexivity
     |intros row; cbn; rewrite ?andb_true_r, ?andb_assoc; reflexivity]).
Qed.




(** *** Order of the result *)

Lemma insert_desc_sorted o l :
  newest_first l -> newest_first (insert_desc o l).
Proof.
  unfold newest_first.
  induction l as [|x l IH]; intros Hs; simpl.
  - repeat constructor.
  - apply StronglySorted_inv in Hs as [Hl Hx].
    destruct (Z.ltb_spec (timestamp x) (timestamp o)).
    + constructor; [constructor; assumption|].
      constructor; [lia|].
      apply List.Forall_forall. intros y Hy.
      pose proof (proj1 (List.Forall_forall _ _) Hx y Hy) as Hle.
      cbn in Hle. lia.
    + constructor; [now apply IH|].
      apply List.Forall_forall. intros y Hy.
      apply in_insert_desc in Hy as [->|Hy]; [lia|].
      now apply (proj1 (List.Forall_forall _ _) Hx).
Qed.

Lemma order_by_sorted rows : newest_first (order_by_timestamp_desc rows).
Proof.
  induction rows as [|x rows IH]; [constructor|].
  now apply insert_desc_sorted.
Qed.

Lemma sorted_skipn n (l : list Order) :
  newest_first l -> newest_first (skipn n l).
Proof.
  unfold newest_first. revert l.
  induction n as [|n IH]; intros [|x l] Hs; cbn; auto.
  apply StronglySorted_inv in Hs as [Hl _]. now apply IH.
Qed.

Lemma sorted_firstn n (l : list Order) :
  newest_first l -> newest_first (firstn n l).
Proof.
  unfold newest_first. revert l.
  induction n as [|n IH]; intros [|x l] Hs; cbn; try constructor.
  - apply IH. now apply StronglySorted_inv in Hs.
  - apply StronglySorted_inv in Hs as [_ Hx].
    apply List.Forall_forall. intros y Hy. apply in_firstn in Hy.
    now apply (proj1 (List.Forall_forall _ _) Hx).
Qed.

Lemma sorted_page l o rows : newest_first rows -> newest_first (page l o rows).
Proof.
  intros Hs. unfold page.
  destruct (l >? 0)%Z; [apply sorted_firstn|];
    (destruct (o >? 0)%Z; [apply sorted_skipn|]); exact Hs.
Qed.

Lemma page_map {A B} (f : A -> B) l o (rows : list A) :
  map f (if (l >? 0)%Z
         then firstn (Z.to_nat l)
                (if (o >? 0)%Z then skipn (Z.to_nat o) rows else rows)
         else if (o >? 0)%Z then skipn (Z.to_nat o) rows else rows)
  = if (l >? 0)%Z
    then firstn (Z.to_nat l)
           (if (o >? 0)%Z then skipn (Z.to_nat o) (map f rows)
            else map f rows)
    else if (o >? 0)%Z then skipn (Z.to_nat o) (map f rows) else map f rows.
Proof.
  destruct (l >? 0)%Z, (o >? 0)%Z;
    rewrite <- ?firstn_map, <- ?skipn_map; reflexivity.
Qed.

(** Two orderings of the same rows, both newest first, show the same
    timestamps at each position. *)
Lemma newest_first_timestamps (l1 l2 : list Order) :
  Permutation l1 l2 -> newest_first l1 -> newest_first l2 ->
  map timestamp l1 = map timestamp l2.
Proof.
  unfold newest_first. revert l2.
  induction l1 as [|x l1 IH]; intros l2 Hp H1 H2.
  - apply Permutation_nil in Hp. now subst.
  - destruct l2 as [|y l2];
      [apply Permutation_sym, Permutation_nil in Hp; discriminate|].
    apply StronglySorted_inv in H1 as [H1 Hx].
    apply StronglySorted_inv in H2 as [H2 Hy].
    rewrite List.Forall_forall in Hx, Hy.
    assert (Hyx : (timestamp y <= timestamp x)%Z).
    { assert (Hin : In y (x :: l1))
        by (eapply Permutation_in; [apply Permutation_sym, Hp|now left]).
      destruct Hin as [->|Hin]; [lia|]. now apply Hx. }
    assert (Hxy : (timestamp x <= timestamp y)%Z).
    { assert (Hin : In x (y :: l2))
        by (eapply Permutation_in; [apply Hp|now left]).
      destruct Hin as [->|Hin]; [lia|]. now apply Hy. }
    cbn. f_equal; [lia|].
    assert (Hpt : Permutation (map timestamp l1) (map timestamp l2)).
    { apply (Permutation_map timestamp) in Hp. cbn in Hp.
      replace (timestamp y) with (timestamp x) in Hp by lia.
      now apply Permutation_cons_inv in Hp. }
    clear IH Hp.
    (* the tails are sorted lists of integers with the same elements *)
    assert (Hs1 : StronglySorted (fun a b => (b <= a)%Z)
                                 (map timestamp l1)).
    { clear -H1. induction H1; cbn; constructor; auto.
      rewrite List.Forall_forall in *. intros t Ht.
      apply in_map_iff in Ht as (r & <- & Hr). auto. }
    assert (Hs2 : StronglySorted (fun a b => (b <= a)%Z)
                                 (map timestamp l2)).
    { clear -H2. induction H2; cbn; constructor; auto.
      rewrite List.Forall_forall in *. intros t Ht.
      apply in_map_iff in Ht as (r & <- & Hr). auto. }
    revert Hpt Hs1 Hs2. generalize (map timestamp l1) (map timestamp l2).
    clear. intros a. induction a as [|u a IH]; intros b Hp Ha Hb.
    + apply Permutation_nil in Hp. now subst.
    + destruct b as [|v b];
        [apply Permutation_sym, Permutation_nil in Hp; discriminate|].
      apply StronglySorted_inv in Ha as [Ha Hu].
      apply StronglySorted_inv in Hb as [Hb Hv].
      rewrite List.Forall_forall in Hu, Hv.
      assert (Hvu : (v <= u)%Z).
      { assert (Hin : In v (u :: a))
          by (eapply Permutation_in; [apply Permutation_sym, Hp|now left]).
        destruct Hin as [->|Hin]; [lia|]. now apply Hu. }
      assert (Huv : (u <= v)%Z).
      { assert (Hin : In u (v :: b))
          by (eapply Permutation_in; [apply Hp|now left]).
        destruct Hin as [->|Hin]; [lia|]. now apply Hv. }
      assert (u = v) by lia. subst v. f_equal.
      apply IH; auto. now apply Permutation_cons_inv in Hp.
Qed.

(** When no two of the rows share a timestamp, there is one such
    ordering. *)
Lemma newest_first_unique (l1 l2 : list Order) :
  Permutation l1 l2 -> List.NoDup (map timestamp l1) ->
  map timestamp l1 = map timestamp l2 -> l1 = l2.
Proof.
  revert l2. induction l1 as [|x l1 IH]; intros l2 Hp Hnd Hts.
  - apply Permutation_nil in Hp. now subst.
  - destruct l2 as [|y l2]; [discriminate|].
    cbn in Hts. injection Hts as Hxy Hts.
    apply List.NoDup_cons_iff in Hnd as [Hx Hnd].
    assert (y = x).
    { assert (Hin : In y (x :: l1))
        by (eapply Permutation_in; [apply Permutation_sym, Hp|now left]).
      destruct Hin as [->|Hin]; [reflexivity|].
      destruct Hx. rewrite Hxy. now apply in_map. }
    subst y. f_equal. apply IH; auto.
    now apply Permutation_cons_inv in Hp.
Qed.

Lemma order_by_permutation rows :
  Permutation (order_by_timestamp_desc rows) rows.
Proof.
  assert (Hins : forall o l, Permutation (insert_desc o l) (o :: l)).
  { intros o l. induction l as [|x l IH]; cbn; [reflexivity|].
    destruct (timestamp x <? timestamp o)%Z; [reflexivity|].
    rewrite IH. apply perm_swap. }
  induction rows as [|x rows IH]; cbn; [reflexivity|].
  rewrite Hins. now constructor.
Qed.

(** X6.  Whatever the filters, the orders come newest first.  SQL leaves
    the order of rows of equal timestamp open; take any ordering [answer]
    of the rows the request selects that is newest first.  The timestamps
    of the page returned for a [limit] and an [offset] are the
    corresponding slice of the timestamps of [answer] ([offset] skipped,
    then [limit] kept), and when no two selected rows share a timestamp
    the page is that slice of [answer], row for row. *)
Theorem get_orders_pages_newest_first
  (st : Store) (wallet : string) (s : OrderStatus)
  (start_time end_time limit offset : Z) (answer : list Order) :
  let result :=
    _get_orders st wallet s start_time end_time limit offset in
  newest_first result /\
  (Permutation answer
     (List.filter (selected wallet s start_time end_time) (orders st)) ->
   newest_first answer ->
   map timestamp result = map timestamp (page limit offset answer) /\
   (List.NoDup (map timestamp answer) ->
    result = page limit offset answer)).
Proof.
  cbv zeta. rewrite !get_orders_normal_form. split.
  - apply sorted_page, order_by_sorted.
  - intros Hp Hs.
    set (rows := List.filter _ _) in *.
    assert (Hperm : Permutation (order_by_timestamp_desc rows) answer).
    { rewrite order_by_permutation. now apply Permutation_sym. }
    pose proof (newest_first_timestamps _ _ Hperm (order_by_sorted rows) Hs)
      as Hts.
    split.
    + unfold page. rewrite !page_map. now rewrite Hts.
    + intros Hnd. f_equal.
      apply newest_first_unique; [exact Hperm|now rewrite Hts|exact Hts].
Qed.

End Query.

(** ** Profit and loss, newest order first *)

Section ProfitOrder.
Import TradingService Measures.

Lemma profit_step_cons p i x l :
  fold_left profit_step (x :: l) (p, i)
  = fold_left profit_step l
      (match order_type x with
       | BUY => (p, (i + executed_amount x * executed_price x)%Q)
       | SELL => ((p + (executed_amount x * executed_price x - i))%Q, i)
       end).
Proof. reflexivity. Qed.

Lemma proceeds_cons x l :
  proceeds_of_sales (x :: l)
  = match order_type x with
    | SELL => (executed_amount x * executed_price x
               + proceeds_of_sales l)%Q
    | BUY => proceeds_of_sales l
    end.
Proof. reflexivity. Qed.

Lemma purchases_only p i l :
  Forall (fun o => order_type o = BUY) l ->
  fst (fold_left profit_step l (p, i)) = p /\ proceeds_of_sales l = 0%Q.
Proof.
  revert i. induction l as [|x l IH]; intros i Hb; [auto|].
  apply Forall_cons_iff in Hb as [Hx Hb].
  rewrite profit_step_cons, proceeds_cons, Hx. apply IH, Hb.
Qed.

Lemma sales_first l :
  newest_first l ->
  (forall b s, In b l -> In s l -> order_type b = BUY ->
               order_type s = SELL -> (timestamp b < timestamp s)%Z) ->
  forall p,
    (fst (fold_left profit_step l (p, 0%Q)) == p + proceeds_of_sales l)%Q.
Proof.
  induction l as [|x l IH]; intros Hs Hgap p.
  - cbn. lra.
  - apply StronglySorted_inv in Hs as [Hl Hx].
    rewrite profit_step_cons, proceeds_cons.
    destruct (order_type x) eqn:Tx.
    + assert (Hb : Forall (fun o => order_type o = BUY) l).
      { apply List.Forall_forall. intros y Hy.
        destruct (order_type y) eqn:Ty; [reflexivity|].
        pose proof (proj1 (List.Forall_forall _ _) Hx y Hy) as Hle.
        cbn in Hle.
        pose proof (Hgap x y (or_introl eq_refl) (or_intror Hy) Tx Ty).
        lia. }
      destruct (purchases_only p (0 + executed_amount x * executed_price x)
                               l Hb) as [-> ->]. lra.
    + rewrite IH; [lra|exact Hl|].
      intros b s Hb Hs'. apply Hgap; now right.
Qed.

Lemma profit_loss_total orders :
  total_profit
    (match profit_loss_body orders with
     | Some info => info
     | None => mkProfitInfo 0 0
     end)
  = fst (profit_totals orders).
Proof.
  unfold profit_loss_body.
  destruct (profit_totals orders) as [p i]. cbn.
  destruct (Py.gt i 0) eqn:G; [|reflexivity].
  unfold Py.div. destruct (Qeq_bool i 0) eqn:E; [|reflexivity].
  apply Qeq_bool_iff in E. unfold Py.gt in G. apply PyFacts.lt_true in G.
  lra.
Qed.

(** X7.  The profit figure is computed over the executed orders of the
    wallet newest first.  So when every sale of the wallet is newer than
    every purchase, each sale is counted before any purchase has been
    added to the amount invested, and the total profit reported is the
    full proceeds of the sales: the cost of the purchases is not
    subtracted. *)
Theorem sales_newer_than_purchases_count_in_full
  (st : Store) (wallet : string) :
  let orders := _get_orders st wallet EXECUTED 0 0 0 0 in
  (forall b s,
     In b orders -> In s orders ->
     order_type b = BUY -> order_type s = SELL ->
     (timestamp b < timestamp s)%Z) ->
  (total_profit (_calculate_profit_loss st wallet)
   == proceeds_of_sales orders)%Q.
Proof.
  intros orders Hgap. unfold _calculate_profit_loss. fold orders.
  rewrite profit_loss_total. unfold profit_totals.
  assert (Hs : newest_first orders).
  { subst orders. rewrite get_orders_normal_form.
    apply sorted_page, order_by_sorted. }
  pose proof (sales_first orders Hs Hgap 0%Q) as H. lra.
Qed.

Lemma sales_newer_than_purchases_count_in_full_witness :
  (total_profit
     (_calculate_profit_loss Cases.bought_then_sold Samples.a_wallet)
   == proceeds_of_sales
        (_get_orders Cases.bought_then_sold Samples.a_wallet EXECUTED
                     0 0 0 0))%Q.
Proof.
  apply (sales_newer_than_purchases_count_in_full
           Cases.bought_then_sold Samples.a_wallet).
  intros b s Hb Hs Tb Ts. vm_compute in Hb, Hs.
  destruct Hb as [<-|[<-|[]]]; destruct Hs as [<-|[<-|[]]];
    try discriminate Tb; try discriminate Ts.
  reflexivity.
Defined.

(** The bought-then-sold table: one token bought for 2, two tokens sold for
    3 each; the figure reported is 6. *)
Example bought_then_sold_profit :
  (total_profit
     (_calculate_profit_loss Cases.bought_then_sold Samples.a_wallet)
   == 6)%Q.
Proof. vm_compute. reflexivity. Qed.

End ProfitOrder.

(** ** Sniper sessions *)

Section SniperSessions.
Import SniperService.

(** X8.  Stopping a live sniper succeeds and takes its session out of the
    registry, leaving every other session and the [snipers] table as they
    are; from then on a second stop, an addition and a removal of a target
    under that id all answer "Sniper not found" and change nothing. *)
Theorem stopped_sniper_is_gone
  (st : State) (id : string) (cfg : SniperConfig) :
  active_snipers st !! id = Some cfg ->
  let st' := snd (StopSniper id st) in
  fst (StopSniper id st)
  = mkSniperResponse true "Sniper stopped successfully" "" /\
  snipers st' = snipers st /\
  (forall id',
     id' <> id -> active_snipers st' !! id' = active_snipers st !! id') /\
  StopSniper id st' = (mkSniperResponse false "Sniper not found" "", st') /\
  (forall m,
     AddTargetToken id m st'
     = (mkSniperResponse false "Sniper not found" "", st')) /\
  (forall m,
     RemoveTargetToken id m st'
     = (mkSniperResponse false "Sniper not found" "", st')).
Proof.
  intros H. unfold StopSniper at 1 2 3. rewrite H. cbn [fst snd].
  assert (Hgone : active_snipers
                    (mkState (delete id (active_snipers st)) (snipers st))
                  !! id = None) by apply lookup_delete_eq.
  split; [reflexivity|]. split; [reflexivity|]. split; [|split; [|split]].
  - intros id' Hne. cbn. now apply lookup_delete_ne.
  - unfold StopSniper. now rewrite Hgone.
  - intros m. unfold AddTargetToken. now rewrite Hgone.
  - intros m. unfold RemoveTargetToken. now rewrite Hgone.
Qed.

Lemma stopped_sniper_is_gone_witness :
  StopSniper "sn-1"
    (snd (StopSniper "sn-1" (run Samples.add_once empty_state)))
  = (mkSniperResponse false "Sniper not found" "",
     snd (StopSniper "sn-1" (run Samples.add_once empty_state))).
Proof.
  edestruct (stopped_sniper_is_gone (run Samples.add_once empty_state)
               "sn-1") as (_ & _ & _ & H & _).
  - reflexivity.
  - exact H.
Defined.

(** X9.  A sniper started under an id the registry does not hold and then
    stopped leaves the registry as it was before the start, while the row
    written to the [snipers] table at the start stays, still marked as
    running: stopping writes nothing to the table. *)
Theorem start_then_stop_leaves_the_row
  (request : SniperRequestConfig) (uuid : string) (now : Q) (st : State) :
  _validate_wallet_address (rq_wallet_address request) = true ->
  active_snipers st !! uuid = None ->
  let started := snd (StartSniper request uuid now st) in
  let stopped := snd (StopSniper uuid started) in
  active_snipers stopped = active_snipers st /\
  exists row,
    active_snipers started !! uuid = Some row /\
    snipers stopped = (snipers st ++ [row])%list /\
    sniper_id row = uuid /\ is_running row = true.
Proof.
  intros Hv Hnone. unfold StartSniper. rewrite Hv. cbn [negb snd].
  unfold StopSniper. cbn [active_snipers snipers].
  rewrite lookup_insert_eq. cbn [snd active_snipers snipers].
  split.
  - now apply delete_insert_id.
  - eexists. split; [reflexivity|]. cbn. auto 6.
Qed.

Lemma start_then_stop_leaves_the_row_witness :
  active_snipers
    (snd (StopSniper "sn-1"
            (snd (StartSniper Samples.a_sniper_request "sn-1" 0
                              empty_state))))
  = active_snipers empty_state.
Proof.
  apply (start_then_stop_leaves_the_row Samples.a_sniper_request "sn-1" 0
           empty_state).
  - vm_compute. reflexivity.
  - reflexivity.
Defined.

Lemma list_contains_in x l : list_contains x l = true <-> In x l.
Proof.
  unfold list_contains. rewrite existsb_exists. split.
  - intros (y & Hy & E). apply String.eqb_eq in E. now subst.
  - intros H. exists x. split; [exact H|apply String.eqb_refl].
Qed.

Lemma list_remove_snoc x l :
  ~ In x l -> list_remove x (l ++ [x]) = l.
Proof.
  induction l as [|y l IH]; intros H; cbn.
  - now rewrite String.eqb_refl.
  - destruct (String.eqb y x) eqn:E.
    + apply String.eqb_eq in E. destruct H. now left.
    + rewrite IH; [reflexivity|]. intros Hin. apply H. now right.
Qed.

Lemma set_target_tokens_twice cfg l :
  set_target_tokens (set_target_tokens cfg l) (target_tokens cfg) = cfg.
Proof. now destruct cfg. Qed.

(** X10.  Adding a mint that a live session does not target yet and then
    removing it restores the state exactly: the removal takes out the
    occurrence the addition put in. *)
Theorem add_then_remove_restores_targets
  (st : State) (id token_mint : string) (cfg : SniperConfig) :
  active_snipers st !! id = Some cfg ->
  _validate_token_mint token_mint = true ->
  ~ In token_mint (target_tokens cfg) ->
  snd (RemoveTargetToken id token_mint
         (snd (AddTargetToken id token_mint st))) = st.
Proof.
  intros H Hv Hnew. unfold AddTargetToken. rewrite H, Hv. cbn [negb snd].
  unfold RemoveTargetToken. cbn [active_snipers snipers].
  rewrite lookup_insert_eq. cbn [target_tokens set_target_tokens].
  assert (Hc : list_contains token_mint (target_tokens cfg ++ [token_mint])
               = true).
  { apply list_contains_in, in_or_app. right. now left. }
  rewrite Hc. cbn [snd]. rewrite list_remove_snoc by exact Hnew.
  rewrite insert_insert_eq.
  rewrite set_target_tokens_twice.
  rewrite insert_id by exact H. now destruct st.
Qed.

Lemma add_then_remove_restores_targets_witness :
  snd (RemoveTargetToken "sn-1" Samples.usdc_mint
         (snd (AddTargetToken "sn-1" Samples.usdc_mint
                 (snd (StartSniper Samples.a_sniper_request "sn-1" 0
                                   empty_state)))))
  = snd (StartSniper Samples.a_sniper_request "sn-1" 0 empty_state).
Proof.
  eapply (add_then_remove_restores_targets
            (snd (StartSniper Samples.a_sniper_request "sn-1" 0
                              empty_state))
            "sn-1" Samples.usdc_mint).
  - reflexivity.
  - vm_compute. reflexivity.
  - intros [].
Defined.

Lemma count_list_remove x y l :
  count_occ string_dec (list_remove x l) y
  = if string_dec x y then Nat.pred (count_occ string_dec l y)
    else count_occ string_dec l y.
Proof.
  induction l as [|z l IH]; cbn.
  - now destruct (string_dec x y).
  - destruct (String.eqb z x) eqn:E.
    + apply String.eqb_eq in E. subst z.
      destruct (string_dec x y); reflexivity.
    + apply String.eqb_neq in E. cbn. rewrite IH.
      destruct (string_dec z y) as [->|Hzy], (string_dec x y) as [->|Hxy];
        try reflexivity; try congruence.
Qed.

(** X11.  Removing a target from a live session always answers with
    success, whether or not the mint was a target.  It takes out one
    occurrence of the mint, the first, and no other mint: a mint that was
    listed several times is still a target afterwards. *)
Theorem remove_takes_one_occurrence
  (st : State) (id token_mint : string) (cfg : SniperConfig) :
  active_snipers st !! id = Some cfg ->
  fst (RemoveTargetToken id token_mint st)
  = mkSniperResponse true "Target token removed successfully" "" /\
  exists cfg',
    active_snipers (snd (RemoveTargetToken id token_mint st)) !! id
    = Some cfg' /\
    target_tokens cfg' = list_remove token_mint (target_tokens cfg) /\
    count_occ string_dec (target_tokens cfg') token_mint
    = Nat.pred (count_occ string_dec (target_tokens cfg) token_mint) /\
    forall m,
      m <> token_mint ->
      count_occ string_dec (target_tokens cfg') m
      = count_occ string_dec (target_tokens cfg) m.
Proof.
  intros H. unfold RemoveTargetToken. rewrite H. cbn [fst snd].
  split; [reflexivity|].
  assert (Hcount : forall l m,
            count_occ string_dec (list_remove token_mint l) m
            = if string_dec token_mint m
              then Nat.pred (count_occ string_dec l m)
              else count_occ string_dec l m)
    by (intros; apply count_list_remove).
  assert (Habsent : forall l,
            list_contains token_mint l = false ->
            list_remove token_mint l = l).
  { induction l as [|z l IH]; [reflexivity|]. cbn.
    rewrite String.eqb_sym.
    destruct (String.eqb z token_mint); [discriminate|].
    cbn. intros Hl. now rewrite IH. }
  destruct (list_contains token_mint (target_tokens cfg)) eqn:Hc.
  - eexists. split; [apply lookup_insert_eq|]. cbn [target_tokens
      set_target_tokens]. split; [reflexivity|]. split.
    + rewrite Hcount. now destruct (string_dec token_mint token_mint).
    + intros m Hm. rewrite Hcount.
      destruct (string_dec token_mint m); congruence.
  - exists cfg. split; [exact H|]. rewrite (Habsent _ Hc).
    split; [reflexivity|]. split; [|reflexivity].
    assert (Hnot : ~ In token_mint (target_tokens cfg)).
    { intros Hin. apply list_contains_in in Hin. congruence. }
    apply (count_occ_not_In string_dec) in Hnot. now rewrite Hnot.
Qed.

Lemma remove_takes_one_occurrence_witness :
  exists cfg',
    active_snipers
      (snd (RemoveTargetToken "sn-1" Samples.usdc_mint
              (run Samples.add_twice empty_state))) !! "sn-1"
    = Some cfg' /\
    target_tokens cfg' = [Samples.usdc_mint].
Proof.
  destruct (remove_takes_one_occurrence
              (run Samples.add_twice empty_state) "sn-1" Samples.usdc_mint
              (set_target_tokens
                 (mkSniperConfig "sn-1" Samples.a_wallet "key" [] 0.1 0.05
                                 0.5 0.2 true 200000 0 "rpc" 0 true 0 0 0)
                 [Samples.usdc_mint; Samples.usdc_mint]))
    as (_ & cfg' & Hl & Ht & _).
  - vm_compute. reflexivity.
  - exists cfg'. split; [exact Hl|]. rewrite Ht. vm_compute. reflexivity.
Defined.

End SniperSessions.

(** ** The loop over the trades of a source wallet *)

Section CopyLoop.
Import CopyTradeService.

Variable execute_swap : SwapCall -> SwapResult.

(** What admitting a trade tells about the session. *)
Lemma should_copy_true id trade now st cfg st1 :
  active_copy_traders st !! id = Some cfg ->
  _should_copy_trade id trade now st = (true, st1) ->
  (last_trade_time cfg < Py.get (t_timestamp trade) 0)%Q /\
  ((st1 = st /\ (trades_this_hour cfg < max_trades_per_hour cfg)%Z) \/
   st1 = set_active st (<[id := set_trades_this_hour cfg 0]>
                          (active_copy_traders st))).
Proof.
  intros H. unfold _should_copy_trade. rewrite H.
  destruct (Py.le _ (last_trade_time cfg)) eqn:Hle; [discriminate|].
  apply PyFacts.le_false in Hle. intros E. split; [exact Hle|].
  destruct (Py.lt (now - last_trade_time cfg) 3600).
  - destruct (trades_this_hour cfg >=? max_trades_per_hour cfg)%Z eqn:G;
      [discriminate|].
    rewrite Z.geb_leb in G. apply Z.leb_gt in G.
    destruct (Py.lt _ (min_trade_amount cfg)); [discriminate|].
    injection E as <-. auto.
  - destruct (Py.lt _ (min_trade_amount cfg)); [discriminate|].
    injection E as <-. auto.
Qed.

(** One turn of the loop, seen from the session, the records and the
    calls. *)
Lemma check_trade_step id st cfg arrival :
  active_copy_traders st !! id = Some cfg ->
  exists cfg' recs calls,
    active_copy_traders (check_trade execute_swap id st arrival) !! id
    = Some cfg' /\
    copy_trade_records (check_trade execute_swap id st arrival)
    = (copy_trade_records st ++ recs)%list /\
    swaps (check_trade execute_swap id st arrival)
    = (swaps st ++ calls)%list /\
    (List.length recs <= List.length calls <= 1)%nat /\
    Forall (fun r => r_copy_trade_id r = id) recs /\
    copied_trades cfg'
    = (copied_trades cfg
       + Z.of_nat (List.length (List.filter r_success recs)))%Z /\
    max_trades_per_hour cfg' = max_trades_per_hour cfg /\
    ((1 <= max_trades_per_hour cfg)%Z ->
     (0 <= trades_this_hour cfg <= max_trades_per_hour cfg)%Z ->
     (0 <= trades_this_hour cfg' <= max_trades_per_hour cfg')%Z).
Proof.
  intros H. destruct arrival as [trade clock]. unfold check_trade.
  destruct (_should_copy_trade id trade (t_check clock) st)
    as [ok st1] eqn:E.
  pose proof (should_copy_trade_effect _ _ _ _ _ _ _ H E)
    as (Hr & Hs & cfg1 & H1 & Hcfg1).
  destruct ok.
  - apply (should_copy_true _ _ _ _ _ _ H) in E as [_ E].
    assert (Hroom : ((trades_this_hour cfg1 = trades_this_hour cfg /\
                      trades_this_hour cfg < max_trades_per_hour cfg)
                     \/ trades_this_hour cfg1 = 0)%Z /\
                    max_trades_per_hour cfg1 = max_trades_per_hour cfg /\
                    copied_trades cfg1 = copied_trades cfg).
    { destruct E as [[-> Hlt]| ->].
      - rewrite H in H1. injection H1 as <-. auto.
      - cbn in H1. rewrite lookup_insert_eq in H1. injection H1 as <-.
        cbn. auto. }
    destruct Hroom as (Hroom & Hmax & Hcopied).
    rewrite H1. unfold _copy_trade.
    destruct (execute_swap (swap_call cfg1 trade)) as [sig|error|].
    + exists (advance cfg1 (t_update clock)),
        [record_of id cfg1 trade sig true (t_record clock)],
        [swap_call cfg1 trade].
      cbn [active_copy_traders copy_trade_records swaps].
      rewrite lookup_alter_eq, H1, Hr, Hs. cbn.
      repeat split; auto; intros; cbn; lia.
    + exists cfg1, [record_of id cfg1 trade "" false (t_record clock)],
        [swap_call cfg1 trade].
      cbn [active_copy_traders copy_trade_records swaps].
      rewrite H1, Hr, Hs. cbn.
      repeat split; auto; intros; cbn; lia.
    + exists cfg1, [], [swap_call cfg1 trade].
      cbn [active_copy_traders copy_trade_records swaps].
      rewrite H1, Hr, Hs, app_nil_r. cbn.
      repeat split; auto; intros; cbn; lia.
  - exists cfg1, [], []. rewrite H1, Hr, Hs, !app_nil_r. cbn.
    destruct Hcfg1 as [-> | ->]; cbn; repeat split; auto; intros; lia.
Qed.

(** X12.  With a cap of at least one trade per hour, the rolling counter of
    a session that starts within its cap is within its cap after the loop
    over any list of source trades, whatever the clock readings and
    whatever the chain client answers; the cap itself is not changed. *)
Theorem hourly_counter_stays_within_cap
  (id : string) (recent_trades : list (Trade * Clock)) (st : State)
  (cfg : CopyTradeConfig) :
  active_copy_traders st !! id = Some cfg ->
  (1 <= max_trades_per_hour cfg)%Z ->
  (0 <= trades_this_hour cfg <= max_trades_per_hour cfg)%Z ->
  exists cfg',
    active_copy_traders
      (_check_source_wallet_trades execute_swap id recent_trades st) !! id
    = Some cfg' /\
    max_trades_per_hour cfg' = max_trades_per_hour cfg /\
    (0 <= trades_this_hour cfg' <= max_trades_per_hour cfg')%Z.
Proof.
  unfold _check_source_wallet_trades.
  revert st cfg. induction recent_trades as [|a l IH]; intros st cfg H Hm Hc.
  - exists cfg. auto.
  - cbn [fold_left].
    destruct (check_trade_step id st cfg a H)
      as (cfg1 & recs & calls & H1 & _ & _ & _ & _ & _ & Hmax & Hcap).
    destruct (IH _ cfg1 H1) as (cfg' & H' & Hmax' & Hcap').
    + now rewrite Hmax.
    + now apply Hcap.
    + exists cfg'. rewrite Hmax' at 1. rewrite Hmax. auto.
Qed.

(** X13.  Over the loop on any list of source trades, records and calls to
    the chain client are only added, never removed or altered: at most one
    call per trade, at most one record per call, every record under the id
    of the session; and the session's count of copied trades grows by
    exactly the number of added records marked successful. *)
Theorem copies_are_counted_and_recorded
  (id : string) (recent_trades : list (Trade * Clock)) (st : State)
  (cfg : CopyTradeConfig) :
  active_copy_traders st !! id = Some cfg ->
  exists cfg' recs calls,
    active_copy_traders
      (_check_source_wallet_trades execute_swap id recent_trades st) !! id
    = Some cfg' /\
    copy_trade_records
      (_check_source_wallet_trades execute_swap id recent_trades st)
    = (copy_trade_records st ++ recs)%list /\
    swaps (_check_source_wallet_trades execute_swap id recent_trades st)
    = (swaps st ++ calls)%list /\
    (List.length recs <= List.length calls
     <= List.length recent_trades)%nat /\
    Forall (fun r => r_copy_trade_id r = id) recs /\
    copied_trades cfg'
    = (copied_trades cfg
       + Z.of_nat (List.length (List.filter r_success recs)))%Z.
Proof.
  unfold _check_source_wallet_trades.
  revert st cfg. induction recent_trades as [|a l IH]; intros st cfg H.
  - exists cfg, [], []. rewrite !app_nil_r. cbn.
    repeat split; auto; lia.
  - cbn [fold_left].
    destruct (check_trade_step id st cfg a H)
      as (cfg1 & recs1 & calls1 & H1 & Hr1 & Hs1 & Hl1 & Hid1 & Hc1 & _).
    destruct (IH _ cfg1 H1)
      as (cfg' & recs & calls & H' & Hr & Hs & Hl & Hid & Hc).
    exists cfg', (recs1 ++ recs)%list, (calls1 ++ calls)%list.
    rewrite H', Hr, Hs, Hr1, Hs1, <- !app_assoc.
    rewrite List.filter_app, !length_app, Hc, Hc1. cbn [List.length].
    repeat split; auto; try lia.
    apply Forall_app. auto.
Qed.

(** X14.  After a copy has succeeded, the session's last trade time is the
    clock reading taken when the copy was booked, not the time of the
    source trade.  Every source trade stamped at or before that reading is
    skipped from then on, without a call to the chain client and without a
    record, also a trade that was never seen before. *)
Theorem trades_older_than_a_copy_are_skipped
  (id : string) (st : State) (cfg : CopyTradeConfig) (trade : Trade)
  (clock : Clock) (sig : string) :
  active_copy_traders st !! id = Some cfg ->
  fst (_should_copy_trade id trade (t_check clock) st) = true ->
  execute_swap (swap_call cfg trade) = SwapSuccess sig ->
  let st' := check_trade execute_swap id st (trade, clock) in
  (exists cfg',
     active_copy_traders st' !! id = Some cfg' /\
     last_trade_time cfg' = t_update clock /\
     copied_trades cfg' = (copied_trades cfg + 1)%Z) /\
  (forall trade2 clock2,
     (Py.get (t_timestamp trade2) 0 <= t_update clock)%Q ->
     check_trade execute_swap id st' (trade2, clock2) = st').
Proof.
  intros H Hok Hswap st'.
  assert (Hcfg' : exists cfg',
            active_copy_traders st' !! id = Some cfg' /\
            last_trade_time cfg' = t_update clock /\
            copied_trades cfg' = (copied_trades cfg + 1)%Z).
  { subst st'. unfold check_trade.
    destruct (_should_copy_trade id trade (t_check clock) st)
      as [ok st1] eqn:E. cbn in Hok. subst ok.
    pose proof (should_copy_trade_effect _ _ _ _ _ _ _ H E)
      as (_ & _ & cfg1 & H1 & Hcfg1).
    rewrite H1. unfold _copy_trade.
    assert (Hcall : swap_call cfg1 trade = swap_call cfg trade)
      by (destruct Hcfg1 as [-> | ->]; reflexivity).
    rewrite Hcall, Hswap. cbn [active_copy_traders].
    exists (advance cfg1 (t_update clock)).
    rewrite lookup_alter_eq, H1. cbn.
    destruct Hcfg1 as [-> | ->]; auto. }
  split; [exact Hcfg'|].
  destruct Hcfg' as (cfg' & H' & Hlast & _).
  intros trade2 clock2 Hold. unfold check_trade, _should_copy_trade.
  rewrite H', Hlast.
  now rewrite (proj2 (PyFacts.le_true _ _) Hold).
Qed.

End CopyLoop.

Section CopyLoopExamples.
Import CopyTradeService.

Lemma hourly_counter_stays_within_cap_witness :
  exists cfg',
    active_copy_traders
      (_check_source_wallet_trades Samples.always_succeeds "s1"
         [(Samples.new_trade, Samples.a_clock)] Samples.open_state) !! "s1"
    = Some cfg' /\
    max_trades_per_hour cfg' = max_trades_per_hour Samples.open_session /\
    (0 <= trades_this_hour cfg' <= max_trades_per_hour cfg')%Z.
Proof.
  apply (hourly_counter_stays_within_cap Samples.always_succeeds "s1"
           [(Samples.new_trade, Samples.a_clock)] Samples.open_state
           Samples.open_session).
  - reflexivity.
  - cbn. lia.
  - cbn. lia.
Defined.

Lemma copies_are_counted_and_recorded_witness :
  exists cfg' recs calls,
    active_copy_traders
      (_check_source_wallet_trades Samples.always_succeeds "s1"
         [(Samples.new_trade, Samples.a_clock)] Samples.open_state) !! "s1"
    = Some cfg' /\
    copy_trade_records
      (_check_source_wallet_trades Samples.always_succeeds "s1"
         [(Samples.new_trade, Samples.a_clock)] Samples.open_state)
    = (copy_trade_records Samples.open_state ++ recs)%list /\
    swaps
      (_check_source_wallet_trades Samples.always_succeeds "s1"
         [(Samples.new_trade, Samples.a_clock)] Samples.open_state)
    = (swaps Samples.open_state ++ calls)%list /\
    (List.length recs <= List.length calls <= 1)%nat /\
    Forall (fun r => r_copy_trade_id r = "s1") recs /\
    copied_trades cfg'
    = (copied_trades Samples.open_session
       + Z.of_nat (List.length (List.filter r_success recs)))%Z.
Proof.
  apply (copies_are_counted_and_recorded Samples.always_succeeds "s1"
           [(Samples.new_trade, Samples.a_clock)] Samples.open_state
           Samples.open_session).
  reflexivity.
Defined.

Lemma trades_older_than_a_copy_are_skipped_witness :
  check_trade Samples.always_succeeds "s1"
    (check_trade Samples.always_succeeds "s1" Samples.open_state
                 (Samples.new_trade, Samples.a_clock))
    (Samples.new_trade, Samples.a_clock)
  = check_trade Samples.always_succeeds "s1" Samples.open_state
                (Samples.new_trade, Samples.a_clock).
Proof.
  edestruct (trades_older_than_a_copy_are_skipped
               Samples.always_succeeds "s1" Samples.open_state
               Samples.open_session Samples.new_trade Samples.a_clock
               "copied") as [_ H].
  - reflexivity.
  - vm_compute. reflexivity.
  - reflexivity.
  - apply H. vm_compute. discriminate.
Defined.

End CopyLoopExamples.

(** ** The chain client *)

Section Fees.
Import SolanaManager.

Lemma sum_bounds (lo hi : Z) (l : list Z) :
  Forall (fun x => lo <= x <= hi)%Z l ->
  (lo * Z.of_nat (List.length l) <= sum l
   <= hi * Z.of_nat (List.length l))%Z.
Proof.
  induction 1 as [|x l Hx _ IH]; [cbn; lia|].
  cbn [sum fold_right List.length]. fold (sum l). lia.
Qed.

(** X15.  Whatever the network answers, the slow tier of
    [get_priority_fee] is at least 1000, the fast tier is twice the
    standard one and the instant tier twice the fast one.  The slow tier
    does not exceed the standard tier exactly when the standard tier is at
    least 1000: below that, "slow" costs more than "standard".  When fees
    were reported, the standard tier lies between the smallest and the
    largest of them. *)
Theorem priority_fee_tiers (response : FeesResponse) :
  let f := get_priority_fee response in
  (1000 <= slow_priority_fee f)%Z /\
  fast_priority_fee f = (2 * standard_priority_fee f)%Z /\
  instant_priority_fee f = (2 * fast_priority_fee f)%Z /\
  ((slow_priority_fee f <= standard_priority_fee f)%Z
   <-> (1000 <= standard_priority_fee f)%Z) /\
  (forall fees lo hi,
     response = FeesReply fees -> fees <> [] ->
     Forall (fun x => lo <= x <= hi)%Z fees ->
     (lo <= standard_priority_fee f <= hi)%Z).
Proof.
  destruct response as [[|x rest]|]; cbn zeta.
  - cbn. split; [lia|]. split; [lia|]. split; [lia|]. split; [lia|].
    intros fs lo hi [= <-] Hne. now destruct Hne.
  - set (l := x :: rest).
    set (avg := (sum l / Z.of_nat (List.length l))%Z).
    change (get_priority_fee (FeesReply l))
      with (mkPriorityFees (Z.max 1000 (avg / 2)) avg (avg * 2) (avg * 4)).
    cbn [slow_priority_fee standard_priority_fee fast_priority_fee
         instant_priority_fee].
    split; [lia|]. split; [lia|]. split; [lia|]. split.
    + split; [lia|]. intros H.
      assert (avg / 2 <= avg)%Z by (apply Z.div_le_upper_bound; lia). lia.
    + intros fs lo hi [= <-] _ Hall.
      pose proof (sum_bounds lo hi l Hall) as Hs.
      assert (Hn : (0 < Z.of_nat (List.length l))%Z) by (cbn; lia).
      split.
      * apply Z.div_le_lower_bound; lia.
      * apply Z.div_le_upper_bound; lia.
  - cbn. split; [lia|]. split; [lia|]. split; [lia|]. split; [lia|].
    intros fs lo hi [=].
Qed.

End Fees.

Section Lookup.
Import SolanaManager SniperService.

Lemma token_info_of_found token_mint token :
  OnDicts.token_info_of
    (list_to_map
       [("success", VBool true);
        ("token_mint", VStr token_mint);
        ("name", get token "name" (VStr ""));
        ("symbol", get token "symbol" (VStr ""));
        ("decimals", get token "decimals" (VInt 0));
        ("price", get token "price" (VFloat 0));
        ("liquidity", get token "liquidity" (VFloat 0));
        ("is_verified", get token "verified" (VBool false))])
  = mkTokenInfo (number (get token "price" (VFloat 0)))
                (number (get token "liquidity" (VFloat 0)))
                (Some (truthy (get token "verified" (VBool false))))
                None.
Proof. reflexivity. Qed.

Lemma token_info_of_failed error :
  OnDicts.token_info_of (failed error) = mkTokenInfo None None None None.
Proof. reflexivity. Qed.

(** X16.  The dict that [get_token_info] returns never has the key
    "is_honeypot", so the honeypot test of [_is_good_opportunity] never
    rejects a token looked up this way; and the predicate accepts the
    dict exactly when the request answered with status 200 and the first
    token of the list with the requested address carries a liquidity that
    is a number of at least 1000 and a true "verified" entry.  A failed
    lookup is never an opportunity. *)
Theorem opportunity_from_lookup
  (response : TokensResponse) (token_mint : string) :
  let token_info :=
    OnDicts.token_info_of (get_token_info response token_mint) in
  is_honeypot token_info = None /\
  (_is_good_opportunity token_info = true <->
   exists tokens token liquidity x verified,
     response = TokensReply 200 tokens /\
     List.find (has_address token_mint) tokens = Some token /\
     token !! "liquidity" = Some liquidity /\
     number liquidity = Some x /\ (1000 <= x)%Q /\
     token !! "verified" = Some verified /\ truthy verified = true).
Proof.
  cbn zeta. unfold get_token_info.
  assert (Hno : forall error,
            is_honeypot (OnDicts.token_info_of (failed error)) = None /\
            (_is_good_opportunity (OnDicts.token_info_of (failed error))
             = true <-> False)).
  { intros error. rewrite token_info_of_failed.
    split; [reflexivity|]. split; [|tauto]. vm_compute. discriminate. }
  destruct response as [status tokens|error].
  - destruct (Z.eqb_spec status 200) as [->|Hne].
    + destruct (List.find (has_address token_mint) tokens)
        as [token|] eqn:Hfind.
      * rewrite token_info_of_found. split; [reflexivity|].
        unfold _is_good_opportunity, get.
        cbn [liquidity is_verified is_honeypot Py.get].
        destruct (token !! "liquidity") as [liq|] eqn:Hl;
          [|cbn; split; [discriminate|];
            intros (? & ? & ? & ? & ? & [= <-] & E & ? & _);
            rewrite Hfind in E; congruence].
        destruct (number liq) as [x|] eqn:Hx;
          [|cbn; split; [discriminate|];
            intros (? & t & ? & ? & ? & [= <-] & E & E2 & E3 & _);
            rewrite Hfind in E; injection E as <-; congruence].
        cbn [Py.get]. destruct (Py.lt x 1000) eqn:Hlt.
        { split; [discriminate|].
          intros (? & t & l' & x' & ? & [= <-] & E & E2 & E3 & Hge & _).
          rewrite Hfind in E. injection E as <-.
          assert (l' = liq) by congruence. subst l'.
          assert (x' = x) by congruence. subst x'.
          apply PyFacts.lt_true in Hlt. lra. }
        apply PyFacts.lt_false in Hlt.
        destruct (token !! "verified") as [ver|] eqn:Hv;
          [|cbn; split; [discriminate|];
            intros (? & t & ? & ? & ? & [= <-] & E & _ & _ & _ & E2 & _);
            rewrite Hfind in E; injection E as <-; congruence].
        destruct (truthy ver) eqn:Ht; cbn.
        { split; [|reflexivity]. intros _.
          exists tokens, token, liq, x, ver. auto 10. }
        { split; [discriminate|].
          intros (? & t & ? & ? & v' & [= <-] & E & _ & _ & _ & E2 & E3).
          rewrite Hfind in E. injection E as <-.
          assert (v' = ver) by congruence. subst v'. congruence. }
      * destruct (Hno "Token not found") as [H1 H2].
        split; [exact H1|]. rewrite H2. split; [tauto|].
        intros (? & ? & ? & ? & ? & [= <-] & E & _). congruence.
    + destruct (Hno ("API request failed: " ++ pretty status))
        as [H1 H2].
      split; [exact H1|]. rewrite H2. split; [tauto|].
      intros (? & ? & ? & ? & ? & [= -> _] & _). congruence.
  - destruct (Hno error) as [H1 H2].
    split; [exact H1|]. rewrite H2. split; [tauto|].
    intros (? & ? & ? & ? & ? & [=] & _).
Qed.

End Lookup.

Section Placeholder.
Import TradingService.

(** X17.  [send_transaction] of the chain client returns a success dict
    without the key "total_cost", which [_execute_order] reads: the read
    raises, and [_execute_order] answers with the failure dict whose error
    is the name of the key.  So an order that passes validation and the
    risk check and is executed through this [send_transaction] is stored,
    then marked failed, and the response is the failure "Order execution
    failed: 'total_cost'". *)
Theorem placeholder_transaction_fails_the_order :
  (forall tx_data wallet cluster,
     OnDicts._execute_order
       (SolanaManager.send_transaction tx_data wallet cluster)
     = SolanaManager.failed "'total_cost'") /\
  (forall env request uuid now st,
     (forall order,
        Some (_execute_order (send_transaction env) order)
        = OnDicts.execution_of
            (OnDicts._execute_order
               (SolanaManager.send_transaction
                  (SolanaManager.build_transaction
                     (order_type order) (token_mint order) (amount order)
                     (slippage order) (priority_fee order)
                     (compute_unit_limit order))
                  (wallet_address order) (cluster order)))) ->
     valid (_validate_order (stamp request uuid now)) = true ->
     allowed (check_order_risk env (stamp request uuid now)) = true ->
     Lifecycle.fresh uuid st ->
     fst (PlaceOrder env request uuid now st)
     = failure "Order execution failed: 'total_cost'" /\
     Lifecycle.status_of uuid (snd (PlaceOrder env request uuid now st))
     = Some FAILED).
Proof.
  split; [reflexivity|].
  intros env request uuid now st Henv Hv Ha Hf.
  specialize (Henv (stamp request uuid now)).
  change (OnDicts.execution_of _)
    with (Some (ExecFailure "'total_cost'")) in Henv.
  injection Henv as Henv.
  unfold PlaceOrder. rewrite Hv, Ha, Henv. cbn [negb fst snd].
  split; [reflexivity|].
  rewrite status_after_update. unfold Lifecycle.status_of.
  cbn [_store_order orders]. rewrite fetch_order_app_r.
  - cbn. now rewrite !String.eqb_refl.
  - destruct (fetch_order uuid (orders st)) as [row|] eqn:E;
      [|reflexivity].
    apply fetch_order_some in E as [Hin Hid]. now destruct (Hf row Hin).
Qed.

Lemma placeholder_transaction_fails_the_order_witness :
  fst (PlaceOrder
         (mkCollaborators (fun _ => mkRiskCheck true "")
                          (fun _ => TxRaised "'total_cost'"))
         Samples.a_request "id-1" 1700000000 empty_store)
  = failure "Order execution failed: 'total_cost'".
Proof.
  apply (proj2 placeholder_transaction_fails_the_order
           (mkCollaborators (fun _ => mkRiskCheck true "")
                            (fun _ => TxRaised "'total_cost'"))
           Samples.a_request "id-1" 1700000000%Z empty_store).
  - intros order. reflexivity.
  - vm_compute. reflexivity.
  - reflexivity.
  - intros row [].
Defined.

End Placeholder.

(** ** The sniper engine *)

Section Engine.
Import SniperService SniperEngine.

Variable execute_swap : CopyTradeService.SwapCall -> SwapAnswer.










(** X19.  A visit of the scanning loop to a token that is accepted, under
    a registered session and with a price in the token info, makes one
    call to the chain client, a purchase of the session's buy amount,
    writes one record with that price and moves exactly one of the two
    counters by one, the one that matches the outcome of the call; a
    monitoring task is created only after a success and only when the
    session sells automatically.  The token stays among the targets, so
    the next visit buys again. *)
Theorem accepted_token_is_sniped_once
  (sniper_id token_mint : string) (token_info : TokenInfo) (now : Q)
  (w : World) (cfg : SniperConfig) (buy_price : Q) :
  active_snipers (service w) !! sniper_id = Some cfg ->
  _is_good_opportunity token_info = true ->
  price token_info = Some buy_price ->
  let w' :=
    _check_token_opportunity execute_swap sniper_id token_mint
                             (Some token_info) now w in
  let call :=
    CopyTradeService.mkSwapCall token_mint (buy_amount cfg)
                                (max_slippage cfg) (wallet_address cfg)
                                (private_key cfg) false in
  calls w' = (calls w ++ [call])%list /\
  exists cfg' sig ok,
    active_snipers (service w') !! sniper_id = Some cfg' /\
    target_tokens cfg' = target_tokens cfg /\
    snipe_records w'
    = (snipe_records w
       ++ [mkSnipeRecord sniper_id token_mint (buy_amount cfg) buy_price
                         sig now ok None None None])%list /\
    successful_snipes cfg'
    = (successful_snipes cfg + if ok then 1 else 0)%Z /\
    failed_snipes cfg' = (failed_snipes cfg + if ok then 0 else 1)%Z /\
    monitors w'
    = (monitors w
       ++ if ok && auto_sell cfg
          then [(sniper_id, token_mint, buy_price)] else [])%list /\
    match execute_swap call with
    | Swapped signature _ => ok = true /\ sig = signature
    | NotSwapped _ => ok = false /\ sig = ""
    end.
Proof.
  intros H Hgood Hp w' call. subst w' call.
  unfold _check_token_opportunity, _execute_snipe. rewrite Hgood, H, Hp.
  destruct (execute_swap _) as [signature amount|error].
  - destruct (auto_sell cfg) eqn:Hauto.
    + split; [reflexivity|].
      exists (count_success cfg), signature, true.
      cbn [create_monitor update_session _record_snipe with_call service
           snipe_records active_snipers monitors calls].
      rewrite lookup_alter_eq, H. cbn. repeat split; auto; lia.
    + split; [reflexivity|].
      exists (count_success cfg), signature, true.
      cbn [create_monitor update_session _record_snipe with_call service
           snipe_records active_snipers monitors calls].
      rewrite lookup_alter_eq, H, app_nil_r. cbn. repeat split; auto; lia.
  - split; [reflexivity|].
    exists (count_failure cfg), "", false.
    cbn [create_monitor update_session _record_snipe with_call service
         snipe_records active_snipers monitors calls].
    rewrite lookup_alter_eq, H, app_nil_r. cbn. repeat split; auto; lia.
Qed.

(** X20.  When the price lookup fails, [get_token_price] answers 0.0, and
    the monitoring loop takes that for the price of the token: for a
    token bought at a price that is not negative, under a stop-loss
    fraction of at most one, the visit ends the loop with a sale at price
    zero. *)
Theorem failed_price_lookup_triggers_a_sale
  (sniper_id token_mint : string) (buy_price : Q)
  (response : SolanaManager.TokensResponse)
  (readings : list (bool * SolanaManager.Value)) (w : World)
  (cfg : SniperConfig) :
  active_snipers (service w) !! sniper_id = Some cfg ->
  SolanaManager.get_token_info response token_mint !! "success"
  = Some (SolanaManager.VBool false) ->
  (0 <= buy_price)%Q -> (stop_loss cfg <= 1)%Q ->
  SolanaManager.get_token_price response token_mint
  = SolanaManager.VFloat 0 /\
  exists reason,
    _monitor_sell_opportunity
      sniper_id token_mint buy_price
      ((true, SolanaManager.get_token_price response token_mint)
         :: readings) w
    = Some (0%Q, reason) /\
    (reason = "profit" \/ reason = "stop_loss").
Proof.
  intros H Hfail Hb Hsl.
  assert (Hprice : SolanaManager.get_token_price response token_mint
                   = SolanaManager.VFloat 0).
  { unfold SolanaManager.get_token_price. now rewrite Hfail. }
  split; [exact Hprice|].
  unfold _monitor_sell_opportunity. rewrite H, Hprice.
  cbn [monitor_loop negb visit SolanaManager.number].
  destruct (Py.ge 0 (buy_price * (1 + profit_target cfg))) eqn:E1;
    [eauto|].
  assert (E2 : Py.le 0 (buy_price * (1 - stop_loss cfg)) = true).
  { apply PyFacts.le_true. nra. }
  rewrite E2. eauto.
Qed.

(** X21.  [_execute_sell] asks the chain client to sell amount zero of the
    token.  When the buy price on record for the pair is zero (no record,
    or a token bought at the default price 0.0), the computation of the
    profit percentage divides by zero after the swap has been made: the
    call is on the list, but the profit of the session, the sniper table
    and the records are left as they were, the open record stays open. *)
Theorem zero_buy_price_sale_is_not_booked
  (sniper_id token_mint : string) (sell_price : Q) (reason : string)
  (now : Q) (w : World) (cfg : SniperConfig) :
  active_snipers (service w) !! sniper_id = Some cfg ->
  (_get_buy_price sniper_id token_mint w == 0)%Q ->
  let w' :=
    _execute_sell execute_swap sniper_id token_mint sell_price reason now
                  w in
  service w' = service w /\
  snipe_records w' = snipe_records w /\
  monitors w' = monitors w /\
  calls w'
  = (calls w
     ++ [CopyTradeService.mkSwapCall token_mint 0 (max_slippage cfg)
           (wallet_address cfg) (private_key cfg) true])%list.
Proof.
  intros H Hzero w'. subst w'. unfold _execute_sell. rewrite H.
  destruct (execute_swap _) as [sig amount|error]; [|cbn; auto].
  change (_get_buy_price sniper_id token_mint (with_call _ w))
    with (_get_buy_price sniper_id token_mint w).
  unfold Py.div. apply Qeq_bool_iff in Hzero. rewrite Hzero. cbn. auto.
Qed.

Lemma is_open_spec sniper_id token_mint r :
  is_open sniper_id token_mint r = true
  <-> sr_sniper_id r = sniper_id /\ sr_token_mint r = token_mint /\
      sr_sell_price r = None.
Proof.
  unfold is_open. rewrite !andb_true_iff, !String.eqb_eq.
  destruct (sr_sell_price r); intuition discriminate.
Qed.

(** X22.  A sale that the chain client settles, for a pair whose buy price
    on record is not zero, adds (sell price - buy price) times the amount
    of the settlement to the profit of the session and closes every open
    record of the pair at once: each record of the session and the token
    whose sell price was NULL gets the price of this sale, the signature of
    the settlement and the clock reading as its three sale columns, the
    records of failed purchases as well as those of successful ones.  The
    columns of the purchase stay as they were in every record, the other
    records are untouched, no record is added or removed, and no record of
    the pair is open afterwards. *)
Theorem sale_closes_every_open_record
  (sniper_id token_mint : string) (sell_price : Q) (reason : string)
  (now : Q) (w : World) (cfg : SniperConfig) (signature : string)
  (amount : Q) :
  active_snipers (service w) !! sniper_id = Some cfg ->
  execute_swap
    (CopyTradeService.mkSwapCall token_mint 0 (max_slippage cfg)
       (wallet_address cfg) (private_key cfg) true)
  = Swapped signature amount ->
  ~ (_get_buy_price sniper_id token_mint w == 0)%Q ->
  let w' :=
    _execute_sell execute_swap sniper_id token_mint sell_price reason now
                  w in
  (exists cfg',
     active_snipers (service w') !! sniper_id = Some cfg' /\
     total_profit cfg'
     = (total_profit cfg
        + (sell_price - _get_buy_price sniper_id token_mint w) * amount)%Q)
  /\
  List.length (snipe_records w') = List.length (snipe_records w) /\
  (forall i r,
     nth_error (snipe_records w) i = Some r ->
     exists r',
       nth_error (snipe_records w') i = Some r' /\
       sr_sniper_id r' = sr_sniper_id r /\
       sr_token_mint r' = sr_token_mint r /\
       sr_buy_amount r' = sr_buy_amount r /\
       sr_buy_price r' = sr_buy_price r /\
       sr_buy_signature r' = sr_buy_signature r /\
       sr_buy_time r' = sr_buy_time r /\
       sr_success r' = sr_success r /\
       (sr_sniper_id r = sniper_id /\ sr_token_mint r = token_mint /\
        sr_sell_price r = None ->
        sr_sell_price r' = Some sell_price /\
        sr_sell_signature r' = Some signature /\
        sr_sell_time r' = Some now) /\
       (~ (sr_sniper_id r = sniper_id /\ sr_token_mint r = token_mint /\
           sr_sell_price r = None) ->
        r' = r)) /\
  (forall r',
     In r' (snipe_records w') ->
     sr_sniper_id r' = sniper_id -> sr_token_mint r' = token_mint ->
     sr_sell_price r' <> None).
Proof.
  intros H Hswap Hnz w'. subst w'. unfold _execute_sell.
  rewrite H, Hswap.
  change (_get_buy_price sniper_id token_mint (with_call _ w))
    with (_get_buy_price sniper_id token_mint w).
  unfold Py.div.
  destruct (Qeq_bool (_get_buy_price sniper_id token_mint w) 0) eqn:E;
    [apply Qeq_bool_iff in E; contradiction|].
  cbn [_update_snipe_record update_session with_call service snipe_records
       active_snipers].
  split; [|split; [apply length_map|split]].
  - exists (add_profit
              ((sell_price - _get_buy_price sniper_id token_mint w)
               * amount)%Q cfg).
    rewrite lookup_alter_eq, H. split; reflexivity.
  - intros i r Hi. rewrite nth_error_map, Hi. cbn [option_map].
    eexists. split; [reflexivity|].
    pose proof (is_open_spec sniper_id token_mint r) as Hopen.
    destruct (is_open sniper_id token_mint r); cbn.
    + do 7 (split; [reflexivity|]). split; [auto|].
      intros Hno. destruct Hno. now apply Hopen.
    + do 7 (split; [reflexivity|]). split; [|reflexivity].
      intros Hyes. apply Hopen in Hyes. discriminate.
  - intros r' Hin Hid Hmint Hnull.
    apply in_map_iff in Hin as (r & <- & _).
    pose proof (is_open_spec sniper_id token_mint r) as Hopen.
    destruct (is_open sniper_id token_mint r); [discriminate|].
    assert (false = true); [|discriminate]. now apply Hopen.
Qed.

End Engine.

Section EngineExamples.
Import SniperService SniperEngine.


Lemma accepted_token_is_sniped_once_witness :
  calls
    (_check_token_opportunity
       (fun _ => Swapped "sig" 10) "sn-1" Samples.usdc_mint
       (Some Samples.sound_token) 5
       (step (fun _ => Swapped "sig" 10)
             (Requested (ReqStart Samples.a_sniper_request "sn-1" 0))
             empty_world))
  = [CopyTradeService.mkSwapCall Samples.usdc_mint 0.1 0.05
                                 Samples.a_wallet "key" false].
Proof.
  edestruct (accepted_token_is_sniped_once
               (fun _ => Swapped "sig" 10) "sn-1" Samples.usdc_mint
               Samples.sound_token 5
               (step (fun _ => Swapped "sig" 10)
                     (Requested
                        (ReqStart Samples.a_sniper_request "sn-1" 0))
                     empty_world)) as [Hcalls _].
  - reflexivity.
  - vm_compute. reflexivity.
  - reflexivity.
  - exact Hcalls.
Defined.

Lemma failed_price_lookup_triggers_a_sale_witness :
  exists reason,
    _monitor_sell_opportunity
      "sn-1" Samples.usdc_mint 2
      [(true, SolanaManager.get_token_price
                (SolanaManager.TokensRaised "timeout") Samples.usdc_mint)]
      (step (fun _ => Swapped "sig" 10)
            (Requested (ReqStart Samples.a_sniper_request "sn-1" 0))
            empty_world)
    = Some (0%Q, reason) /\
    (reason = "profit" \/ reason = "stop_loss").
Proof.
  edestruct (failed_price_lookup_triggers_a_sale
               "sn-1" Samples.usdc_mint 2
               (SolanaManager.TokensRaised "timeout") []
               (step (fun _ => Swapped "sig" 10)
                     (Requested
                        (ReqStart Samples.a_sniper_request "sn-1" 0))
                     empty_world)) as [_ Hsale].
  - reflexivity.
  - reflexivity.
  - vm_compute. discriminate.
  - vm_compute. discriminate.
  - exact Hsale.
Defined.

Lemma zero_buy_price_sale_is_not_booked_witness :
  snipe_records
    (_execute_sell
       (fun _ => Swapped "sig" 10) "sn-1" Samples.usdc_mint 3 "profit" 9
       (step (fun _ => Swapped "sig" 10)
             (Requested (ReqStart Samples.a_sniper_request "sn-1" 0))
             empty_world))
  = [].
Proof.
  edestruct (zero_buy_price_sale_is_not_booked
               (fun _ => Swapped "sig" 10) "sn-1" Samples.usdc_mint 3
               "profit" 9
               (step (fun _ => Swapped "sig" 10)
                     (Requested
                        (ReqStart Samples.a_sniper_request "sn-1" 0))
                     empty_world)) as (_ & Hrec & _).
  - reflexivity.
  - vm_compute. reflexivity.
  - exact Hrec.
Defined.

(** The session "sn-1" has one open record, of a purchase at time 5; the
    sale at price 3, settled under the signature "sold" at time 9, fills
    its three sale columns. *)
Lemma sale_closes_every_open_record_witness :
  exists r',
    nth_error
      (snipe_records
         (_execute_sell
            (fun call => Swapped (if CopyTradeService.sw_is_sell call
                                  then "sold" else "bought") 10)
            "sn-1" Samples.usdc_mint 3 "profit" 9
            (step (fun _ => Swapped "bought" 10)
                  (Checked "sn-1" Samples.usdc_mint
                           (Some Samples.sound_token) 5)
                  (step (fun _ => Swapped "bought" 10)
                        (Requested
                           (ReqStart Samples.a_sniper_request "sn-1" 0))
                        empty_world)))) 0
    = Some r' /\
    sr_buy_signature r' = "bought" /\
    sr_sell_price r' = Some 3%Q /\
    sr_sell_signature r' = Some "sold" /\
    sr_sell_time r' = Some 9%Q.
Proof.
  edestruct (sale_closes_every_open_record
               (fun call => Swapped (if CopyTradeService.sw_is_sell call
                                     then "sold" else "bought") 10)
               "sn-1" Samples.usdc_mint 3
               "profit" 9
               (step (fun _ => Swapped "bought" 10)
                     (Checked "sn-1" Samples.usdc_mint
                              (Some Samples.sound_token) 5)
                     (step (fun _ => Swapped "bought" 10)
                           (Requested
                              (ReqStart Samples.a_sniper_request "sn-1"
                                        0))
                           empty_world))) as (_ & _ & Hpos & _).
  - reflexivity.
  - reflexivity.
  - vm_compute. discriminate.
  - edestruct (Hpos 0%nat) as (r' & Hr' & _ & _ & _ & _ & Hsig & _ & _
                               & Hsale & _); [reflexivity|].
    exists r'. split; [exact Hr'|]. split; [rewrite Hsig; reflexivity|].
    apply Hsale. repeat split.
Defined.

End EngineExamples.

(** ** Copy-trade sessions *)

Section CopySessions.
Import CopyTradeService CopyTradeSessions.

Variable execute_swap : SwapCall -> SwapResult.

Lemma monitor_skips id d cfg recent_trades :
  active_copy_traders (engine d) !! id = Some cfg ->
  is_running cfg = false ->
  monitor_session execute_swap id recent_trades d = d.
Proof. intros H Hr. unfold monitor_session. now rewrite H, Hr. Qed.

(** X23.  [RemoveTraderToCopy] on a live session answers with success and
    keeps the session in the registry, marked as not running.  From then
    on the monitoring loop passes the session over, whatever trades the
    source wallet makes; and [AddTraderToCopy] on it succeeds without
    marking it as running again, so the loop keeps passing it over. *)
Theorem removed_session_is_never_resumed
  (id : string) (d : Desk) (cfg : CopyTradeConfig) :
  active_copy_traders (engine d) !! id = Some cfg ->
  let d1 := snd (RemoveTraderToCopy id d) in
  fst (RemoveTraderToCopy id d)
  = mkCopyTradeResponse true "Trader removed successfully" "" /\
  active_copy_traders (engine d1) !! id = Some (stop_running cfg) /\
  copy_traders d1 = copy_traders d /\
  (forall recent_trades,
     monitor_session execute_swap id recent_trades d1 = d1) /\
  (forall source_wallet allocation_percentage,
     _validate_wallet_address source_wallet = true ->
     let d2 :=
       snd (AddTraderToCopy id source_wallet allocation_percentage d1) in
     fst (AddTraderToCopy id source_wallet allocation_percentage d1)
     = mkCopyTradeResponse true "Trader added successfully" "" /\
     active_copy_traders (engine d2) !! id
     = Some (set_source (stop_running cfg) source_wallet
                        allocation_percentage) /\
     forall recent_trades,
       monitor_session execute_swap id recent_trades d2 = d2).
Proof.
  intros H. unfold RemoveTraderToCopy. rewrite H. cbn [fst snd].
  set (d1 := set_registry d _).
  assert (H1 : active_copy_traders (engine d1) !! id
               = Some (stop_running cfg)) by apply lookup_insert_eq.
  split; [reflexivity|]. split; [exact H1|]. split; [reflexivity|]. split.
  - intros recent_trades. now apply (monitor_skips id d1 _ _ H1).
  - intros source_wallet allocation_percentage Hv.
    unfold AddTraderToCopy. rewrite H1, Hv. cbn [negb fst snd].
    set (d2 := set_registry d1 _).
    assert (H2 : active_copy_traders (engine d2) !! id
                 = Some (set_source (stop_running cfg) source_wallet
                                    allocation_percentage))
      by apply lookup_insert_eq.
    split; [reflexivity|]. split; [exact H2|].
    intros recent_trades. now apply (monitor_skips id d2 _ _ H2).
Qed.

(** X24.  A session that has just been started has no trade on record, so
    the rolling hour has always gone by when its first trade arrives: once
    the clock reads at least 3600, the trade is admitted exactly when it
    carries a positive timestamp and an amount of at least the minimum
    trade amount, and the cap of trades per hour plays no part, a cap of
    zero included. *)
Theorem first_trade_ignores_the_hourly_cap
  (request : CopyTradeRequestConfig) (uuid : string) (now : Q) (d : Desk)
  (trade : Trade) (current_time : Q) :
  _validate_wallet_address (rq_source_wallet request) = true ->
  _validate_wallet_address (rq_target_wallet request) = true ->
  (3600 <= current_time)%Q ->
  fst (_should_copy_trade uuid trade current_time
         (engine (snd (StartCopyTrading request uuid now d)))) = true
  <->
  (0 < Py.get (t_timestamp trade) 0)%Q /\
  (rq_min_trade_amount request <= Py.get (t_amount trade) 0)%Q.
Proof.
  intros Hs Ht Hclock. unfold StartCopyTrading. rewrite Hs, Ht.
  cbn [negb snd engine]. unfold _should_copy_trade.
  cbn [set_active active_copy_traders]. rewrite lookup_insert_eq.
  cbn [last_trade_time trades_this_hour max_trades_per_hour
       min_trade_amount].
  destruct (Py.le (Py.get (t_timestamp trade) 0%Q) 0%Q) eqn:E1.
  - apply PyFacts.le_true in E1. cbn. split; [discriminate|]. lra.
  - apply PyFacts.le_false in E1.
    assert (E2 : Py.lt (current_time - 0) 3600 = false)
      by (apply PyFacts.lt_false; lra).
    rewrite E2.
    destruct (Py.lt (Py.get (t_amount trade) 0%Q)
                    (rq_min_trade_amount request)) eqn:E3; cbn.
    + apply PyFacts.lt_true in E3. split; [discriminate|]. lra.
    + apply PyFacts.lt_false in E3. split; [auto|reflexivity].
Qed.

End CopySessions.

Section CopySessionsExamples.
Import CopyTradeService CopyTradeSessions.

Lemma removed_session_is_never_resumed_witness :
  monitor_session
    Samples.always_succeeds "s1" [(Samples.new_trade, Samples.a_clock)]
    (snd (RemoveTraderToCopy "s1" (mkDesk Samples.open_state [])))
  = snd (RemoveTraderToCopy "s1" (mkDesk Samples.open_state [])).
Proof.
  edestruct (removed_session_is_never_resumed
               Samples.always_succeeds "s1"
               (mkDesk Samples.open_state [])) as (_ & _ & _ & H & _).
  - reflexivity.
  - apply H.
Defined.

Lemma first_trade_ignores_the_hourly_cap_witness :
  fst (_should_copy_trade
         "c-1" Samples.new_trade 5000
         (engine
            (snd (StartCopyTrading
                    (mkCopyTradeRequestConfig
                       Samples.a_wallet Samples.a_wallet "key" 0.5 2 0.01
                       0 0 "rpc")
                    "c-1" 4000 (mkDesk Samples.open_state [])))))
  = true.
Proof.
  apply (first_trade_ignores_the_hourly_cap
           (mkCopyTradeRequestConfig
              Samples.a_wallet Samples.a_wallet "key" 0.5 2 0.01 0 0 "rpc")
           "c-1" 4000 (mkDesk Samples.open_state []) Samples.new_trade
           5000).
  - vm_compute. reflexivity.
  - vm_compute. reflexivity.
  - vm_compute. discriminate.
  - split; vm_compute; [reflexivity|discriminate].
Defined.

End CopySessionsExamples.

(** ** Market data *)

Section MarketData.
Import SolanaManager MarketDataService Quotes.












Lemma quoted_once request top top' :
  quoted request top -> quoted request top' -> top' = top.
Proof. intros [d H] [d' H']. congruence. Qed.







(** X28.  On a cache miss [GetTokenInfo] never answers and never fills
    the cache: when the token lookup fails the call is aborted, and when
    it succeeds the service reads the key "data", which the dict of
    [get_token_info] does not have, before anything is stored or
    returned.  Nothing else in the service writes this cache, so a token
    document is served only if it was put there from outside. *)
Theorem token_info_is_never_served_fresh
  (response : SolanaManager.TokensResponse) (token_mint : string)
  (cluster : Z) (cache : gmap string SolanaManager.Value) :
  cache !! token_info_key token_mint cluster = None ->
  GetTokenInfo response token_mint cluster cache = (None, cache).
Proof.
  intros Hmiss. unfold GetTokenInfo. rewrite Hmiss.
  unfold SolanaManager.get_token_info.
  destruct response as [status tokens|error]; [|reflexivity].
  destruct (status =? 200)%Z; [|reflexivity].
  destruct (List.find _ tokens); reflexivity.
Qed.

Lemma token_info_is_never_served_fresh_witness :
  GetTokenInfo
    (SolanaManager.TokensReply
       200 [list_to_map
              [("address", SolanaManager.VStr Samples.usdc_mint);
               ("name", SolanaManager.VStr "USD Coin")]])
    Samples.usdc_mint 0 ∅
  = (None, ∅).
Proof.
  apply (token_info_is_never_served_fresh
           (SolanaManager.TokensReply
              200 [list_to_map
                     [("address", SolanaManager.VStr Samples.usdc_mint);
                      ("name", SolanaManager.VStr "USD Coin")]])
           Samples.usdc_mint 0%Z ∅).
  reflexivity.
Defined.

End MarketData.

Section MarketDataExamples.
Import SolanaManager MarketDataService Quotes.


(** A feed entry whose volume is null is shown by [GetTokenPrice], with
    volume zero, and aborts [GetMarketData]. *)
Example null_volume_is_shown_but_not_summed :
  let s := mkSources FeedRaised
                     (FeedReply
                        200 (VDict [(Samples.usdc_mint, without_volume)]))
                     (7%Z, 8%Z) in
  fst (GetTokenPrice s Samples.usdc_mint 0 ∅)
  = Some (mkPriceResponse Samples.usdc_mint 0.25 0 0 0 7) /\
  GetMarketData [(Samples.usdc_mint, s)] 0 9 = None.
Proof. split; vm_compute; reflexivity. Qed.

End MarketDataExamples.
